(** * AuthUtils: the CrossID / Netlify login flow

    A shallow embedding of [src/functions/AuthUtils.js].

    The functions of the source are in the section [AuthUtils] below, under
    their own names.  What they call is embedded before them:
    - the built-ins of the runtime ([JSON.stringify], [JSON.parse],
      [Buffer.from], [buf.toString], [encodeURIComponent]) after
      ECMA-262 (2019) and Node.js;
    - the [cookie] library: [parse] as it computes, [serialize] by the
      parts of the header it writes;
    - [generators.nonce] of openid-client as it computes, over the random
      octets of the world;
    - the identity provider client and the signer as an interface,
      [Collaborators]: each of its calls returns or throws, and the
      theorems assume of it what their hypotheses say, nothing more.

    JavaScript strings are sequences of UTF-16 code units, buffers are
    sequences of octets; both are lists over [Z].  Promises that reject and
    exceptions that are thrown are the [Throw] outcome of a small state and
    error monad over the [World] (clock, entropy, calls made to the
    identity provider). *)

From Stdlib Require Import ZArith List Lia Bool String Ascii.
Import ListNotations.
Open Scope Z_scope.
Set Warnings "-register-all".

(* ================================================================= *)
(** * Part I: definitions *)
(* ================================================================= *)

(** ** JavaScript strings and values *)

(** A string is its sequence of UTF-16 code units. *)
Definition jsstring := list Z.

Definition code_unit (c : Z) : Prop := 0 <= c < 65536.
Definition valid_string (s : jsstring) : Prop := Forall code_unit s.

Definition octet (b : Z) : Prop := 0 <= b < 256.
Definition valid_bytes (bs : list Z) : Prop := Forall octet bs.

(** String literals of the source, all of them ASCII. *)
Definition js (s : string) : jsstring :=
  map (fun a => Z.of_N (N_of_ascii a)) (list_ascii_of_string s).

Fixpoint str_eqb (a b : jsstring) : bool :=
  match a, b with
  | [], [] => true
  | x :: a', y :: b' => (x =? y) && str_eqb a' b'
  | _, _ => false
  end.

(** Values that [JSON.parse] produces.  A number is kept as the text of
    its literal: no operation of this program computes with one. *)
Inductive JSON :=
| JNull
| JBool (b : bool)
| JNumber (lexeme : jsstring)
| JString (s : jsstring)
| JArray (elements : list JSON)
| JObject (members : list (jsstring * JSON)).

(** A value that may be [undefined]. *)
Definition jsval := option JSON.
Definition undefined : jsval := None.

(** ** Surrogates and code points (ECMA-262, StringToCodePoints) *)

Definition is_high (c : Z) : bool := (0xD800 <=? c) && (c <=? 0xDBFF).
Definition is_low (c : Z) : bool := (0xDC00 <=? c) && (c <=? 0xDFFF).
Definition is_surrogate (c : Z) : bool := (0xD800 <=? c) && (c <=? 0xDFFF).

Definition pair_cp (hi lo : Z) : Z :=
  0x10000 + (hi - 0xD800) * 1024 + (lo - 0xDC00).

(** A high surrogate followed by a low one is one code point; any other
    code unit, a lone surrogate included, is a code point of its own. *)
Fixpoint StringToCodePoints (s : jsstring) : list Z :=
  match s with
  | [] => []
  | c :: t =>
      if is_high c then
        match t with
        | d :: t' =>
            if is_low d then pair_cp c d :: StringToCodePoints t'
            else c :: StringToCodePoints t
        | [] => [c]
        end
      else c :: StringToCodePoints t
  end.

Definition utf16_cp (cp : Z) : jsstring :=
  if cp <? 0x10000 then [cp]
  else [0xD800 + (cp - 0x10000) / 1024; 0xDC00 + (cp - 0x10000) mod 1024].

Definition CodePointsToString (cps : list Z) : jsstring :=
  flat_map utf16_cp cps.

(** A string with no lone surrogate. *)
Definition well_formed (s : jsstring) : Prop :=
  Forall (fun cp => is_surrogate cp = false) (StringToCodePoints s).

(** ** Hexadecimal digits *)

Definition hex_lower (d : Z) : Z := if d <? 10 then 48 + d else 87 + d.
Definition hex_upper (d : Z) : Z := if d <? 10 then 48 + d else 55 + d.

Definition unhex (c : Z) : option Z :=
  if (48 <=? c) && (c <=? 57) then Some (c - 48)
  else if (97 <=? c) && (c <=? 102) then Some (c - 87)
  else if (65 <=? c) && (c <=? 70) then Some (c - 55)
  else None.

(** ** Buffer: UTF-8 *)

Definition utf8_cp (cp : Z) : list Z :=
  if cp <? 0x80 then [cp]
  else if cp <? 0x800 then [0xC0 + cp / 64; 0x80 + cp mod 64]
  else if cp <? 0x10000 then
    [0xE0 + cp / 4096; 0x80 + (cp / 64) mod 64; 0x80 + cp mod 64]
  else
    [0xF0 + cp / 262144; 0x80 + (cp / 4096) mod 64;
     0x80 + (cp / 64) mod 64; 0x80 + cp mod 64].

Definition REPLACEMENT : Z := 0xFFFD.

(** [Buffer.from(str)], encoding utf8: a lone surrogate is written as
    U+FFFD. *)
Definition Buffer_from_utf8 (s : jsstring) : list Z :=
  flat_map (fun cp => utf8_cp (if is_surrogate cp then REPLACEMENT else cp))
           (StringToCodePoints s).

Definition in_range (lo hi b : Z) : bool := (lo <=? b) && (b <=? hi).

(** [buf.toString('utf8')]: the decoder of the WHATWG Encoding standard,
    which V8 follows.  An ill-formed sequence yields one U+FFFD for its
    longest well-formed prefix and decoding resumes at the offending
    octet. *)
Fixpoint Buffer_toString_utf8 (bs : list Z) : jsstring :=
  match bs with
  | [] => []
  | b0 :: t =>
      if b0 <? 0x80 then b0 :: Buffer_toString_utf8 t
      else if in_range 0xC2 0xDF b0 then
        match t with
        | [] => [REPLACEMENT]
        | b1 :: t1 =>
            if in_range 0x80 0xBF b1
            then ((b0 - 0xC0) * 64 + (b1 - 0x80)) :: Buffer_toString_utf8 t1
            else REPLACEMENT :: Buffer_toString_utf8 t
        end
      else if in_range 0xE0 0xEF b0 then
        let lower := if b0 =? 0xE0 then 0xA0 else 0x80 in
        let upper := if b0 =? 0xED then 0x9F else 0xBF in
        match t with
        | [] => [REPLACEMENT]
        | b1 :: t1 =>
            if in_range lower upper b1 then
              match t1 with
              | [] => [REPLACEMENT]
              | b2 :: t2 =>
                  if in_range 0x80 0xBF b2
                  then ((b0 - 0xE0) * 4096 + (b1 - 0x80) * 64 + (b2 - 0x80))
                         :: Buffer_toString_utf8 t2
                  else REPLACEMENT :: Buffer_toString_utf8 t1
              end
            else REPLACEMENT :: Buffer_toString_utf8 t
        end
      else if in_range 0xF0 0xF4 b0 then
        let lower := if b0 =? 0xF0 then 0x90 else 0x80 in
        let upper := if b0 =? 0xF4 then 0x8F else 0xBF in
        match t with
        | [] => [REPLACEMENT]
        | b1 :: t1 =>
            if in_range lower upper b1 then
              match t1 with
              | [] => [REPLACEMENT]
              | b2 :: t2 =>
                  if in_range 0x80 0xBF b2 then
                    match t2 with
                    | [] => [REPLACEMENT]
                    | b3 :: t3 =>
                        if in_range 0x80 0xBF b3
                        then utf16_cp ((b0 - 0xF0) * 262144 + (b1 - 0x80) * 4096
                                       + (b2 - 0x80) * 64 + (b3 - 0x80))
                               ++ Buffer_toString_utf8 t3
                        else REPLACEMENT :: Buffer_toString_utf8 t2
                    end
                  else REPLACEMENT :: Buffer_toString_utf8 t1
              end
            else REPLACEMENT :: Buffer_toString_utf8 t
        end
      else REPLACEMENT :: Buffer_toString_utf8 t
  end.

(** ** Buffer: base64 *)

Definition base64_alphabet : jsstring :=
  js "ABCDEFGHIJKLMNOPQRSTUVWXYZabcdefghijklmnopqrstuvwxyz0123456789+/".
Definition base64url_alphabet : jsstring :=
  js "ABCDEFGHIJKLMNOPQRSTUVWXYZabcdefghijklmnopqrstuvwxyz0123456789-_".

Definition b64_char (alphabet : jsstring) (i : Z) : Z :=
  nth (Z.to_nat (i mod 64)) alphabet 0.

Fixpoint base64_encode (alphabet : jsstring) (pad : bool) (bs : list Z)
  : jsstring :=
  let ch := b64_char alphabet in
  match bs with
  | [] => []
  | [a] =>
      [ch (a / 4); ch ((a mod 4) * 16)] ++ (if pad then [61; 61] else [])
  | [a; b] =>
      [ch (a / 4); ch ((a mod 4) * 16 + b / 16); ch ((b mod 16) * 4)]
        ++ (if pad then [61] else [])
  | a :: b :: c :: t =>
      [ch (a / 4); ch ((a mod 4) * 16 + b / 16);
       ch ((b mod 16) * 4 + c / 64); ch (c mod 64)]
        ++ base64_encode alphabet pad t
  end.

(** [buf.toString('base64')] *)
Definition Buffer_toString_base64 (bs : list Z) : jsstring :=
  base64_encode base64_alphabet true bs.

(** The decoding table of Node.js ([unbase64]): both alphabets are
    accepted.  Only the low octet of a code unit is looked at. *)
Definition unbase64 (c : Z) : option Z :=
  let c := c mod 256 in
  if in_range 65 90 c then Some (c - 65)
  else if in_range 97 122 c then Some (c - 71)
  else if in_range 48 57 c then Some (c + 4)
  else if (c =? 43) || (c =? 45) then Some 62
  else if (c =? 47) || (c =? 95) then Some 63
  else None.

(** The sextets of a base64 text, as Node.js reads them: characters
    outside the alphabets are skipped and the first [=] ends the text. *)
Fixpoint sextets (s : jsstring) : list Z :=
  match s with
  | [] => []
  | c :: t =>
      match unbase64 c with
      | Some v => v :: sextets t
      | None => if c mod 256 =? 61 then [] else sextets t
      end
  end.

Fixpoint bytes_of_sextets (l : list Z) : list Z :=
  match l with
  | w :: x :: y :: z :: t =>
      [w * 4 + x / 16; (x mod 16) * 16 + y / 4; (y mod 4) * 64 + z]
        ++ bytes_of_sextets t
  | [w; x; y] => [w * 4 + x / 16; (x mod 16) * 16 + y / 4]
  | [w; x] => [w * 4 + x / 16]
  | _ => []
  end.

(** [Buffer.from(str, 'base64')] on a string: a last group of two or
    three sextets gives one or two octets. *)
Definition base64_decode (s : jsstring) : list Z :=
  bytes_of_sextets (sextets s).

(** ** JSON.stringify *)

Definition hex4 (digit : Z -> Z) (c : Z) : jsstring :=
  [digit (c / 4096 mod 16); digit (c / 256 mod 16);
   digit (c / 16 mod 16); digit (c mod 16)].

(** QuoteJSONString, one code point at a time (ECMAScript 2019: a lone
    surrogate is written as an escape). *)
Definition QuoteJSONChar (cp : Z) : jsstring :=
  if cp =? 8 then js "\b"
  else if cp =? 9 then js "\t"
  else if cp =? 10 then js "\n"
  else if cp =? 12 then js "\f"
  else if cp =? 13 then js "\r"
  else if cp =? 34 then [92; 34]
  else if cp =? 92 then [92; 92]
  else if (cp <? 32) || is_surrogate cp then [92; 117] ++ hex4 hex_lower cp
  else utf16_cp cp.

Definition QuoteJSONString (s : jsstring) : jsstring :=
  [34] ++ flat_map QuoteJSONChar (StringToCodePoints s) ++ [34].

Fixpoint join_comma (parts : list jsstring) : jsstring :=
  match parts with
  | [] => []
  | [p] => p
  | p :: rest => p ++ [44] ++ join_comma rest
  end.

Fixpoint JSON_stringify (v : JSON) : jsstring :=
  match v with
  | JNull => js "null"
  | JBool true => js "true"
  | JBool false => js "false"
  | JNumber lexeme => lexeme
  | JString s => QuoteJSONString s
  | JArray l => [91] ++ join_comma (map JSON_stringify l) ++ [93]
  | JObject ms =>
      [123]
        ++ join_comma
             (map (fun m => QuoteJSONString (fst m) ++ [58]
                              ++ JSON_stringify (snd m)) ms)
        ++ [125]
  end.

(** ** JSON.parse *)

Definition is_ws (c : Z) : bool :=
  (c =? 9) || (c =? 10) || (c =? 13) || (c =? 32).

Fixpoint skip_ws (s : jsstring) : jsstring :=
  match s with
  | c :: t => if is_ws c then skip_ws t else s
  | [] => []
  end.

Definition simple_escape (e : Z) : option Z :=
  if e =? 34 then Some 34
  else if e =? 92 then Some 92
  else if e =? 47 then Some 47
  else if e =? 98 then Some 8
  else if e =? 102 then Some 12
  else if e =? 110 then Some 10
  else if e =? 114 then Some 13
  else if e =? 116 then Some 9
  else None.

Definition unhex4 (h3 h2 h1 h0 : Z) : option Z :=
  match unhex h3, unhex h2, unhex h1, unhex h0 with
  | Some a, Some b, Some c, Some d => Some (((a * 16 + b) * 16 + c) * 16 + d)
  | _, _, _, _ => None
  end.

Definition prepend (c : Z) (r : option (jsstring * jsstring))
  : option (jsstring * jsstring) :=
  match r with
  | Some (str, rest) => Some (c :: str, rest)
  | None => None
  end.

(** The characters of a string literal, after its opening quote: the
    string and the text that follows the closing quote. *)
Fixpoint parse_chars (s : jsstring) : option (jsstring * jsstring) :=
  match s with
  | [] => None
  | c :: t =>
      if c =? 34 then Some ([], t)
      else if c =? 92 then
        match t with
        | [] => None
        | e :: t1 =>
            if e =? 117 then
              match t1 with
              | h3 :: h2 :: h1 :: h0 :: t2 =>
                  match unhex4 h3 h2 h1 h0 with
                  | Some u => prepend u (parse_chars t2)
                  | None => None
                  end
              | _ => None
              end
            else
              match simple_escape e with
              | Some u => prepend u (parse_chars t1)
              | None => None
              end
        end
      else if c <? 32 then None
      else prepend c (parse_chars t)
  end.

Definition is_digit (c : Z) : bool := (48 <=? c) && (c <=? 57).

Fixpoint span_digits (s : jsstring) : jsstring * jsstring :=
  match s with
  | c :: t =>
      if is_digit c then let (ds, r) := span_digits t in (c :: ds, r)
      else ([], s)
  | [] => ([], [])
  end.

(** A number literal: an optional minus, an integer part with no leading
    zero, an optional fraction and an optional exponent. *)
Definition parse_number (s : jsstring) : option (jsstring * jsstring) :=
  let (sign, s1) :=
    match s with
    | c :: t => if c =? 45 then ([45], t) else ([], s)
    | [] => ([], s)
    end in
  let (int, s2) := span_digits s1 in
  match int with
  | [] => None
  | d :: ds =>
      if (d =? 48) && negb (match ds with [] => true | _ => false end)
      then Some (sign ++ [48], ds ++ s2)
      else
        let (frac, s3) :=
          match s2 with
          | c :: t =>
              if c =? 46 then
                let (fs, r) := span_digits t in
                match fs with
                | [] => ([], s2)
                | _ => (46 :: fs, r)
                end
              else ([], s2)
          | [] => ([], s2)
          end in
        let (ex, s4) :=
          match s3 with
          | c :: t =>
              if (c =? 101) || (c =? 69) then
                let (sg, t') :=
                  match t with
                  | g :: u => if (g =? 43) || (g =? 45) then ([g], u) else ([], t)
                  | [] => ([], t)
                  end in
                let (es, r) := span_digits t' in
                match es with
                | [] => ([], s3)
                | _ => (c :: sg ++ es, r)
                end
              else ([], s3)
          | [] => ([], s3)
          end in
        Some (sign ++ int ++ frac ++ ex, s4)
  end.

Fixpoint strip_prefix (p s : jsstring) : option jsstring :=
  match p, s with
  | [], _ => Some s
  | x :: p', y :: s' => if x =? y then strip_prefix p' s' else None
  | _ :: _, [] => None
  end.

(** A value, the members of an object and the elements of an array.  The
    fuel bounds the nesting and the number of members read; the length of
    the text is always enough, each step taking at least one character
    (lemma [JSON_parse_fuel_enough]). *)
Fixpoint parse_value (fuel : nat) (s : jsstring) : option (JSON * jsstring) :=
  match fuel with
  | O => None
  | S f =>
      match skip_ws s with
      | [] => None
      | c :: t =>
          if c =? 34 then
            match parse_chars t with
            | Some (str, r) => Some (JString str, r)
            | None => None
            end
          else if c =? 123 then
            match skip_ws t with
            | d :: r =>
                if d =? 125 then Some (JObject [], r)
                else
                  match parse_members f t with
                  | Some (ms, r') => Some (JObject ms, r')
                  | None => None
                  end
            | [] => None
            end
          else if c =? 91 then
            match skip_ws t with
            | d :: r =>
                if d =? 93 then Some (JArray [], r)
                else
                  match parse_elements f t with
                  | Some (vs, r') => Some (JArray vs, r')
                  | None => None
                  end
            | [] => None
            end
          else
            match strip_prefix (js "null") (c :: t) with
            | Some r => Some (JNull, r)
            | None =>
            match strip_prefix (js "true") (c :: t) with
            | Some r => Some (JBool true, r)
            | None =>
            match strip_prefix (js "false") (c :: t) with
            | Some r => Some (JBool false, r)
            | None =>
            match parse_number (c :: t) with
            | Some (lexeme, r) => Some (JNumber lexeme, r)
            | None => None
            end end end end
      end
  end

with parse_members (fuel : nat) (s : jsstring)
  : option (list (jsstring * JSON) * jsstring) :=
  match fuel with
  | O => None
  | S f =>
      match skip_ws s with
      | q :: t =>
          if q =? 34 then
            match parse_chars t with
            | Some (key, r) =>
                match skip_ws r with
                | colon :: r1 =>
                    if colon =? 58 then
                      match parse_value f r1 with
                      | Some (v, r2) =>
                          match skip_ws r2 with
                          | d :: r3 =>
                              if d =? 125 then Some ([(key, v)], r3)
                              else if d =? 44 then
                                match parse_members f r3 with
                                | Some (ms, r4) => Some ((key, v) :: ms, r4)
                                | None => None
                                end
                              else None
                          | [] => None
                          end
                      | None => None
                      end
                    else None
                | [] => None
                end
            | None => None
            end
          else None
      | [] => None
      end
  end

with parse_elements (fuel : nat) (s : jsstring)
  : option (list JSON * jsstring) :=
  match fuel with
  | O => None
  | S f =>
      match parse_value f s with
      | Some (v, r) =>
          match skip_ws r with
          | d :: r1 =>
              if d =? 93 then Some ([v], r1)
              else if d =? 44 then
                match parse_elements f r1 with
                | Some (vs, r2) => Some (v :: vs, r2)
                | None => None
                end
              else None
          | [] => None
          end
      | None => None
      end
  end.

(** ** Exceptions and outcomes *)

Inductive exn :=
| Error (message : string)      (* [new Error(message)] thrown by this program *)
| TypeError
| SyntaxError
| URIError
| Rejected (reason : string).   (* whatever a collaborator throws *)

Inductive outcome (A : Type) :=
| Return (a : A)
| Throw (e : exn).
Arguments Return {A} a.
Arguments Throw {A} e.

(** [JSON.parse(text)]: one value, then only white space. *)
Definition JSON_parse (text : jsstring) : outcome JSON :=
  match parse_value (S (List.length text)) text with
  | Some (v, r) =>
      match skip_ws r with
      | [] => Return v
      | _ :: _ => Throw SyntaxError
      end
  | None => Throw SyntaxError
  end.

(** ToString on what this program passes to [JSON.parse]: a string or
    [undefined]. *)
Definition ToString (v : option jsstring) : jsstring :=
  match v with
  | Some s => s
  | None => js "undefined"
  end.

Fixpoint last_member (k : jsstring) (ms : list (jsstring * JSON)) : jsval :=
  match ms with
  | [] => undefined
  | (k', v) :: rest =>
      match last_member k rest with
      | Some v' => Some v'
      | None => if str_eqb k k' then Some v else undefined
      end
  end.

(** Reading property [k] of a parsed value, for the names this program
    reads ([nonce], [state], [route]), which no prototype defines: a
    duplicated key holds its last value, a primitive or an array has no
    such property, and [null] has no properties at all. *)
Definition Get (v : JSON) (k : jsstring) : outcome jsval :=
  match v with
  | JNull => Throw TypeError
  | JObject ms => Return (last_member k ms)
  | _ => Return undefined
  end.

(** ** encodeURIComponent and decodeURIComponent *)

Definition is_alnum (c : Z) : bool :=
  in_range 48 57 c || in_range 65 90 c || in_range 97 122 c.

(** Letters, digits and [- _ . ! ~ * ' ( )] are left as they are. *)
Definition uri_unreserved (c : Z) : bool :=
  is_alnum c
  || (c =? 45) || (c =? 95) || (c =? 46) || (c =? 33) || (c =? 126)
  || (c =? 42) || (c =? 39) || (c =? 40) || (c =? 41).

Definition percent (b : Z) : jsstring :=
  [37; hex_upper (b / 16); hex_upper (b mod 16)].

Fixpoint encode_code_points (cps : list Z) : outcome jsstring :=
  match cps with
  | [] => Return []
  | cp :: t =>
      if uri_unreserved cp then
        match encode_code_points t with
        | Return r => Return (cp :: r)
        | Throw e => Throw e
        end
      else if is_surrogate cp then Throw URIError
      else
        match encode_code_points t with
        | Return r => Return (flat_map percent (utf8_cp cp) ++ r)
        | Throw e => Throw e
        end
  end.

Definition encodeURIComponent (s : jsstring) : outcome jsstring :=
  encode_code_points (StringToCodePoints s).

Inductive uri_item :=
| Lit (c : Z)
| Oct (b : Z).

Definition cons_item (i : uri_item) (r : option (list uri_item))
  : option (list uri_item) :=
  match r with
  | Some l => Some (i :: l)
  | None => None
  end.

(** Every [%] must be followed by two hexadecimal digits. *)
Fixpoint uri_items (s : jsstring) : option (list uri_item) :=
  match s with
  | [] => Some []
  | c :: t =>
      if c =? 37 then
        match t with
        | h :: l :: t' =>
            match unhex h, unhex l with
            | Some a, Some b => cons_item (Oct (a * 16 + b)) (uri_items t')
            | _, _ => None
            end
        | _ => None
        end
      else cons_item (Lit c) (uri_items t)
  end.

Definition app_some (p : jsstring) (r : option jsstring) : option jsstring :=
  match r with
  | Some s => Some (p ++ s)
  | None => None
  end.

(** The escaped octets must be the UTF-8 encoding of code points. *)
Fixpoint uri_assemble (l : list uri_item) : option jsstring :=
  match l with
  | [] => Some []
  | Lit c :: t => app_some [c] (uri_assemble t)
  | Oct b0 :: t =>
      if b0 <? 0x80 then app_some [b0] (uri_assemble t)
      else if in_range 0xC2 0xDF b0 then
        match t with
        | Oct b1 :: t1 =>
            if in_range 0x80 0xBF b1
            then app_some [(b0 - 0xC0) * 64 + (b1 - 0x80)] (uri_assemble t1)
            else None
        | _ => None
        end
      else if in_range 0xE0 0xEF b0 then
        let lower := if b0 =? 0xE0 then 0xA0 else 0x80 in
        let upper := if b0 =? 0xED then 0x9F else 0xBF in
        match t with
        | Oct b1 :: Oct b2 :: t2 =>
            if in_range lower upper b1 && in_range 0x80 0xBF b2
            then app_some [(b0 - 0xE0) * 4096 + (b1 - 0x80) * 64 + (b2 - 0x80)]
                          (uri_assemble t2)
            else None
        | _ => None
        end
      else if in_range 0xF0 0xF4 b0 then
        let lower := if b0 =? 0xF0 then 0x90 else 0x80 in
        let upper := if b0 =? 0xF4 then 0x8F else 0xBF in
        match t with
        | Oct b1 :: Oct b2 :: Oct b3 :: t3 =>
            if in_range lower upper b1 && in_range 0x80 0xBF b2
               && in_range 0x80 0xBF b3
            then app_some (utf16_cp ((b0 - 0xF0) * 262144 + (b1 - 0x80) * 4096
                                     + (b2 - 0x80) * 64 + (b3 - 0x80)))
                          (uri_assemble t3)
            else None
        | _ => None
        end
      else None
  end.

(** [None] stands for the [URIError] it throws. *)
Definition decodeURIComponent (s : jsstring) : option jsstring :=
  match uri_items s with
  | Some l => uri_assemble l
  | None => None
  end.

(** ** The cookie library *)

Inductive MaxAgeOption :=
| NumberMaxAge (n : Z)
| DateMaxAge (time : Z).        (* [new Date(time)] *)

Record CookieSerializeOptions := {
  secure : bool;
  path : option jsstring;
  maxAge : option MaxAgeOption;
  httpOnly : bool;
}.

(** A [Set-Cookie] header, by its parts.  [cookie_value] is the value
    handed to the library, which percent-encodes it on the wire;
    [Max_Age] is the number after [Max-Age=], which counts seconds
    (RFC 6265, and the [maxAge] option of the library). *)
Record SetCookie := {
  cookie_name : jsstring;
  cookie_value : jsstring;
  Max_Age : option Z;
  Path : option jsstring;
  HttpOnly : bool;
  Secure : bool;
}.

(** [opt.maxAge - 0]: a date is its time value. *)
Definition maxAge_number (m : MaxAgeOption) : Z :=
  match m with
  | NumberMaxAge n => n
  | DateMaxAge time => time
  end.

(** [cookie.serialize(name, val, options)]: [; Max-Age=] is followed by
    [Math.floor(opt.maxAge - 0)], [; Path=] by [opt.path] when it is not
    empty, [; HttpOnly] and [; Secure] are written when the options are
    true. *)
Definition cookie_serialize (name val : jsstring)
           (opt : CookieSerializeOptions) : SetCookie :=
  {| cookie_name := name;
     cookie_value := val;
     Max_Age := option_map maxAge_number (maxAge opt);
     Path := match path opt with
             | Some [] => None
             | p => p
             end;
     HttpOnly := httpOnly opt;
     Secure := secure opt |}.

(** [str.split(/; */)] *)
Fixpoint split_pairs (after_semicolon : bool) (cur : jsstring) (s : jsstring)
  : list jsstring :=
  match s with
  | [] => [rev cur]
  | c :: t =>
      if c =? 59 then rev cur :: split_pairs true [] t
      else if after_semicolon && (c =? 32) then split_pairs true cur t
      else split_pairs false (c :: cur) t
  end.

(** White space and line terminators, as [String.prototype.trim] sees them. *)
Definition is_js_space (c : Z) : bool :=
  in_range 9 13 c || (c =? 32) || (c =? 160) || (c =? 0x1680)
  || in_range 0x2000 0x200A c || (c =? 0x2028) || (c =? 0x2029)
  || (c =? 0x202F) || (c =? 0x205F) || (c =? 0x3000) || (c =? 0xFEFF).

Fixpoint trim_start (s : jsstring) : jsstring :=
  match s with
  | c :: t => if is_js_space c then trim_start t else s
  | [] => []
  end.

Definition trim (s : jsstring) : jsstring :=
  rev (trim_start (rev (trim_start s))).

(** [pair.indexOf('=')]: the text before the first [=] and the text
    after it. *)
Fixpoint split_eq (s : jsstring) : option (jsstring * jsstring) :=
  match s with
  | [] => None
  | c :: t =>
      if c =? 61 then Some ([], t)
      else
        match split_eq t with
        | Some (k, v) => Some (c :: k, v)
        | None => None
        end
  end.

(** [val.slice(1, -1)] *)
Definition unquote (v : jsstring) : jsstring :=
  match v with
  | c :: t => if c =? 34 then removelast t else v
  | [] => []
  end.

Definition tryDecode (v : jsstring) : jsstring :=
  match decodeURIComponent v with
  | Some d => d
  | None => v
  end.

(** The names an empty object inherits from [Object.prototype].  The
    library assigns a key only while [obj[key]] is undefined, so a pair
    of one of these names is never kept. *)
Definition Object_prototype_names : list jsstring :=
  map js ["constructor"; "__defineGetter__"; "__defineSetter__";
          "hasOwnProperty"; "__lookupGetter__"; "__lookupSetter__";
          "isPrototypeOf"; "propertyIsEnumerable"; "toString"; "valueOf";
          "__proto__"; "toLocaleString"]%string.

Definition inherited (key : jsstring) : bool :=
  existsb (str_eqb key) Object_prototype_names.

Definition parse_pair (pair : jsstring) : option (jsstring * jsstring) :=
  match split_eq pair with
  | Some (k, v) =>
      let key := trim k in
      if inherited key then None
      else Some (key, tryDecode (unquote (trim v)))
  | None => None
  end.

Fixpoint filter_map {A B : Type} (f : A -> option B) (l : list A) : list B :=
  match l with
  | [] => []
  | x :: t =>
      match f x with
      | Some y => y :: filter_map f t
      | None => filter_map f t
      end
  end.

(** [cookie.parse(str)]: the [key=value] pairs of a [Cookie] header, in
    order, but for those whose name the object inherits. *)
Definition cookie_parse (str : jsstring) : list (jsstring * jsstring) :=
  filter_map parse_pair (split_pairs false [] str).

(** [cookie.parse(str)[name]]: the first pair of that name is the one the
    library keeps. *)
Fixpoint cookie_get (pairs : list (jsstring * jsstring)) (name : jsstring)
  : option jsstring :=
  match pairs with
  | [] => None
  | (k, v) :: rest => if str_eqb k name then Some v else cookie_get rest name
  end.

(** ** The world, and the monad of handlers *)

(** Calls that reach the identity provider. *)
Inductive ProviderCall :=
| Discover (issuer_url : jsstring)
| Callback (redirect_uri : jsstring).

Record World := {
  clock : Z;                      (* [Date.now()], in milliseconds *)
  entropy : nat -> Z;             (* the operating system's random octets *)
  drawn : nat;                    (* how many of them were consumed *)
  calls : list ProviderCall;      (* calls made so far, oldest first *)
}.

Definition M (A : Type) : Type := World -> outcome A * World.

Definition ret {A} (a : A) : M A := fun w => (Return a, w).
Definition throw {A} (e : exn) : M A := fun w => (Throw e, w).
Definition bind {A B} (m : M A) (k : A -> M B) : M B :=
  fun w =>
    match m w with
    | (Return a, w') => k a w'
    | (Throw e, w') => (Throw e, w')
    end.
Definition lift {A} (o : outcome A) : M A := fun w => (o, w).

Notation "x <- m ;; k" := (bind m (fun x => k))
  (at level 61, m at next level, right associativity).

Definition Date_now : M Z := fun w => (Return (clock w), w).

Definition consume (n : nat) (w : World) : World :=
  {| clock := clock w; entropy := entropy w;
     drawn := (drawn w + n)%nat; calls := calls w |}.

Definition logged (c : ProviderCall) (w : World) : World :=
  {| clock := clock w; entropy := entropy w;
     drawn := drawn w; calls := calls w ++ [c] |}.

(** [crypto.randomBytes(n)] *)
Definition randomBytes (n : nat) : M (list Z) :=
  fun w =>
    (Return (map (fun i => entropy w (drawn w + i)%nat mod 256) (seq 0 n)),
     consume n w).

Definition record_call (c : ProviderCall) : M unit :=
  fun w => (Return tt, logged c w).

(** [generators.nonce()] of openid-client: 32 random octets in unpadded
    base64url. *)
Definition generators_nonce : M jsstring :=
  bs <- randomBytes 32 ;;
  ret (base64_encode base64url_alphabet false bs).

(** ** Requests and responses *)

Record Headers := {
  referer : option jsstring;
  cookie : option jsstring;
  host : option jsstring;
}.

Record Event := {
  headers : option Headers;
  body : option jsstring;
}.

Record ResponseHeaders := {
  Location : jsval;
  Cache_Control : jsstring;
  Set_Cookie : option SetCookie;
}.

Record Response := {
  statusCode : Z;
  response_headers : ResponseHeaders;
  multiValueHeaders : list SetCookie;   (* the entries under [Set-Cookie] *)
}.

(** Every [Set-Cookie] a response carries. *)
Definition set_cookies (r : Response) : list SetCookie :=
  match Set_Cookie (response_headers r) with
  | Some c => c :: multiValueHeaders r
  | None => multiValueHeaders r
  end.

(** ** Configuration and collaborators *)

(** [process.env] *)
Record Env := {
  CROSSID_DOMAIN : jsstring;
  CROSSID_CLIENT_ID : jsstring;
  URL : jsstring;
  TOKEN_SECRET : jsstring;
  NETLIFY_DEV : option jsstring;
}.

Record ClientMetadata := {
  client_id : jsstring;
  redirect_uris : list jsstring;
  response_types : list jsstring;
}.

Record AuthorizationParameters := {
  scope : jsstring;
  response_mode : jsstring;
  auth_nonce : jsstring;
  auth_state : jsstring;
}.

Record IncomingRequest := {
  method : jsstring;
  req_body : option jsstring;
  url : option jsstring;
}.

Record Checks := {
  check_nonce : jsval;
  check_state : jsval;
}.

(** The claims of the identity token this program reads. *)
Record Claims := {
  aud : jsval;
  sub : jsval;
  groups : jsval;
}.

Record Authorization := { roles : jsval }.
Record AppMetadata := { authorization : Authorization }.

Record TokenPayload := {
  exp : Z;
  iat : Z;
  updated_at : Z;
  token_aud : jsval;
  token_sub : jsval;
  app_metadata : AppMetadata;
}.

Record SignOptions := {
  algorithm : jsstring;
  header_typ : jsstring;
}.

(** The interface of openid-client ([Issuer.discover], the constructor
    [new issuer.Client(metadata)], the methods [authorizationUrl],
    [callbackParams] and [callback] of a client, and [claims] of a token
    set) and of jose ([JWT.sign], whose result is the compact token).
    Every one of these calls may throw, and the source guards none of
    them.  [Buffer_from_object] is what [Buffer.from] makes of an array
    or an object, which this development leaves open. *)
Record Collaborators := {
  Issuer : Type;
  Client : Type;
  CallbackParameters : Type;
  TokenSet : Type;
  Issuer_discover : jsstring -> outcome Issuer;
  Issuer_Client : Issuer -> ClientMetadata -> outcome Client;
  authorizationUrl : Client -> AuthorizationParameters -> outcome jsstring;
  callbackParams : Client -> IncomingRequest -> outcome CallbackParameters;
  callback :
    Client -> jsstring -> CallbackParameters -> Checks -> outcome TokenSet;
  claims : TokenSet -> outcome Claims;
  JWT_sign : TokenPayload -> jsstring -> SignOptions -> outcome jsstring;
  Buffer_from_object : JSON -> outcome (list Z);
}.

(** [value || fallback] on a string that may be [undefined]: the empty
    string is falsy as well. *)
Definition or_default (value : option jsstring) (fallback : jsstring)
  : jsstring :=
  match value with
  | None | Some [] => fallback
  | Some v => v
  end.

(** ** AuthUtils.js *)

Definition NETLIFY_JWT_EXPIRATION_SECONDS : Z := 14 * 24 * 3600.
Definition LOGIN_COOKIE_MAX_AGE : Z := 30 * 60 * 1000.
Definition CROSSID_LOGIN_COOKIE_NAME : jsstring := js "crossid_login_cookie".
Definition NETLIFY_COOKIE_NAME : jsstring := js "nf_jwt".

(** [Buffer.from(state, 'base64')] *)
Definition Buffer_from_base64 (lib : Collaborators) (v : jsval)
  : outcome (list Z) :=
  match v with
  | Some (JString s) => Return (base64_decode s)
  | Some (JArray l) => Buffer_from_object lib (JArray l)
  | Some (JObject ms) => Buffer_from_object lib (JObject ms)
  | _ => Throw TypeError
  end.

Section AuthUtils.

Variable env : Env.
Variable lib : Collaborators.

Definition isRunningLocally : bool :=
  match NETLIFY_DEV env with
  | Some v => str_eqb v (js "true")
  | None => false
  end.

Definition callback_uri : jsstring :=
  URL env ++ js "/.netlify/functions/callback".

Definition issuer_url : jsstring := js "https://" ++ CROSSID_DOMAIN env.

Definition metadata : ClientMetadata :=
  {| client_id := CROSSID_CLIENT_ID env;
     redirect_uris := [callback_uri];
     response_types := [js "id_token"] |}.

Definition getOpenIDClient : M (Client lib) :=
  _ <- record_call (Discover issuer_url) ;;
  issuer <- lift (Issuer_discover lib issuer_url) ;;
  lift (Issuer_Client lib issuer metadata).

Definition generateNetlifyJWT (tokenData : Claims) : M jsstring :=
  now <- Date_now ;;
  (* Math.floor(Date.now() / 1000): the division of Z rounds down *)
  let iat := now / 1000 in
  (* Math.floor of an integer *)
  let exp := iat + NETLIFY_JWT_EXPIRATION_SECONDS in
  let tokenPayload :=
    {| exp := exp;
       iat := iat;
       updated_at := iat;
       token_aud := aud tokenData;
       token_sub := sub tokenData;
       app_metadata :=
         {| authorization := {| roles := groups tokenData |} |} |} in
  lift (JWT_sign lib tokenPayload (TOKEN_SECRET env)
          {| algorithm := js "HS256"; header_typ := js "JWT" |}).

Definition generateCrossIdLoginCookie (nonce encodedStateStr : jsstring)
  : SetCookie :=
  let cookieData :=
    JObject [(js "nonce", JString nonce);
             (js "state", JString encodedStateStr)] in
  cookie_serialize CROSSID_LOGIN_COOKIE_NAME (JSON_stringify cookieData)
    {| secure := negb isRunningLocally;
       path := Some (js "/");
       maxAge := Some (NumberMaxAge LOGIN_COOKIE_MAX_AGE);
       httpOnly := true |}.

Definition generateEncodedStateString (route : option jsstring)
  : M jsstring :=
  nonce <- generators_nonce ;;
  let state :=
    JObject [(js "route", JString (or_default route (js "/")));
             (js "nonce", JString nonce)] in
  let stateBuffer := Buffer_from_utf8 (JSON_stringify state) in
  ret (Buffer_toString_base64 stateBuffer).

Definition generateCrossIdLoginResetCookie : SetCookie :=
  cookie_serialize CROSSID_LOGIN_COOKIE_NAME []
    {| secure := negb isRunningLocally;
       httpOnly := true;
       path := Some (js "/");
       maxAge := Some (DateMaxAge 0) |}.

Definition generateLogoutCookie : SetCookie :=
  cookie_serialize NETLIFY_COOKIE_NAME []
    {| secure := negb isRunningLocally;
       path := Some (js "/");
       maxAge := Some (DateMaxAge 0);
       httpOnly := true |}.

Definition generateNetlifyCookieFromCrossIdToken (tokenData : Claims)
  : M SetCookie :=
  netlifyToken <- generateNetlifyJWT tokenData ;;
  ret (cookie_serialize NETLIFY_COOKIE_NAME netlifyToken
         {| secure := negb isRunningLocally;
            path := Some (js "/");
            maxAge := Some (NumberMaxAge NETLIFY_JWT_EXPIRATION_SECONDS);
            httpOnly := false |}).

Definition generateCrossIdLogoutUrl : outcome jsstring :=
  let crossidDomainLogout :=
    js "https://" ++ CROSSID_DOMAIN env ++ js "/v2/logout" in
  match encodeURIComponent (URL env) with
  | Throw e => Throw e
  | Return encoded =>
      let urlReturnTo := js "returnTo=" ++ encoded in
      let urlClientId := js "client_id=" ++ CROSSID_CLIENT_ID env in
      Return (crossidDomainLogout ++ js "?" ++ urlReturnTo ++ js "&"
                ++ urlClientId)
  end.

Definition handleLogin (event : option Event) : M Response :=
  match event with
  | None => throw (Error "Malformed event")
  | Some ev =>
      match headers ev with
      | None => throw (Error "Malformed event")
      | Some hs =>
          openIDClient <- getOpenIDClient ;;
          let referer := referer hs in
          nonce <- generators_nonce ;;
          state <- generateEncodedStateString referer ;;
          authRedirectURL <-
            lift (authorizationUrl lib openIDClient
                    {| scope := js "openid email profile";
                       response_mode := js "form_post";
                       auth_nonce := nonce;
                       auth_state := state |}) ;;
          ret {| statusCode := 302;
                 response_headers :=
                   {| Location := Some (JString authRedirectURL);
                      Cache_Control := js "no-cache";
                      Set_Cookie :=
                        Some (generateCrossIdLoginCookie nonce state) |};
                 multiValueHeaders := [] |}
      end
  end.

(** Lines 163 and 164 of the source: the state is read as base64, its
    octets as UTF-8 and the text as JSON. *)
Definition decodeState (state : jsval) : outcome JSON :=
  match Buffer_from_base64 lib state with
  | Throw e => Throw e
  | Return buff => JSON_parse (Buffer_toString_utf8 buff)
  end.

Definition handleCallback (event : option Event) : M Response :=
  match event with
  | None => throw (Error "Invalid request")
  | Some ev =>
      match headers ev with
      | None => throw (Error "Invalid request")
      | Some hs =>
          match cookie hs with
          | None | Some [] => throw (Error "Invalid request")
          | Some cookie_header =>
              openIDClient <- getOpenIDClient ;;
              let loginCookie :=
                cookie_get (cookie_parse cookie_header)
                           CROSSID_LOGIN_COOKIE_NAME in
              parsed <- lift (JSON_parse (ToString loginCookie)) ;;
              nonce <- lift (Get parsed (js "nonce")) ;;
              state <- lift (Get parsed (js "state")) ;;
              let req :=
                {| method := js "POST";
                   req_body := body ev;
                   url := host hs |} in
              params <- lift (callbackParams lib openIDClient req) ;;
              _ <- record_call (Callback callback_uri) ;;
              tokenSet <- lift (callback lib openIDClient
                                  callback_uri params
                                  {| check_nonce := nonce;
                                     check_state := state |}) ;;
              tokenData <- lift (claims lib tokenSet) ;;
              netlifyCookie <-
                generateNetlifyCookieFromCrossIdToken tokenData ;;
              let crossidLoginCookie := generateCrossIdLoginResetCookie in
              decodedState <- lift (decodeState state) ;;
              route <- lift (Get decodedState (js "route")) ;;
              ret {| statusCode := 302;
                     response_headers :=
                       {| Location := route;
                          Cache_Control := js "no-cache";
                          Set_Cookie := None |};
                     multiValueHeaders :=
                       [netlifyCookie; crossidLoginCookie] |}
          end
      end
  end.

Definition handleLogout : M Response :=
  location <- lift generateCrossIdLogoutUrl ;;
  ret {| statusCode := 302;
         response_headers :=
           {| Location := Some (JString location);
              Cache_Control := js "no-cache";
              Set_Cookie := Some generateLogoutCookie |};
         multiValueHeaders := [] |}.

End AuthUtils.

(** The world once discovery and the callback verification were called. *)
Definition after_callback (env : Env) (w : World) : World :=
  logged (Callback (callback_uri env)) (logged (Discover (issuer_url env)) w).

(** What every cookie of this program is to satisfy: it is scoped to the
    whole site and secure unless the site runs locally. *)
Definition scoped_and_secured (env : Env) (c : SetCookie) : Prop :=
  Path c = Some (js "/") /\ Secure c = negb (isRunningLocally env).

(** A JavaScript call passes its arguments to a function that declares
    none: [handleLogout] never looks at the event it is invoked with. *)
Definition handleLogout_invoked (env : Env) (event : option Event)
  : M Response :=
  handleLogout env.

(** ** Predicates of the proofs *)

(** [all_from P n c]: [P] holds of the [n] integers from [c] on. *)
Fixpoint all_from (P : Z -> bool) (n : nat) (c : Z) : bool :=
  match n with
  | O => true
  | S k => if P c then all_from P k (c + 1) else false
  end.

(** A code point of Unicode. *)
Definition code_point (cp : Z) : Prop := 0 <= cp < 0x110000.

Definition head_not_low (s : jsstring) : Prop :=
  match s with
  | [] => True
  | c :: _ => is_low c = false
  end.

(** A valid string with no lone surrogate that does not start in the
    middle of a pair: such texts can be put one after the other. *)
Definition sound (s : jsstring) : Prop :=
  valid_string s /\ well_formed s /\ head_not_low s.

Definition ascii_string (s : jsstring) : Prop :=
  Forall (fun c => 0 <= c < 128) s.

(** What one more unit of fuel keeps, for the three parsers at once: a
    parse that succeeds consumes text, and succeeds with any fuel that is
    at least the number of characters consumed. *)
Definition adequate {A} (parse : nat -> jsstring -> option (A * jsstring))
           (f : nat) : Prop :=
  forall s v r,
    parse f s = Some (v, r) ->
    (List.length r < List.length s)%nat
    /\ forall f', (List.length s - List.length r <= f')%nat ->
                  parse f' s = Some (v, r).

(** ** Fixtures for the scenarios *)

Definition example_env : Env :=
  {| CROSSID_DOMAIN := js "acme.crossid.io";
     CROSSID_CLIENT_ID := js "client-1";
     URL := js "https://app.example";
     TOKEN_SECRET := js "s3cret";
     NETLIFY_DEV := None |}.

Definition example_claims : Claims :=
  {| aud := Some (JString (js "A"));
     sub := Some (JString (js "S"));
     groups := Some (JArray [JString (js "g1"); JString (js "g2")]) |}.

(** An identity provider that accepts every callback that has a body.
    Its client constructor refuses an empty [client_id] and its signer an
    empty secret, as the libraries do. *)
Definition accepting_provider : Collaborators :=
  {| Issuer := jsstring;
     Client := jsstring * ClientMetadata;
     CallbackParameters := jsstring;
     TokenSet := Claims;
     Issuer_discover := fun issuer_url => Return issuer_url;
     Issuer_Client :=
       fun issuer meta =>
         match client_id meta with
         | [] => Throw TypeError
         | _ :: _ => Return (issuer, meta)
         end;
     authorizationUrl :=
       fun client p =>
         Return (fst client ++ js "/oauth2/auth?client_id="
                   ++ client_id (snd client)
                   ++ js "&nonce=" ++ auth_nonce p
                   ++ js "&state=" ++ auth_state p);
     callbackParams :=
       fun _ req =>
         match req_body req with
         | Some b => Return b
         | None => Throw TypeError
         end;
     callback := fun _ _ _ _ => Return example_claims;
     claims := fun t => Return t;
     JWT_sign :=
       fun _ secret _ =>
         match secret with
         | [] => Throw TypeError
         | _ :: _ => Return (js "header.payload.signature")
         end;
     Buffer_from_object := fun _ => Throw TypeError |}.

(** The client [getOpenIDClient] makes with this provider. *)
Definition example_client : Client accepting_provider :=
  (js "https://acme.crossid.io",
   {| client_id := js "client-1";
      redirect_uris := [js "https://app.example/.netlify/functions/callback"];
      response_types := [js "id_token"] |}).

Definition example_world : World :=
  {| clock := 1600000000123;
     entropy := fun n => Z.of_nat n * 37 + 11;
     drawn := 0;
     calls := [] |}.

(** The [Cookie] header with which a browser returns a cookie. *)
Definition cookie_header (name value : jsstring) : jsstring :=
  name ++ js "="
    ++ match encodeURIComponent value with
       | Return v => v
       | Throw _ => []
       end.

Definition callback_event (state : jsstring) : Event :=
  {| headers :=
       Some {| referer := None;
               cookie :=
                 Some (cookie_header CROSSID_LOGIN_COOKIE_NAME
                         (JSON_stringify
                            (JObject [(js "nonce", JString (js "n-1"));
                                      (js "state", JString state)])));
               host := Some (js "app.example") |};
     body := Some (js "id_token=x.y.z") |}.

(** A state whose route is the empty string, and one that is not JSON. *)
Definition state_with_empty_route : jsstring :=
  Buffer_toString_base64
    (Buffer_from_utf8
       (JSON_stringify (JObject [(js "route", JString []);
                                 (js "nonce", JString (js "n-2"))]))).

Definition state_without_route : jsstring :=
  Buffer_toString_base64
    (Buffer_from_utf8
       (JSON_stringify (JObject [(js "nonce", JString (js "n-2"))]))).

Definition undecodable_state : jsstring := js "!".

(** The state a login with no [Referer] produces. *)
Definition default_state : jsstring :=
  match generateEncodedStateString None example_world with
  | (Return s, _) => s
  | (Throw _, _) => []
  end.

Definition login_event : Event :=
  {| headers :=
       Some {| referer := Some (js "https://app.example/dashboard");
               cookie := None;
               host := Some (js "app.example") |};
     body := None |}.

Definition event_without_login_cookie : Event :=
  {| headers :=
       Some {| referer := None;
               cookie := Some (js "theme=dark; lang=en");
               host := Some (js "app.example") |};
     body := Some (js "id_token=x.y.z") |}.

Definition event_without_headers : Event :=
  {| headers := None; body := None |}.

(** ** What a login issues *)

(** The nonce [generators.nonce()] makes in world [w]: the next 32 octets
    of the entropy, in unpadded base64url. *)
Definition drawn_nonce (w : World) : jsstring :=
  base64_encode base64url_alphabet false
    (map (fun i => entropy w (drawn w + i)%nat mod 256) (seq 0 32)).

(** The state [handleLogin] makes in world [w] for a referer: its own
    nonce is drawn after the nonce of the authorization request. *)
Definition issued_state (referer : option jsstring) (w : World) : jsstring :=
  Buffer_toString_base64
    (Buffer_from_utf8
       (JSON_stringify
          (JObject [(js "route", JString (or_default referer (js "/")));
                    (js "nonce", JString (drawn_nonce (consume 32 w)))]))).

(** The payload [generateNetlifyJWT] signs for claims at a clock. *)
Definition payload_of (tokenData : Claims) (clock_ms : Z) : TokenPayload :=
  {| exp := clock_ms / 1000 + NETLIFY_JWT_EXPIRATION_SECONDS;
     iat := clock_ms / 1000;
     updated_at := clock_ms / 1000;
     token_aud := aud tokenData;
     token_sub := sub tokenData;
     app_metadata :=
       {| authorization := {| roles := groups tokenData |} |} |}.

(** A state that [Buffer.from] refuses: it is no string, no array and no
    object. *)
Definition not_a_buffer_source (v : jsval) : Prop :=
  match v with
  | None | Some JNull | Some (JBool _) | Some (JNumber _) => True
  | Some (JString _) | Some (JArray _) | Some (JObject _) => False
  end.

(** A character that [encodeURIComponent] writes: one it leaves as it is,
    or the percent sign of an escape. *)
Definition uri_safe (c : Z) : Prop := uri_unreserved c = true \/ c = 37.

(** The response of a callback, for the signed token and the route read
    from the state. *)
Definition callback_answer (env : Env) (token : jsstring) (route : jsval)
  : Response :=
  {| statusCode := 302;
     response_headers :=
       {| Location := route;
          Cache_Control := js "no-cache";
          Set_Cookie := None |};
     multiValueHeaders :=
       [ {| cookie_name := NETLIFY_COOKIE_NAME;
            cookie_value := token;
            Max_Age := Some NETLIFY_JWT_EXPIRATION_SECONDS;
            Path := Some (js "/");
            HttpOnly := false;
            Secure := negb (isRunningLocally env) |};
         generateCrossIdLoginResetCookie env ] |}.

(** The steps of [handleCallback] once the guard is passed and the client
    is made, each with the way it can fail. *)
Inductive callback_run (env : Env) (lib : Collaborators) (ev : Event)
          (hs : Headers) (hdr : jsstring) (client : Client lib) (w : World)
  : outcome Response * World -> Prop :=
| run_bad_cookie e :
    JSON_parse (ToString (cookie_get (cookie_parse hdr)
                            CROSSID_LOGIN_COOKIE_NAME)) = Throw e ->
    callback_run env lib ev hs hdr client w
      (Throw e, logged (Discover (issuer_url env)) w)
| run_null_cookie :
    JSON_parse (ToString (cookie_get (cookie_parse hdr)
                            CROSSID_LOGIN_COOKIE_NAME)) = Return JNull ->
    callback_run env lib ev hs hdr client w
      (Throw TypeError, logged (Discover (issuer_url env)) w)
| run_bad_request parsed nonce state e :
    JSON_parse (ToString (cookie_get (cookie_parse hdr)
                            CROSSID_LOGIN_COOKIE_NAME)) = Return parsed ->
    Get parsed (js "nonce") = Return nonce ->
    Get parsed (js "state") = Return state ->
    callbackParams lib client
      {| method := js "POST"; req_body := body ev; url := host hs |}
    = Throw e ->
    callback_run env lib ev hs hdr client w
      (Throw e, logged (Discover (issuer_url env)) w)
| run_rejected parsed nonce state params e :
    JSON_parse (ToString (cookie_get (cookie_parse hdr)
                            CROSSID_LOGIN_COOKIE_NAME)) = Return parsed ->
    Get parsed (js "nonce") = Return nonce ->
    Get parsed (js "state") = Return state ->
    callbackParams lib client
      {| method := js "POST"; req_body := body ev; url := host hs |}
    = Return params ->
    callback lib client (callback_uri env) params
      {| check_nonce := nonce; check_state := state |}
    = Throw e ->
    callback_run env lib ev hs hdr client w (Throw e, after_callback env w)
| run_no_claims parsed nonce state params tokenSet e :
    JSON_parse (ToString (cookie_get (cookie_parse hdr)
                            CROSSID_LOGIN_COOKIE_NAME)) = Return parsed ->
    Get parsed (js "nonce") = Return nonce ->
    Get parsed (js "state") = Return state ->
    callbackParams lib client
      {| method := js "POST"; req_body := body ev; url := host hs |}
    = Return params ->
    callback lib client (callback_uri env) params
      {| check_nonce := nonce; check_state := state |}
    = Return tokenSet ->
    claims lib tokenSet = Throw e ->
    callback_run env lib ev hs hdr client w (Throw e, after_callback env w)
| run_unsigned parsed nonce state params tokenSet tokenData e :
    JSON_parse (ToString (cookie_get (cookie_parse hdr)
                            CROSSID_LOGIN_COOKIE_NAME)) = Return parsed ->
    Get parsed (js "nonce") = Return nonce ->
    Get parsed (js "state") = Return state ->
    callbackParams lib client
      {| method := js "POST"; req_body := body ev; url := host hs |}
    = Return params ->
    callback lib client (callback_uri env) params
      {| check_nonce := nonce; check_state := state |}
    = Return tokenSet ->
    claims lib tokenSet = Return tokenData ->
    JWT_sign lib (payload_of tokenData (clock w)) (TOKEN_SECRET env)
      {| algorithm := js "HS256"; header_typ := js "JWT" |}
    = Throw e ->
    callback_run env lib ev hs hdr client w (Throw e, after_callback env w)
| run_bad_state parsed nonce state params tokenSet tokenData token e :
    JSON_parse (ToString (cookie_get (cookie_parse hdr)
                            CROSSID_LOGIN_COOKIE_NAME)) = Return parsed ->
    Get parsed (js "nonce") = Return nonce ->
    Get parsed (js "state") = Return state ->
    callbackParams lib client
      {| method := js "POST"; req_body := body ev; url := host hs |}
    = Return params ->
    callback lib client (callback_uri env) params
      {| check_nonce := nonce; check_state := state |}
    = Return tokenSet ->
    claims lib tokenSet = Return tokenData ->
    JWT_sign lib (payload_of tokenData (clock w)) (TOKEN_SECRET env)
      {| algorithm := js "HS256"; header_typ := js "JWT" |}
    = Return token ->
    (decodeState lib state = Throw e
     \/ (decodeState lib state = Return JNull /\ e = TypeError)) ->
    callback_run env lib ev hs hdr client w (Throw e, after_callback env w)
| run_answer parsed nonce state params tokenSet tokenData token decoded
             route :
    JSON_parse (ToString (cookie_get (cookie_parse hdr)
                            CROSSID_LOGIN_COOKIE_NAME)) = Return parsed ->
    Get parsed (js "nonce") = Return nonce ->
    Get parsed (js "state") = Return state ->
    callbackParams lib client
      {| method := js "POST"; req_body := body ev; url := host hs |}
    = Return params ->
    callback lib client (callback_uri env) params
      {| check_nonce := nonce; check_state := state |}
    = Return tokenSet ->
    claims lib tokenSet = Return tokenData ->
    JWT_sign lib (payload_of tokenData (clock w)) (TOKEN_SECRET env)
      {| algorithm := js "HS256"; header_typ := js "JWT" |}
    = Return token ->
    decodeState lib state = Return decoded ->
    Get decoded (js "route") = Return route ->
    callback_run env lib ev hs hdr client w
      (Return (callback_answer env token route), after_callback env w).

(** What [encodeURIComponent] writes for one code point that is no
    surrogate. *)
Definition escape_code_point (cp : Z) : jsstring :=
  if uri_unreserved cp then [cp] else flat_map percent (utf8_cp cp).

(** The same, once its escapes are read. *)
Definition items_of_code_point (cp : Z) : list uri_item :=
  if uri_unreserved cp then [Lit cp] else map Oct (utf8_cp cp).

(** ** More fixtures *)

(** A provider whose discovery fails. *)
Definition unreachable_provider : Collaborators :=
  {| Issuer := jsstring;
     Client := jsstring * ClientMetadata;
     CallbackParameters := jsstring;
     TokenSet := Claims;
     Issuer_discover := fun _ => Throw (Rejected "getaddrinfo ENOTFOUND");
     Issuer_Client := Issuer_Client accepting_provider;
     authorizationUrl := authorizationUrl accepting_provider;
     callbackParams := callbackParams accepting_provider;
     callback := callback accepting_provider;
     claims := claims accepting_provider;
     JWT_sign := JWT_sign accepting_provider;
     Buffer_from_object := Buffer_from_object accepting_provider |}.

(** A provider that rejects every callback. *)
Definition rejecting_provider : Collaborators :=
  {| Issuer := jsstring;
     Client := jsstring * ClientMetadata;
     CallbackParameters := jsstring;
     TokenSet := Claims;
     Issuer_discover := Issuer_discover accepting_provider;
     Issuer_Client := Issuer_Client accepting_provider;
     authorizationUrl := authorizationUrl accepting_provider;
     callbackParams := callbackParams accepting_provider;
     callback := fun _ _ _ _ => Throw (Rejected "state mismatch");
     claims := claims accepting_provider;
     JWT_sign := JWT_sign accepting_provider;
     Buffer_from_object := Buffer_from_object accepting_provider |}.

(** A provider whose issuer has no authorization endpoint: its client
    cannot make an authorization URL. *)
Definition provider_without_endpoint : Collaborators :=
  {| Issuer := jsstring;
     Client := jsstring * ClientMetadata;
     CallbackParameters := jsstring;
     TokenSet := Claims;
     Issuer_discover := Issuer_discover accepting_provider;
     Issuer_Client := Issuer_Client accepting_provider;
     authorizationUrl := fun _ _ => Throw TypeError;
     callbackParams := callbackParams accepting_provider;
     callback := callback accepting_provider;
     claims := claims accepting_provider;
     JWT_sign := JWT_sign accepting_provider;
     Buffer_from_object := Buffer_from_object accepting_provider |}.

(** The configuration of the examples, with the secret left empty. *)
Definition env_without_secret : Env :=
  {| CROSSID_DOMAIN := CROSSID_DOMAIN example_env;
     CROSSID_CLIENT_ID := CROSSID_CLIENT_ID example_env;
     URL := URL example_env;
     TOKEN_SECRET := [];
     NETLIFY_DEV := NETLIFY_DEV example_env |}.

(** The configuration of the examples, with the client identifier left
    empty. *)
Definition env_without_client_id : Env :=
  {| CROSSID_DOMAIN := CROSSID_DOMAIN example_env;
     CROSSID_CLIENT_ID := [];
     URL := URL example_env;
     TOKEN_SECRET := TOKEN_SECRET example_env;
     NETLIFY_DEV := NETLIFY_DEV example_env |}.

(** The world two minutes after [example_world], once a login has run. *)
Definition later_world : World :=
  {| clock := 1600000120456;
     entropy := entropy example_world;
     drawn := 64;
     calls := [Discover (js "https://acme.crossid.io")] |}.

(** A callback with a given value of the login cookie and a given body. *)
Definition callback_event_with (login_cookie : jsstring)
           (body : option jsstring) : Event :=
  {| headers :=
       Some {| referer := None;
               cookie := Some (cookie_header CROSSID_LOGIN_COOKIE_NAME
                                 login_cookie);
               host := Some (js "app.example") |};
     body := body |}.

(** The callback of a browser that returns the cookie of a login. *)
Definition returning_event (login : Response) : Event :=
  match Set_Cookie (response_headers login) with
  | Some c =>
      {| headers :=
           Some {| referer := None;
                   cookie := Some (cookie_header (cookie_name c)
                                     (cookie_value c));
                   host := Some (js "app.example") |};
         body := Some (js "id_token=x.y.z") |}
  | None => event_without_headers
  end.

Definition example_login : Response :=
  match handleLogin example_env accepting_provider (Some login_event)
          example_world with
  | (Return r, _) => r
  | (Throw _, _) =>
      {| statusCode := 0;
         response_headers :=
           {| Location := undefined; Cache_Control := [];
              Set_Cookie := None |};
         multiValueHeaders := [] |}
  end.

(* ================================================================= *)
(** * Part II: properties *)
(* ================================================================= *)

(** ** Tactics *)

(** Linear arithmetic with division and remainder by constants. *)
Ltac dm := Z.to_euclidean_division_equations; lia.

(** Settles the comparisons of the goal that arithmetic decides. *)
Ltac settle_test t :=
  first
    [ replace t with true
        by (symmetry;
            first [ apply Z.ltb_lt | apply Z.leb_le | apply Z.eqb_eq ]; dm)
    | replace t with false
        by (symmetry;
            first [ apply Z.ltb_ge | apply Z.leb_gt | apply Z.eqb_neq ]; dm) ].

Ltac settle_tests :=
  repeat match goal with
         | |- context [ ?a <? ?b ] => settle_test (a <? b)
         | |- context [ ?a <=? ?b ] => settle_test (a <=? b)
         | |- context [ ?a =? ?b ] => settle_test (a =? b)
         end.

Lemma all_from_spec (P : Z -> bool) (n : nat) :
  forall c, all_from P n c = true ->
            forall k, c <= k < c + Z.of_nat n -> P k = true.
Proof.
  induction n as [|n IH]; intros c H k Hk.
  - simpl in Hk. lia.
  - simpl in H. destruct (P c) eqn:Pc; [|discriminate].
    destruct (Z.eq_dec k c) as [->|Hne]; [assumption|].
    apply (IH (c + 1) H). lia.
Qed.

(** ** Strings *)

Lemma js_valid (s : string) : valid_string (js s).
Proof.
  unfold valid_string, js. apply Forall_forall. intros c Hc.
  apply in_map_iff in Hc. destruct Hc as [a [<- _]].
  unfold code_unit. pose proof (N_ascii_bounded a). lia.
Qed.

Lemma valid_string_app (a b : jsstring) :
  valid_string a -> valid_string b -> valid_string (a ++ b).
Proof. intros Ha Hb. apply Forall_app. split; assumption. Qed.

Lemma str_eqb_refl (a : jsstring) : str_eqb a a = true.
Proof. induction a as [|x a IH]; simpl; [reflexivity|]. now rewrite Z.eqb_refl. Qed.

Lemma str_eqb_eq (a b : jsstring) : str_eqb a b = true <-> a = b.
Proof.
  split; [|intros ->; apply str_eqb_refl].
  revert b. induction a as [|x a IH]; intros [|y b] H; simpl in H;
    try discriminate; [reflexivity|].
  apply andb_true_iff in H. destruct H as [Hx Hab].
  apply Z.eqb_eq in Hx. subst. f_equal. now apply IH.
Qed.

(** ** Base64 *)

Lemma list_ind3 {A} (P : list A -> Prop) :
  P [] -> (forall a, P [a]) -> (forall a b, P [a; b]) ->
  (forall a b c t, P t -> P (a :: b :: c :: t)) ->
  forall l, P l.
Proof.
  intros H0 H1 H2 H3.
  fix IH 1.
  intros [|a [|b [|c t]]];
    [apply H0 | apply H1 | apply H2 | apply H3; apply IH].
Qed.

Lemma unbase64_b64_char (i : Z) :
  unbase64 (b64_char base64_alphabet i) = Some (i mod 64).
Proof.
  unfold b64_char.
  assert (Hr : 0 <= i mod 64 < 0 + Z.of_nat 64) by (simpl; dm).
  set (P := fun x =>
              match unbase64 (nth (Z.to_nat x) base64_alphabet 0) with
              | Some v => v =? x
              | None => false
              end).
  assert (Hall : all_from P 64 0 = true) by (vm_compute; reflexivity).
  pose proof (all_from_spec P 64 0 Hall (i mod 64) Hr) as HP.
  unfold P in HP.
  destruct (unbase64 (nth (Z.to_nat (i mod 64)) base64_alphabet 0));
    [|discriminate].
  apply Z.eqb_eq in HP. now subst.
Qed.

Lemma unbase64_pad : unbase64 61 = None /\ (61 mod 256 =? 61) = true.
Proof. split; reflexivity. Qed.

Lemma base64_roundtrip :
  forall bs, valid_bytes bs ->
             base64_decode (Buffer_toString_base64 bs) = bs.
Proof.
  unfold base64_decode, Buffer_toString_base64.
  induction bs as [| a | a b | a b c t IH] using list_ind3; intros Hv.
  - reflexivity.
  - inversion_clear Hv as [|? ? Ha _]. unfold octet in Ha.
    cbn [base64_encode app sextets].
    rewrite !unbase64_b64_char. cbn. f_equal. dm.
  - inversion_clear Hv as [|? ? Ha Hv']. inversion_clear Hv' as [|? ? Hb _].
    unfold octet in *.
    cbn [base64_encode app sextets].
    rewrite !unbase64_b64_char. cbn. f_equal; [dm|]. f_equal. dm.
  - inversion_clear Hv as [|? ? Ha Hv']. inversion_clear Hv' as [|? ? Hb Hv''].
    inversion_clear Hv'' as [|? ? Hc Ht]. unfold octet in *.
    cbn [base64_encode app sextets].
    rewrite !unbase64_b64_char.
    cbn [bytes_of_sextets app]. rewrite (IH Ht).
    f_equal; [dm|]. f_equal; [dm|]. f_equal. dm.
Qed.

(** ** Code points *)

(** Induction along the code points of a string. *)
Lemma code_point_ind (P : jsstring -> Prop) :
  P [] ->
  (forall hi lo t,
      is_high hi = true -> is_low lo = true -> P t -> P (hi :: lo :: t)) ->
  (forall c t,
      StringToCodePoints (c :: t) = c :: StringToCodePoints t ->
      P t -> P (c :: t)) ->
  forall s, P s.
Proof.
  intros Hnil Hpair Hone s.
  assert (H : forall n s', (List.length s' <= n)%nat -> P s').
  { induction n as [|n IH]; intros [|c t] Hlen; try exact Hnil.
    - simpl in Hlen. lia.
    - simpl in Hlen. destruct (is_high c) eqn:Hc.
      + destruct t as [|d t'].
        * apply Hone; [simpl; now rewrite Hc | exact Hnil].
        * destruct (is_low d) eqn:Hd.
          -- apply Hpair; [assumption | assumption |].
             apply IH. simpl in Hlen. lia.
          -- apply Hone; [simpl; now rewrite Hc, Hd | apply IH; lia].
      + apply Hone; [simpl; now rewrite Hc | apply IH; lia]. }
  apply (H (List.length s)). lia.
Qed.

Lemma StringToCodePoints_pair hi lo t :
  is_high hi = true -> is_low lo = true ->
  StringToCodePoints (hi :: lo :: t) = pair_cp hi lo :: StringToCodePoints t.
Proof. intros Hh Hl. simpl. now rewrite Hh, Hl. Qed.

Lemma surrogate_bounds c :
  is_high c = true -> 0xD800 <= c <= 0xDBFF.
Proof. unfold is_high. intros H. apply andb_true_iff in H. lia. Qed.

Lemma low_bounds c :
  is_low c = true -> 0xDC00 <= c <= 0xDFFF.
Proof. unfold is_low. intros H. apply andb_true_iff in H. lia. Qed.

Lemma pair_cp_bounds hi lo :
  is_high hi = true -> is_low lo = true ->
  0x10000 <= pair_cp hi lo < 0x110000.
Proof.
  intros Hh%surrogate_bounds Hl%low_bounds. unfold pair_cp. lia.
Qed.

Lemma utf16_cp_pair hi lo :
  is_high hi = true -> is_low lo = true ->
  utf16_cp (pair_cp hi lo) = [hi; lo].
Proof.
  intros Hh Hl. pose proof (pair_cp_bounds hi lo Hh Hl) as Hb.
  apply surrogate_bounds in Hh. apply low_bounds in Hl.
  unfold utf16_cp. settle_tests. unfold pair_cp in *.
  f_equal; [dm|]. f_equal. dm.
Qed.

Lemma utf16_cp_unit c : code_unit c -> utf16_cp c = [c].
Proof. unfold code_unit, utf16_cp. intros H. now settle_tests. Qed.

Lemma CodePointsToString_StringToCodePoints :
  forall s, valid_string s ->
            CodePointsToString (StringToCodePoints s) = s.
Proof.
  unfold CodePointsToString.
  induction s as [| hi lo t Hh Hl IH | c t Hc IH] using code_point_ind;
    intros Hv.
  - reflexivity.
  - rewrite StringToCodePoints_pair by assumption.
    inversion_clear Hv as [|? ? _ Hv']. inversion_clear Hv' as [|? ? _ Ht].
    cbn [flat_map]. rewrite utf16_cp_pair by assumption.
    rewrite (IH Ht). reflexivity.
  - rewrite Hc. inversion_clear Hv as [|? ? Hu Ht].
    cbn [flat_map]. rewrite (utf16_cp_unit c Hu), (IH Ht). reflexivity.
Qed.

Lemma StringToCodePoints_range :
  forall s, valid_string s -> Forall code_point (StringToCodePoints s).
Proof.
  induction s as [| hi lo t Hh Hl IH | c t Hc IH] using code_point_ind;
    intros Hv.
  - constructor.
  - rewrite StringToCodePoints_pair by assumption.
    inversion_clear Hv as [|? ? _ Hv']. inversion_clear Hv' as [|? ? _ Ht].
    constructor; [|now apply IH].
    pose proof (pair_cp_bounds hi lo Hh Hl). unfold code_point. lia.
  - rewrite Hc. inversion_clear Hv as [|? ? Hu Ht].
    constructor; [|now apply IH]. unfold code_unit, code_point in *. lia.
Qed.

(** ** UTF-8 *)

Lemma is_surrogate_false cp :
  is_surrogate cp = false -> cp < 0xD800 \/ 0xDFFF < cp.
Proof. unfold is_surrogate. intros H. apply andb_false_iff in H. lia. Qed.

Lemma in_range_spec lo hi b :
  BoolSpec (lo <= b <= hi) (~ lo <= b <= hi) (in_range lo hi b).
Proof.
  unfold in_range.
  destruct (Z.leb_spec lo b), (Z.leb_spec b hi); constructor; lia.
Qed.

(** Decides the test at the head of the left-hand side. *)
Ltac head_test :=
  match goal with
  | |- (if ?a <? ?b then _ else _) = _ =>
      destruct (Z.ltb_spec a b); [try (exfalso; lia) | try (exfalso; lia)]
  | |- (if in_range ?l ?h ?b then _ else _) = _ =>
      destruct (in_range_spec l h b);
      [try (exfalso; lia) | try (exfalso; lia)]
  end.

Lemma decode_1 b0 rest :
  b0 < 0x80 ->
  Buffer_toString_utf8 (b0 :: rest) = b0 :: Buffer_toString_utf8 rest.
Proof. intros H. cbn [Buffer_toString_utf8]. head_test. reflexivity. Qed.

Lemma decode_2 b0 b1 rest :
  0xC2 <= b0 <= 0xDF -> 0x80 <= b1 <= 0xBF ->
  Buffer_toString_utf8 (b0 :: b1 :: rest)
  = ((b0 - 0xC0) * 64 + (b1 - 0x80)) :: Buffer_toString_utf8 rest.
Proof.
  intros H0 H1. cbn [Buffer_toString_utf8]. do 3 head_test. reflexivity.
Qed.

Lemma decode_3 b0 b1 b2 rest :
  0xE0 <= b0 <= 0xEF -> 0x80 <= b1 <= 0xBF -> 0x80 <= b2 <= 0xBF ->
  (b0 = 0xE0 -> 0xA0 <= b1) -> (b0 = 0xED -> b1 <= 0x9F) ->
  Buffer_toString_utf8 (b0 :: b1 :: b2 :: rest)
  = ((b0 - 0xE0) * 4096 + (b1 - 0x80) * 64 + (b2 - 0x80))
      :: Buffer_toString_utf8 rest.
Proof.
  intros H0 H1 H2 Hlo Hhi. cbn [Buffer_toString_utf8].
  destruct (Z.eqb_spec b0 0xE0) as [E0|E0];
    destruct (Z.eqb_spec b0 0xED) as [ED|ED];
    try (specialize (Hlo E0)); try (specialize (Hhi ED));
    do 5 head_test; reflexivity.
Qed.

Lemma decode_4 b0 b1 b2 b3 rest :
  0xF0 <= b0 <= 0xF4 -> 0x80 <= b1 <= 0xBF -> 0x80 <= b2 <= 0xBF ->
  0x80 <= b3 <= 0xBF ->
  (b0 = 0xF0 -> 0x90 <= b1) -> (b0 = 0xF4 -> b1 <= 0x8F) ->
  Buffer_toString_utf8 (b0 :: b1 :: b2 :: b3 :: rest)
  = utf16_cp ((b0 - 0xF0) * 262144 + (b1 - 0x80) * 4096
              + (b2 - 0x80) * 64 + (b3 - 0x80))
      ++ Buffer_toString_utf8 rest.
Proof.
  intros H0 H1 H2 H3 Hlo Hhi. cbn [Buffer_toString_utf8].
  destruct (Z.eqb_spec b0 0xF0) as [F0|F0];
    destruct (Z.eqb_spec b0 0xF4) as [F4|F4];
    try (specialize (Hlo F0)); try (specialize (Hhi F4));
    do 7 head_test; reflexivity.
Qed.

(** Decoding the octets of one scalar value gives its code units back. *)
Lemma decode_utf8_cp cp rest :
  code_point cp -> is_surrogate cp = false ->
  Buffer_toString_utf8 (utf8_cp cp ++ rest)
  = utf16_cp cp ++ Buffer_toString_utf8 rest.
Proof.
  unfold code_point. intros Hr Hs%is_surrogate_false.
  unfold utf8_cp.
  destruct (Z.ltb_spec cp 0x80) as [H1|H1].
  { rewrite utf16_cp_unit by (unfold code_unit; lia).
    cbn [app]. now rewrite decode_1. }
  destruct (Z.ltb_spec cp 0x800) as [H2|H2].
  { rewrite utf16_cp_unit by (unfold code_unit; lia).
    cbn [app]. rewrite decode_2 by dm. f_equal. dm. }
  destruct (Z.ltb_spec cp 0x10000) as [H3|H3].
  { rewrite utf16_cp_unit by (unfold code_unit; lia).
    cbn [app]. rewrite decode_3 by dm. f_equal. dm. }
  cbn [app]. rewrite decode_4 by dm. f_equal. f_equal. dm.
Qed.

Lemma decode_utf8_code_points :
  forall cps,
    Forall code_point cps ->
    Forall (fun cp => is_surrogate cp = false) cps ->
    Buffer_toString_utf8
      (flat_map (fun cp => utf8_cp (if is_surrogate cp then REPLACEMENT
                                    else cp)) cps)
    = CodePointsToString cps.
Proof.
  induction cps as [|cp cps IH]; intros Hr Hs; [reflexivity|].
  inversion_clear Hr as [|? ? Hcp Hr']. inversion_clear Hs as [|? ? Hns Hs'].
  cbn [flat_map CodePointsToString]. rewrite Hns.
  rewrite decode_utf8_cp by assumption.
  f_equal. apply IH; assumption.
Qed.

(** Writing a string with no lone surrogate as UTF-8 and reading it back
    gives the string. *)
Lemma utf8_roundtrip s :
  valid_string s -> well_formed s ->
  Buffer_toString_utf8 (Buffer_from_utf8 s) = s.
Proof.
  intros Hv Hw. unfold Buffer_from_utf8.
  rewrite decode_utf8_code_points;
    [ now apply CodePointsToString_StringToCodePoints
    | now apply StringToCodePoints_range
    | exact Hw ].
Qed.

Lemma utf8_cp_octets cp : code_point cp -> valid_bytes (utf8_cp cp).
Proof.
  unfold code_point, valid_bytes, utf8_cp. intros Hr.
  destruct (Z.ltb_spec cp 0x80); [|destruct (Z.ltb_spec cp 0x800);
    [|destruct (Z.ltb_spec cp 0x10000)]];
    repeat constructor; unfold octet; dm.
Qed.

Lemma Buffer_from_utf8_octets s :
  valid_string s -> valid_bytes (Buffer_from_utf8 s).
Proof.
  intros Hv%StringToCodePoints_range. unfold Buffer_from_utf8, valid_bytes.
  induction Hv as [|cp cps Hcp _ IH]; [constructor|].
  cbn [flat_map]. apply Forall_app. split; [|exact IH].
  apply utf8_cp_octets. unfold code_point in *.
  destruct (is_surrogate cp); [unfold REPLACEMENT|]; lia.
Qed.

(** ** JSON: a quoted string reads back as the string *)

Lemma unhex_hex_lower d : 0 <= d < 16 -> unhex (hex_lower d) = Some d.
Proof.
  intros Hd. unfold hex_lower, unhex.
  destruct (Z.ltb_spec d 10).
  - replace ((48 <=? 48 + d) && (48 + d <=? 57)) with true
      by (symmetry; apply andb_true_iff; split; apply Z.leb_le; lia).
    f_equal. lia.
  - replace ((48 <=? 87 + d) && (87 + d <=? 57)) with false
      by (symmetry; apply andb_false_iff; right; apply Z.leb_gt; lia).
    replace ((97 <=? 87 + d) && (87 + d <=? 102)) with true
      by (symmetry; apply andb_true_iff; split; apply Z.leb_le; lia).
    f_equal. lia.
Qed.

Lemma unhex4_hex4 c :
  code_unit c ->
  unhex4 (hex_lower (c / 4096 mod 16)) (hex_lower (c / 256 mod 16))
         (hex_lower (c / 16 mod 16)) (hex_lower (c mod 16)) = Some c.
Proof.
  unfold code_unit. intros Hc. unfold unhex4.
  rewrite !unhex_hex_lower by dm. f_equal. dm.
Qed.

Lemma parse_chars_raw c t :
  c <> 34 -> c <> 92 -> 32 <= c ->
  parse_chars (c :: t) = prepend c (parse_chars t).
Proof.
  intros H1 H2 H3. cbn [parse_chars].
  destruct (Z.eqb_spec c 34); [contradiction|].
  destruct (Z.eqb_spec c 92); [contradiction|].
  destruct (Z.ltb_spec c 32); [lia|]. reflexivity.
Qed.

Lemma parse_chars_unicode_escape c t :
  code_unit c ->
  parse_chars ([92; 117] ++ hex4 hex_lower c ++ t)
  = prepend c (parse_chars t).
Proof.
  intros Hc. unfold hex4. cbn [app parse_chars].
  change (92 =? 34) with false. change (92 =? 92) with true.
  change (117 =? 117) with true. cbv iota.
  now rewrite unhex4_hex4.
Qed.

Lemma QuoteJSONChar_raw cp :
  32 <= cp -> cp <> 34 -> cp <> 92 -> is_surrogate cp = false ->
  QuoteJSONChar cp = utf16_cp cp.
Proof.
  intros H1 H2 H3 H4. unfold QuoteJSONChar. rewrite H4.
  destruct (Z.eqb_spec cp 8); [lia|]. destruct (Z.eqb_spec cp 9); [lia|].
  destruct (Z.eqb_spec cp 10); [lia|]. destruct (Z.eqb_spec cp 12); [lia|].
  destruct (Z.eqb_spec cp 13); [lia|]. destruct (Z.eqb_spec cp 34); [lia|].
  destruct (Z.eqb_spec cp 92); [lia|]. destruct (Z.ltb_spec cp 32); [lia|].
  reflexivity.
Qed.

(** One code unit that is a code point of its own, quoted and read. *)
Lemma parse_chars_QuoteJSONChar c t :
  code_unit c ->
  parse_chars (QuoteJSONChar c ++ t) = prepend c (parse_chars t).
Proof.
  intros Hc. unfold QuoteJSONChar.
  destruct (Z.eqb_spec c 8) as [->|N8]; [reflexivity|].
  destruct (Z.eqb_spec c 9) as [->|N9]; [reflexivity|].
  destruct (Z.eqb_spec c 10) as [->|N10]; [reflexivity|].
  destruct (Z.eqb_spec c 12) as [->|N12]; [reflexivity|].
  destruct (Z.eqb_spec c 13) as [->|N13]; [reflexivity|].
  destruct (Z.eqb_spec c 34) as [->|N34]; [reflexivity|].
  destruct (Z.eqb_spec c 92) as [->|N92]; [reflexivity|].
  destruct ((c <? 32) || is_surrogate c) eqn:Hesc.
  - rewrite <- app_assoc. now apply parse_chars_unicode_escape.
  - apply orb_false_iff in Hesc. destruct Hesc as [H32%Z.ltb_ge _].
    rewrite utf16_cp_unit by assumption. cbn [app].
    now apply parse_chars_raw.
Qed.

Lemma parse_chars_quoted :
  forall s, valid_string s ->
  forall rest,
    parse_chars (flat_map QuoteJSONChar (StringToCodePoints s) ++ 34 :: rest)
    = Some (s, rest).
Proof.
  induction s as [| hi lo t Hh Hl IH | c t Hc IH] using code_point_ind;
    intros Hv rest.
  - reflexivity.
  - rewrite StringToCodePoints_pair by assumption.
    inversion_clear Hv as [|? ? _ Hv']. inversion_clear Hv' as [|? ? _ Ht].
    pose proof (pair_cp_bounds hi lo Hh Hl) as Hb.
    pose proof (surrogate_bounds hi Hh) as Bh.
    pose proof (low_bounds lo Hl) as Bl.
    cbn [flat_map].
    rewrite QuoteJSONChar_raw;
      [ | lia | lia | lia
        | unfold is_surrogate; apply andb_false_iff; right;
          apply Z.leb_gt; lia ].
    rewrite utf16_cp_pair by assumption. cbn [app].
    rewrite !parse_chars_raw by lia.
    rewrite (IH Ht). reflexivity.
  - rewrite Hc. inversion_clear Hv as [|? ? Hu Ht].
    cbn [flat_map]. rewrite <- app_assoc.
    rewrite parse_chars_QuoteJSONChar by assumption.
    rewrite (IH Ht). reflexivity.
Qed.

Lemma parse_value_QuoteJSONString f s rest :
  valid_string s ->
  parse_value (S f) (QuoteJSONString s ++ rest) = Some (JString s, rest).
Proof.
  intros Hv. unfold QuoteJSONString.
  rewrite <- !app_assoc. cbn [app parse_value skip_ws].
  change (is_ws 34) with false. cbv iota.
  change (34 =? 34) with true. cbv iota.
  now rewrite parse_chars_quoted.
Qed.

(** An object of two string members, written and read. *)
Lemma parse_value_object2 f k1 v1 k2 v2 rest :
  valid_string k1 -> valid_string v1 ->
  valid_string k2 -> valid_string v2 ->
  parse_value (S (S (S (S f))))
    (JSON_stringify (JObject [(k1, JString v1); (k2, JString v2)]) ++ rest)
  = Some (JObject [(k1, JString v1); (k2, JString v2)], rest).
Proof.
  intros Hk1 Hv1 Hk2 Hv2.
  cbn [JSON_stringify map join_comma fst snd].
  unfold QuoteJSONString at 1 3.
  rewrite <- !app_assoc. cbn [app].
  cbn [parse_value skip_ws].
  change (is_ws 123) with false. cbv iota.
  change (123 =? 34) with false. change (123 =? 123) with true. cbv iota.
  change (is_ws 34) with false. cbv iota.
  change (34 =? 125) with false. cbv iota.
  cbn [parse_members skip_ws].
  change (is_ws 34) with false. cbv iota.
  change (34 =? 34) with true. cbv iota.
  rewrite parse_chars_quoted by assumption.
  cbn [skip_ws]. change (is_ws 58) with false. cbv iota.
  change (58 =? 58) with true. cbv iota.
  rewrite parse_value_QuoteJSONString by assumption.
  cbn [skip_ws]. change (is_ws 44) with false. cbv iota.
  change (44 =? 125) with false. change (44 =? 44) with true. cbv iota.
  cbn [parse_members skip_ws].
  change (is_ws 34) with false. cbv iota.
  change (34 =? 34) with true. cbv iota.
  rewrite parse_chars_quoted by assumption.
  cbn [skip_ws]. change (is_ws 58) with false. cbv iota.
  change (58 =? 58) with true. cbv iota.
  rewrite parse_value_QuoteJSONString by assumption.
  cbn [skip_ws]. change (is_ws 125) with false. cbv iota.
  change (125 =? 125) with true. cbv iota.
  reflexivity.
Qed.

Lemma JSON_stringify_object2_length k1 v1 k2 v2 :
  exists f,
    List.length (JSON_stringify (JObject [(k1, JString v1); (k2, JString v2)]))
    = S (S (S f)).
Proof.
  cbn [JSON_stringify map join_comma fst snd]. unfold QuoteJSONString.
  cbn [app List.length]. rewrite !length_app. cbn [List.length].
  eexists. rewrite Nat.add_succ_r. reflexivity.
Qed.

Lemma JSON_roundtrip_object2 k1 v1 k2 v2 :
  valid_string k1 -> valid_string v1 ->
  valid_string k2 -> valid_string v2 ->
  JSON_parse (JSON_stringify (JObject [(k1, JString v1); (k2, JString v2)]))
  = Return (JObject [(k1, JString v1); (k2, JString v2)]).
Proof.
  intros Hk1 Hv1 Hk2 Hv2. unfold JSON_parse.
  destruct (JSON_stringify_object2_length k1 v1 k2 v2) as [f ->].
  rewrite <- (app_nil_r (JSON_stringify _)).
  rewrite parse_value_object2 by assumption. reflexivity.
Qed.

(** ** JSON.parse: the fuel is enough *)

Lemma skip_ws_length s : (List.length (skip_ws s) <= List.length s)%nat.
Proof.
  induction s as [|c t IH]; simpl; [lia|].
  destruct (is_ws c); simpl; lia.
Qed.

Lemma prepend_inv c r str rest :
  prepend c r = Some (str, rest) ->
  exists str', r = Some (str', rest) /\ str = c :: str'.
Proof.
  destruct r as [[s' r']|]; simpl; intros H; [|discriminate].
  injection H as <- <-. now exists s'.
Qed.

Lemma parse_chars_length :
  forall s str r, parse_chars s = Some (str, r) ->
                  (List.length r < List.length s)%nat.
Proof.
  intros s. remember (List.length s) as n eqn:Hn.
  revert s Hn. induction n as [n IH] using lt_wf_ind.
  intros [|c t] Hn str r H; [discriminate|]. simpl in H, Hn.
  destruct (c =? 34).
  { injection H as _ <-. simpl. lia. }
  destruct (c =? 92).
  - destruct t as [|e t1]; [discriminate|].
    destruct (e =? 117).
    + destruct t1 as [|h3 [|h2 [|h1 [|h0 t2]]]]; try discriminate.
      destruct (unhex4 h3 h2 h1 h0); [|discriminate].
      apply prepend_inv in H. destruct H as (s' & H & _).
      apply (IH (List.length t2)) in H; simpl in *; lia.
    + destruct (simple_escape e); [|discriminate].
      apply prepend_inv in H. destruct H as (s' & H & _).
      apply (IH (List.length t1)) in H; simpl in *; lia.
  - destruct (c <? 32); [discriminate|].
    apply prepend_inv in H. destruct H as (s' & H & _).
    apply (IH (List.length t)) in H; simpl in *; lia.
Qed.

Lemma span_digits_length :
  forall s ds r, span_digits s = (ds, r) ->
                 List.length s = (List.length ds + List.length r)%nat.
Proof.
  induction s as [|c t IH]; intros ds r H; simpl in H.
  - injection H as <- <-. reflexivity.
  - destruct (is_digit c).
    + destruct (span_digits t) as [ds' r'] eqn:E.
      injection H as <- <-. simpl. rewrite (IH ds' r' eq_refl). reflexivity.
    + injection H as <- <-. reflexivity.
Qed.

Lemma parse_number_length s lexeme r :
  parse_number s = Some (lexeme, r) ->
  (List.length r < List.length s)%nat.
Proof.
  unfold parse_number.
  set (p := match s with
            | c :: t => if c =? 45 then ([45], t) else ([], s)
            | [] => ([], s)
            end).
  assert (Hp : (List.length (snd p) <= List.length s)%nat).
  { unfold p. destruct s as [|c t]; simpl; [lia|].
    destruct (c =? 45); simpl; lia. }
  destruct p as [sign s1]. simpl in Hp.
  destruct (span_digits s1) as [int s2] eqn:Hint.
  apply span_digits_length in Hint.
  destruct int as [|d ds]; [discriminate|]. simpl in Hint.
  destruct ((d =? 48) && negb match ds with [] => true | _ => false end).
  { intros H. injection H as _ <-. rewrite length_app. lia. }
  set (q := match s2 with
            | c :: t =>
                if c =? 46 then
                  let (fs, r0) := span_digits t in
                  match fs with
                  | [] => ([], s2)
                  | _ :: _ => (46 :: fs, r0)
                  end
                else ([], s2)
            | [] => ([], s2)
            end).
  assert (Hq : (List.length (snd q) <= List.length s2)%nat).
  { unfold q. destruct s2 as [|c t]; simpl; [lia|].
    destruct (c =? 46); simpl; [|lia].
    destruct (span_digits t) as [fs r0] eqn:E.
    apply span_digits_length in E. destruct fs; simpl; lia. }
  destruct q as [frac s3]. simpl in Hq.
  set (x := match s3 with
            | c :: t =>
                if (c =? 101) || (c =? 69) then
                  let (sg, t') :=
                    match t with
                    | g :: u =>
                        if (g =? 43) || (g =? 45) then ([g], u) else ([], t)
                    | [] => ([], t)
                    end in
                  let (es, r0) := span_digits t' in
                  match es with
                  | [] => ([], s3)
                  | _ :: _ => (c :: sg ++ es, r0)
                  end
                else ([], s3)
            | [] => ([], s3)
            end).
  assert (Hx : (List.length (snd x) <= List.length s3)%nat).
  { unfold x. destruct s3 as [|c t]; simpl; [lia|].
    destruct ((c =? 101) || (c =? 69)); simpl; [|lia].
    set (y := match t with
              | g :: u => if (g =? 43) || (g =? 45) then ([g], u) else ([], t)
              | [] => ([], t)
              end).
    assert (Hy : (List.length (snd y) <= List.length t)%nat).
    { unfold y. destruct t as [|g u]; simpl; [lia|].
      destruct ((g =? 43) || (g =? 45)); simpl; lia. }
    destruct y as [sg t']. simpl in Hy.
    destruct (span_digits t') as [es r0] eqn:E.
    apply span_digits_length in E. destruct es; simpl; lia. }
  destruct x as [ex s4]. simpl in Hx.
  intros H. injection H as _ <-. lia.
Qed.

Lemma strip_prefix_length :
  forall p s r, strip_prefix p s = Some r ->
                List.length s = (List.length p + List.length r)%nat.
Proof.
  induction p as [|x p IH]; intros s r H; simpl in H.
  - injection H as <-. reflexivity.
  - destruct s as [|y s']; [discriminate|].
    destruct (x =? y); [|discriminate].
    simpl. now rewrite (IH s' r H).
Qed.

Lemma skip_ws_cons s c t :
  skip_ws s = c :: t -> (List.length t < List.length s)%nat.
Proof. intros H. pose proof (skip_ws_length s) as L. rewrite H in L. simpl in L. lia. Qed.

Ltac use_length :=
  repeat match goal with
         | H : skip_ws _ = _ :: _ |- _ => apply skip_ws_cons in H
         | H : parse_chars _ = Some _ |- _ => apply parse_chars_length in H
         | H : parse_number _ = Some _ |- _ => apply parse_number_length in H
         | H : strip_prefix _ _ = Some _ |- _ =>
             apply strip_prefix_length in H; simpl in H
         end.

Lemma parse_adequate :
  forall f, adequate parse_value f /\ adequate parse_members f
            /\ adequate parse_elements f.
Proof.
  induction f as [|f (IHv & IHm & IHe)].
  { repeat split; discriminate. }
  split; [|split]; intros s v r H.
  - (* a value *)
    cbn [parse_value] in H.
    destruct (skip_ws s) as [|c t] eqn:Hs; [discriminate|].
    assert (Hgoal :
              forall f', parse_value (S f') s
                         = (if c =? 34 then
                              match parse_chars t with
                              | Some (str, r) => Some (JString str, r)
                              | None => None
                              end
                            else if c =? 123 then
                              match skip_ws t with
                              | d :: r =>
                                  if d =? 125 then Some (JObject [], r)
                                  else
                                    match parse_members f' t with
                                    | Some (ms, r') => Some (JObject ms, r')
                                    | None => None
                                    end
                              | [] => None
                              end
                            else if c =? 91 then
                              match skip_ws t with
                              | d :: r =>
                                  if d =? 93 then Some (JArray [], r)
                                  else
                                    match parse_elements f' t with
                                    | Some (vs, r') => Some (JArray vs, r')
                                    | None => None
                                    end
                              | [] => None
                              end
                            else
                              match strip_prefix (js "null") (c :: t) with
                              | Some r => Some (JNull, r)
                              | None =>
                              match strip_prefix (js "true") (c :: t) with
                              | Some r => Some (JBool true, r)
                              | None =>
                              match strip_prefix (js "false") (c :: t) with
                              | Some r => Some (JBool false, r)
                              | None =>
                              match parse_number (c :: t) with
                              | Some (lexeme, r) => Some (JNumber lexeme, r)
                              | None => None
                              end end end end))
      by (intros f'; cbn [parse_value]; now rewrite Hs).
    pose proof (skip_ws_length s) as Ls. rewrite Hs in Ls. simpl in Ls.
    destruct (c =? 34).
    { destruct (parse_chars t) as [[str r0]|] eqn:Hc; [|discriminate].
      injection H as <- <-. apply parse_chars_length in Hc.
      split; [lia|]. intros [|f'] Hf; [lia|].
      rewrite Hgoal. reflexivity. }
    destruct (c =? 123).
    { destruct (skip_ws t) as [|d r0] eqn:Ht; [discriminate|].
      pose proof (skip_ws_length t) as Lt. rewrite Ht in Lt. simpl in Lt.
      destruct (d =? 125).
      - injection H as <- <-. split; [lia|].
        intros [|f'] Hf; [lia|]. rewrite Hgoal. reflexivity.
      - destruct (parse_members f t) as [[ms r']|] eqn:Hm; [|discriminate].
        injection H as <- <-. apply IHm in Hm. destruct Hm as [Lm Mm].
        split; [lia|]. intros [|f'] Hf; [lia|].
        rewrite Hgoal, Mm by lia. reflexivity. }
    destruct (c =? 91).
    { destruct (skip_ws t) as [|d r0] eqn:Ht; [discriminate|].
      pose proof (skip_ws_length t) as Lt. rewrite Ht in Lt. simpl in Lt.
      destruct (d =? 93).
      - injection H as <- <-. split; [lia|].
        intros [|f'] Hf; [lia|]. rewrite Hgoal. reflexivity.
      - destruct (parse_elements f t) as [[vs r']|] eqn:He; [|discriminate].
        injection H as <- <-. apply IHe in He. destruct He as [Le Me].
        split; [lia|]. intros [|f'] Hf; [lia|].
        rewrite Hgoal, Me by lia. reflexivity. }
    assert (Hlit : (List.length r < List.length (c :: t))%nat).
    { destruct (strip_prefix (js "null") (c :: t)) eqn:E1;
        [injection H as _ <-; use_length; simpl in *; lia|].
      destruct (strip_prefix (js "true") (c :: t)) eqn:E2;
        [injection H as _ <-; use_length; simpl in *; lia|].
      destruct (strip_prefix (js "false") (c :: t)) eqn:E3;
        [injection H as _ <-; use_length; simpl in *; lia|].
      destruct (parse_number (c :: t)) as [[lexeme r0]|] eqn:E4;
        [|discriminate].
      injection H as _ <-. use_length. simpl in *. lia. }
    simpl in Hlit. split; [lia|].
    intros [|f'] Hf; [lia|]. rewrite Hgoal. exact H.
  - (* the members of an object *)
    cbn [parse_members] in H.
    destruct (skip_ws s) as [|q t] eqn:Hs; [discriminate|].
    pose proof (skip_ws_length s) as Ls. rewrite Hs in Ls. simpl in Ls.
    destruct (q =? 34) eqn:Hq; [|discriminate].
    destruct (parse_chars t) as [[key r0]|] eqn:Hk; [|discriminate].
    pose proof (parse_chars_length _ _ _ Hk) as Lk.
    destruct (skip_ws r0) as [|colon r1] eqn:Hr0; [discriminate|].
    pose proof (skip_ws_length r0) as L0. rewrite Hr0 in L0. simpl in L0.
    destruct (colon =? 58) eqn:Hcolon; [|discriminate].
    destruct (parse_value f r1) as [[v0 r2]|] eqn:Hv; [|discriminate].
    apply IHv in Hv. destruct Hv as [Lv Mv].
    destruct (skip_ws r2) as [|d r3] eqn:Hr2; [discriminate|].
    pose proof (skip_ws_length r2) as L2. rewrite Hr2 in L2. simpl in L2.
    destruct (d =? 125) eqn:Hd.
    + injection H as <- <-. split; [lia|].
      intros [|f'] Hf; [lia|]. cbn [parse_members].
      rewrite Hs, Hq, Hk, Hr0, Hcolon, Mv, Hr2, Hd by lia. reflexivity.
    + destruct (d =? 44) eqn:Hd'; [|discriminate].
      destruct (parse_members f r3) as [[ms r4]|] eqn:Hm; [|discriminate].
      injection H as <- <-. apply IHm in Hm. destruct Hm as [Lm Mm].
      split; [lia|].
      intros [|f'] Hf; [lia|]. cbn [parse_members].
      rewrite Hs, Hq, Hk, Hr0, Hcolon, Mv, Hr2, Hd, Hd', Mm by lia.
      reflexivity.
  - (* the elements of an array *)
    cbn [parse_elements] in H.
    destruct (parse_value f s) as [[v0 r0]|] eqn:Hv; [|discriminate].
    apply IHv in Hv. destruct Hv as [Lv Mv].
    destruct (skip_ws r0) as [|d r1] eqn:Hr0; [discriminate|].
    pose proof (skip_ws_length r0) as L0. rewrite Hr0 in L0. simpl in L0.
    destruct (d =? 93) eqn:Hd.
    + injection H as <- <-. split; [lia|].
      intros [|f'] Hf; [lia|]. cbn [parse_elements].
      rewrite Mv, Hr0, Hd by lia. reflexivity.
    + destruct (d =? 44) eqn:Hd'; [|discriminate].
      destruct (parse_elements f r1) as [[vs r2]|] eqn:He; [|discriminate].
      injection H as <- <-. apply IHe in He. destruct He as [Le Me].
      split; [lia|].
      intros [|f'] Hf; [lia|]. cbn [parse_elements].
      rewrite Mv, Hr0, Hd, Hd', Me by lia. reflexivity.
Qed.

(** Whatever some fuel parses, [JSON.parse] parses: the fuel it takes,
    the length of the text and one, never runs out. *)
Lemma JSON_parse_fuel_enough f text v r :
  parse_value f text = Some (v, r) ->
  skip_ws r = [] ->
  JSON_parse text = Return v.
Proof.
  intros H Hr. destruct (parse_adequate f) as [Hv _].
  destruct (Hv text v r H) as [_ Hmono].
  unfold JSON_parse. rewrite Hmono by lia. now rewrite Hr.
Qed.

(** ** Texts that survive UTF-8 *)

Lemma StringToCodePoints_app :
  forall (a b : jsstring), head_not_low b ->
              StringToCodePoints (a ++ b)
              = StringToCodePoints a ++ StringToCodePoints b.
Proof.
  induction a as [| hi lo t Hh Hl IH | c t Hc IH] using code_point_ind;
    intros b Hb.
  - reflexivity.
  - cbn [app]. rewrite !StringToCodePoints_pair by assumption.
    cbn [app]. f_equal. now apply IH.
  - rewrite Hc. cbn [app]. rewrite <- (IH b Hb).
    destruct (is_high c) eqn:Hhc; [|simpl; now rewrite Hhc].
    destruct t as [|d t'].
    + destruct b as [|e b']; [simpl; now rewrite Hhc|].
      simpl in Hb. cbn [app]. cbn [StringToCodePoints]. now rewrite Hhc, Hb.
    + destruct (is_low d) eqn:Hld.
      * simpl in Hc. rewrite Hhc, Hld in Hc.
        exfalso. injection Hc as Hc _.
        pose proof (pair_cp_bounds c d Hhc Hld).
        pose proof (surrogate_bounds c Hhc). lia.
      * cbn [app]. cbn [StringToCodePoints]. now rewrite Hhc, Hld.
Qed.

Lemma sound_app a b : sound a -> sound b -> sound (a ++ b).
Proof.
  intros (Va & Wa & Ha) (Vb & Wb & Hb). repeat split.
  - now apply valid_string_app.
  - unfold well_formed. rewrite StringToCodePoints_app by assumption.
    apply Forall_app. split; assumption.
  - destruct a; [exact Hb | exact Ha].
Qed.

Lemma sound_nil : sound [].
Proof. repeat split; constructor. Qed.

Lemma sound_ascii_cons c s : 0 <= c < 128 -> sound s -> sound (c :: s).
Proof.
  intros Hc (Vs & Ws & Hs).
  assert (Hh : is_high c = false)
    by (unfold is_high; apply andb_false_iff; left; apply Z.leb_gt; lia).
  repeat split.
  - constructor; [unfold code_unit; lia | assumption].
  - unfold well_formed. simpl. rewrite Hh. constructor; [|exact Ws].
    unfold is_surrogate. apply andb_false_iff. left. apply Z.leb_gt. lia.
  - simpl. unfold is_low. apply andb_false_iff. left. apply Z.leb_gt. lia.
Qed.

Lemma sound_ascii s : ascii_string s -> sound s.
Proof.
  induction 1 as [|c s Hc _ IH]; [apply sound_nil|].
  now apply sound_ascii_cons.
Qed.

Lemma js_ascii_check (s : string) :
  forallb (fun c => (0 <=? c) && (c <? 128)) (js s) = true ->
  ascii_string (js s).
Proof.
  intros H. apply Forall_forall. intros c Hc.
  rewrite forallb_forall in H. specialize (H c Hc).
  apply andb_true_iff in H. lia.
Qed.

Lemma hex_lower_ascii d : 0 <= d < 16 -> 0 <= hex_lower d < 128.
Proof. unfold hex_lower. destruct (Z.ltb_spec d 10); lia. Qed.

Lemma sound_utf16_cp cp :
  code_point cp -> is_surrogate cp = false -> sound (utf16_cp cp).
Proof.
  unfold code_point. intros Hr Hs. pose proof (is_surrogate_false cp Hs) as Hs'.
  unfold utf16_cp. destruct (Z.ltb_spec cp 0x10000) as [Hb|Hb].
  - assert (Hh : is_high cp = false)
      by (unfold is_high; apply andb_false_iff; lia).
    repeat split.
    + repeat constructor; unfold code_unit; lia.
    + unfold well_formed. simpl. rewrite Hh. repeat constructor. exact Hs.
    + simpl. unfold is_low. apply andb_false_iff. lia.
  - set (hi := 0xD800 + (cp - 0x10000) / 1024).
    set (lo := 0xDC00 + (cp - 0x10000) mod 1024).
    assert (Bh : 0xD800 <= hi <= 0xDBFF) by (unfold hi; dm).
    assert (Bl : 0xDC00 <= lo <= 0xDFFF) by (unfold lo; dm).
    assert (Hh : is_high hi = true)
      by (unfold is_high; apply andb_true_iff; lia).
    assert (Hl : is_low lo = true)
      by (unfold is_low; apply andb_true_iff; lia).
    repeat split.
    + repeat constructor; unfold code_unit; lia.
    + unfold well_formed. rewrite StringToCodePoints_pair by assumption.
      repeat constructor. pose proof (pair_cp_bounds hi lo Hh Hl).
      unfold is_surrogate. apply andb_false_iff. lia.
    + simpl. unfold is_low. apply andb_false_iff. lia.
Qed.

Lemma sound_QuoteJSONChar cp : code_point cp -> sound (QuoteJSONChar cp).
Proof.
  intros Hr. unfold QuoteJSONChar.
  destruct (cp =? 8); [apply sound_ascii, js_ascii_check; reflexivity|].
  destruct (cp =? 9); [apply sound_ascii, js_ascii_check; reflexivity|].
  destruct (cp =? 10); [apply sound_ascii, js_ascii_check; reflexivity|].
  destruct (cp =? 12); [apply sound_ascii, js_ascii_check; reflexivity|].
  destruct (cp =? 13); [apply sound_ascii, js_ascii_check; reflexivity|].
  destruct (cp =? 34); [repeat apply sound_ascii_cons; try lia; apply sound_nil|].
  destruct (cp =? 92); [repeat apply sound_ascii_cons; try lia; apply sound_nil|].
  destruct ((cp <? 32) || is_surrogate cp) eqn:Hesc.
  - unfold hex4. cbn [app].
    repeat apply sound_ascii_cons;
      try lia; try (apply hex_lower_ascii; dm). apply sound_nil.
  - apply orb_false_iff in Hesc. destruct Hesc as [_ Hs].
    now apply sound_utf16_cp.
Qed.

Lemma sound_flat_map_QuoteJSONChar cps :
  Forall code_point cps -> sound (flat_map QuoteJSONChar cps).
Proof.
  induction 1 as [|cp cps Hcp _ IH]; [apply sound_nil|].
  cbn [flat_map]. apply sound_app; [now apply sound_QuoteJSONChar | exact IH].
Qed.

Lemma sound_QuoteJSONString s : valid_string s -> sound (QuoteJSONString s).
Proof.
  intros Hv. unfold QuoteJSONString. cbn [app].
  apply sound_ascii_cons; [lia|].
  apply sound_app.
  - apply sound_flat_map_QuoteJSONChar. now apply StringToCodePoints_range.
  - apply sound_ascii_cons; [lia | apply sound_nil].
Qed.

Lemma sound_JSON_object2 k1 v1 k2 v2 :
  valid_string k1 -> valid_string v1 ->
  valid_string k2 -> valid_string v2 ->
  sound (JSON_stringify (JObject [(k1, JString v1); (k2, JString v2)])).
Proof.
  intros Hk1 Hv1 Hk2 Hv2.
  cbn [JSON_stringify map join_comma fst snd app].
  apply sound_ascii_cons; [lia|].
  assert (Hm : forall k v, valid_string k -> valid_string v ->
                           sound (QuoteJSONString k ++ 58 :: QuoteJSONString v)).
  { intros k v Hk Hv.
    apply sound_app; [now apply sound_QuoteJSONString|].
    apply sound_ascii_cons; [lia | now apply sound_QuoteJSONString]. }
  apply sound_app; [|apply sound_ascii_cons; [lia | apply sound_nil]].
  apply sound_app; [now apply Hm|].
  apply sound_ascii_cons; [lia | now apply Hm].
Qed.

Lemma well_formed_check s :
  forallb (fun cp => negb (is_surrogate cp)) (StringToCodePoints s) = true ->
  well_formed s.
Proof.
  intros H. apply Forall_forall. intros cp Hcp.
  rewrite forallb_forall in H. specialize (H cp Hcp).
  now apply negb_true_iff in H.
Qed.

Lemma valid_string_check s :
  forallb (fun c => (0 <=? c) && (c <? 65536)) s = true -> valid_string s.
Proof.
  intros H. apply Forall_forall. intros c Hc.
  rewrite forallb_forall in H. specialize (H c Hc).
  apply andb_true_iff in H. unfold code_unit. lia.
Qed.

(** ** Base64 texts *)

Lemma nth_Forall {A} (P : A -> Prop) (l : list A) (d : A) (n : nat) :
  Forall P l -> P d -> P (nth n l d).
Proof.
  intros Hl Hd. revert n.
  induction Hl as [|x l Hx _ IH]; intros [|n]; simpl; auto.
Qed.

Lemma b64_char_ascii (alphabet : jsstring) i :
  ascii_string alphabet -> 0 <= b64_char alphabet i < 128.
Proof.
  intros Ha. unfold b64_char.
  apply (nth_Forall (fun c => 0 <= c < 128)); [exact Ha | lia].
Qed.

Lemma base64_encode_ascii (alphabet : jsstring) (pad : bool) :
  ascii_string alphabet ->
  forall bs, ascii_string (base64_encode alphabet pad bs).
Proof.
  intros Ha.
  induction bs as [| a | a b | a b c t IH] using list_ind3;
    cbn [base64_encode app]; unfold ascii_string;
    repeat first [ apply Forall_cons; [now apply b64_char_ascii|]
                 | apply Forall_nil
                 | exact IH ];
    destruct pad; repeat constructor; lia.
Qed.

Lemma base64_alphabet_ascii : ascii_string base64_alphabet.
Proof. apply js_ascii_check. reflexivity. Qed.

Lemma base64url_alphabet_ascii : ascii_string base64url_alphabet.
Proof. apply js_ascii_check. reflexivity. Qed.

Lemma ascii_valid s : ascii_string s -> valid_string s.
Proof. intros H. now destruct (sound_ascii s H). Qed.

(** ** The nonce generator and the encoded state *)

Lemma generators_nonce_returns w :
  exists n, generators_nonce w = (Return n, consume 32 w) /\ ascii_string n.
Proof.
  unfold generators_nonce, bind, randomBytes, ret.
  eexists. split; [reflexivity|].
  apply base64_encode_ascii, base64url_alphabet_ascii.
Qed.

(** Reading a state the way [handleCallback] does gives back the JSON
    text it was made from. *)
Lemma state_text_roundtrip text :
  sound text ->
  Buffer_toString_utf8
    (base64_decode (Buffer_toString_base64 (Buffer_from_utf8 text)))
  = text.
Proof.
  intros (Hv & Hw & _).
  rewrite base64_roundtrip by now apply Buffer_from_utf8_octets.
  now apply utf8_roundtrip.
Qed.

(** ** The monad *)

Lemma bind_Return {A B} (m : M A) (k : A -> M B) w a w1 :
  m w = (Return a, w1) -> bind m k w = k a w1.
Proof. intros H. unfold bind. now rewrite H. Qed.

Lemma bind_Throw {A B} (m : M A) (k : A -> M B) w e w1 :
  m w = (Throw e, w1) -> bind m k w = (Throw e, w1).
Proof. intros H. unfold bind. now rewrite H. Qed.

Lemma bind_inv {A B} (m : M A) (k : A -> M B) w b w' :
  bind m k w = (Return b, w') ->
  exists a w1, m w = (Return a, w1) /\ k a w1 = (Return b, w').
Proof.
  unfold bind. destruct (m w) as [[a|e] w1]; intros H; [|discriminate].
  now exists a, w1.
Qed.

Lemma lift_inv {A} (o : outcome A) w a w' :
  lift o w = (Return a, w') -> o = Return a /\ w' = w.
Proof. unfold lift. intros H. injection H as -> ->. now split. Qed.

(** ** The builders *)

Lemma generateEncodedStateString_returns (route : option jsstring) w :
  exists n,
    ascii_string n
    /\ generateEncodedStateString route w
       = (Return
            (Buffer_toString_base64
               (Buffer_from_utf8
                  (JSON_stringify
                     (JObject [(js "route", JString (or_default route (js "/")));
                               (js "nonce", JString n)])))),
          consume 32 w).
Proof.
  destruct (generators_nonce_returns w) as [n [Hn Ha]].
  exists n. split; [exact Ha|].
  unfold generateEncodedStateString.
  rewrite (bind_Return _ _ _ _ _ Hn). reflexivity.
Qed.

Lemma or_default_valid route d :
  (forall r, route = Some r -> valid_string r) -> valid_string d ->
  valid_string (or_default route d).
Proof.
  intros Hr Hd. destruct route as [[|c r]|]; simpl; auto.
Qed.

(** Reading back the state made from a route. *)
Lemma decodeState_encoded lib route n :
  valid_string route -> ascii_string n ->
  decodeState lib
    (Some (JString
             (Buffer_toString_base64
                (Buffer_from_utf8
                   (JSON_stringify
                      (JObject [(js "route", JString route);
                                (js "nonce", JString n)]))))))
  = Return (JObject [(js "route", JString route); (js "nonce", JString n)]).
Proof.
  intros Hr Hn. unfold decodeState. cbn [Buffer_from_base64].
  assert (Hvn : valid_string n) by now apply ascii_valid.
  rewrite state_text_roundtrip
    by (apply sound_JSON_object2; auto using js_valid).
  apply JSON_roundtrip_object2; auto using js_valid.
Qed.

Lemma generateNetlifyJWT_run env lib tokenData w :
  generateNetlifyJWT env lib tokenData w
  = (JWT_sign lib
       {| exp := clock w / 1000 + NETLIFY_JWT_EXPIRATION_SECONDS;
          iat := clock w / 1000;
          updated_at := clock w / 1000;
          token_aud := aud tokenData;
          token_sub := sub tokenData;
          app_metadata :=
            {| authorization := {| roles := groups tokenData |} |} |}
       (TOKEN_SECRET env)
       {| algorithm := js "HS256"; header_typ := js "JWT" |},
     w).
Proof. reflexivity. Qed.

(** The session cookie is built when the signer returns, and only then. *)
Lemma generateNetlifyCookieFromCrossIdToken_signed env lib tokenData w token :
  JWT_sign lib (payload_of tokenData (clock w)) (TOKEN_SECRET env)
    {| algorithm := js "HS256"; header_typ := js "JWT" |}
  = Return token ->
  generateNetlifyCookieFromCrossIdToken env lib tokenData w
  = (Return
       {| cookie_name := NETLIFY_COOKIE_NAME;
          cookie_value := token;
          Max_Age := Some NETLIFY_JWT_EXPIRATION_SECONDS;
          Path := Some (js "/");
          HttpOnly := false;
          Secure := negb (isRunningLocally env) |},
     w).
Proof.
  intros Hs. unfold generateNetlifyCookieFromCrossIdToken.
  unfold bind. rewrite generateNetlifyJWT_run.
  fold (payload_of tokenData (clock w)). rewrite Hs. reflexivity.
Qed.

Lemma generateNetlifyCookieFromCrossIdToken_unsigned env lib tokenData w e :
  JWT_sign lib (payload_of tokenData (clock w)) (TOKEN_SECRET env)
    {| algorithm := js "HS256"; header_typ := js "JWT" |}
  = Throw e ->
  generateNetlifyCookieFromCrossIdToken env lib tokenData w = (Throw e, w).
Proof.
  intros Hs. unfold generateNetlifyCookieFromCrossIdToken.
  unfold bind. rewrite generateNetlifyJWT_run.
  fold (payload_of tokenData (clock w)). rewrite Hs. reflexivity.
Qed.

Lemma generateNetlifyCookieFromCrossIdToken_inv env lib tokenData w c w' :
  generateNetlifyCookieFromCrossIdToken env lib tokenData w = (Return c, w') ->
  exists token,
    JWT_sign lib (payload_of tokenData (clock w)) (TOKEN_SECRET env)
      {| algorithm := js "HS256"; header_typ := js "JWT" |}
    = Return token
    /\ c = {| cookie_name := NETLIFY_COOKIE_NAME;
              cookie_value := token;
              Max_Age := Some NETLIFY_JWT_EXPIRATION_SECONDS;
              Path := Some (js "/");
              HttpOnly := false;
              Secure := negb (isRunningLocally env) |}
    /\ w' = w.
Proof.
  destruct (JWT_sign lib (payload_of tokenData (clock w)) (TOKEN_SECRET env)
              {| algorithm := js "HS256"; header_typ := js "JWT" |})
    as [token|e] eqn:Hs; intros H.
  - rewrite (generateNetlifyCookieFromCrossIdToken_signed _ _ _ _ _ Hs) in H.
    injection H as <- <-. now exists token.
  - rewrite (generateNetlifyCookieFromCrossIdToken_unsigned _ _ _ _ _ Hs) in H.
    discriminate.
Qed.

(** ** encodeURIComponent *)

Lemma encode_code_points_total cps :
  Forall (fun cp => is_surrogate cp = false) cps ->
  exists u, encode_code_points cps = Return u.
Proof.
  induction 1 as [|cp cps Hcp _ [u IH]]; [now exists []|].
  cbn [encode_code_points]. rewrite IH, Hcp.
  destruct (uri_unreserved cp); eexists; reflexivity.
Qed.

Lemma encodeURIComponent_total s :
  well_formed s -> exists u, encodeURIComponent s = Return u.
Proof. apply encode_code_points_total. Qed.

(** ** The login handler *)

Lemma handleLogin_malformed env lib event w :
  event = None \/ (exists ev, event = Some ev /\ headers ev = None) ->
  handleLogin env lib event w = (Throw (Error "Malformed event"), w).
Proof.
  intros [->|[ev [-> Hh]]]; [reflexivity|].
  unfold handleLogin. now rewrite Hh.
Qed.

(** The client is made once discovery has returned. *)
Lemma getOpenIDClient_run env lib issuer w :
  Issuer_discover lib (issuer_url env) = Return issuer ->
  getOpenIDClient env lib w
  = (Issuer_Client lib issuer (metadata env),
     logged (Discover (issuer_url env)) w).
Proof.
  intros Hd. unfold getOpenIDClient, record_call.
  unfold bind. unfold lift. rewrite Hd. reflexivity.
Qed.

Lemma getOpenIDClient_undiscovered env lib e w :
  Issuer_discover lib (issuer_url env) = Throw e ->
  getOpenIDClient env lib w = (Throw e, logged (Discover (issuer_url env)) w).
Proof.
  intros Hd. unfold getOpenIDClient, record_call.
  unfold bind. unfold lift. rewrite Hd. reflexivity.
Qed.

Lemma getOpenIDClient_inv env lib w client w' :
  getOpenIDClient env lib w = (Return client, w') ->
  exists issuer,
    Issuer_discover lib (issuer_url env) = Return issuer
    /\ Issuer_Client lib issuer (metadata env) = Return client
    /\ w' = logged (Discover (issuer_url env)) w.
Proof.
  destruct (Issuer_discover lib (issuer_url env)) as [issuer|e] eqn:Hd;
    intros H.
  - rewrite (getOpenIDClient_run env lib issuer w Hd) in H.
    injection H as H <-. now exists issuer.
  - rewrite (getOpenIDClient_undiscovered env lib e w Hd) in H.
    discriminate.
Qed.

(** Every call of [getOpenIDClient] ends in the same world. *)
Lemma getOpenIDClient_world env lib w :
  snd (getOpenIDClient env lib w) = logged (Discover (issuer_url env)) w.
Proof.
  destruct (Issuer_discover lib (issuer_url env)) as [issuer|e] eqn:Hd.
  - now rewrite (getOpenIDClient_run env lib issuer w Hd).
  - now rewrite (getOpenIDClient_undiscovered env lib e w Hd).
Qed.

Lemma handleLogin_inv env lib event w resp w' :
  handleLogin env lib event w = (Return resp, w') ->
  exists ev hs issuer client nonce state_nonce url,
    event = Some ev /\ headers ev = Some hs
    /\ Issuer_discover lib (issuer_url env) = Return issuer
    /\ Issuer_Client lib issuer (metadata env) = Return client
    /\ ascii_string nonce /\ ascii_string state_nonce
    /\ generators_nonce (logged (Discover (issuer_url env)) w)
       = (Return nonce, consume 32 (logged (Discover (issuer_url env)) w))
    /\ let state :=
         Buffer_toString_base64
           (Buffer_from_utf8
              (JSON_stringify
                 (JObject [(js "route",
                            JString (or_default (referer hs) (js "/")));
                           (js "nonce", JString state_nonce)]))) in
       authorizationUrl lib client
         {| scope := js "openid email profile";
            response_mode := js "form_post";
            auth_nonce := nonce;
            auth_state := state |}
       = Return url
       /\ resp = {| statusCode := 302;
                    response_headers :=
                      {| Location := Some (JString url);
                         Cache_Control := js "no-cache";
                         Set_Cookie :=
                           Some (generateCrossIdLoginCookie env nonce state) |};
                    multiValueHeaders := [] |}
       /\ w' = consume 32 (consume 32 (logged (Discover (issuer_url env)) w)).
Proof.
  unfold handleLogin. destruct event as [ev|]; [|discriminate].
  destruct (headers ev) as [hs|] eqn:Hh; [|discriminate].
  intros H. apply bind_inv in H. destruct H as (client & w1 & Hc & H).
  apply getOpenIDClient_inv in Hc. destruct Hc as (issuer & Hd & Hc & ->).
  set (w1 := logged (Discover (issuer_url env)) w) in *.
  destruct (generators_nonce_returns w1) as [nonce [Hn Han]].
  rewrite (bind_Return _ _ _ _ _ Hn) in H.
  destruct (generateEncodedStateString_returns (referer hs) (consume 32 w1))
    as [n2 [Han2 Hs]].
  rewrite (bind_Return _ _ _ _ _ Hs) in H.
  apply bind_inv in H. destruct H as (url & w2 & Hu & H).
  apply lift_inv in Hu. destruct Hu as [Hu ->].
  unfold ret in H. injection H as <- <-.
  exists ev, hs, issuer, client, nonce, n2, url.
  cbv zeta. repeat split; auto.
Qed.

(** ** The callback handler *)

Lemma handleCallback_invalid env lib event w :
  event = None
  \/ (exists ev, event = Some ev /\ headers ev = None)
  \/ (exists ev hs, event = Some ev /\ headers ev = Some hs
                    /\ (cookie hs = None \/ cookie hs = Some [])) ->
  handleCallback env lib event w = (Throw (Error "Invalid request"), w).
Proof.
  intros [->|[[ev [-> Hh]]|[ev [hs [-> [Hh Hc]]]]]]; [reflexivity| |];
    unfold handleCallback; rewrite Hh; [reflexivity|].
  destruct Hc as [-> | ->]; reflexivity.
Qed.

Section Callback.

Variable env : Env.
Variable lib : Collaborators.
Variables (ev : Event) (hs : Headers) (hdr : jsstring).
Variable issuer : Issuer lib.
Variable client : Client lib.

Hypothesis Hheaders : headers ev = Some hs.
Hypothesis Hcookie : cookie hs = Some hdr.
Hypothesis Hnonempty : hdr <> [].
Hypothesis Hdiscover : Issuer_discover lib (issuer_url env) = Return issuer.
Hypothesis Hclient : Issuer_Client lib issuer (metadata env) = Return client.

(** Past the guard, the discovery and the constructor of the client, the
    handler reads the login cookie. *)
Lemma handleCallback_guard_passed w :
  handleCallback env lib (Some ev) w
  = (parsed <- lift (JSON_parse
                       (ToString (cookie_get (cookie_parse hdr)
                                    CROSSID_LOGIN_COOKIE_NAME))) ;;
     nonce <- lift (Get parsed (js "nonce")) ;;
     state <- lift (Get parsed (js "state")) ;;
     params <- lift (callbackParams lib client
                       {| method := js "POST";
                          req_body := body ev;
                          url := host hs |}) ;;
     _ <- record_call (Callback (callback_uri env)) ;;
     tokenSet <- lift (callback lib client (callback_uri env) params
                         {| check_nonce := nonce; check_state := state |}) ;;
     tokenData <- lift (claims lib tokenSet) ;;
     netlifyCookie <-
       generateNetlifyCookieFromCrossIdToken env lib tokenData ;;
     decodedState <- lift (decodeState lib state) ;;
     route <- lift (Get decodedState (js "route")) ;;
     ret {| statusCode := 302;
            response_headers :=
              {| Location := route;
                 Cache_Control := js "no-cache";
                 Set_Cookie := None |};
            multiValueHeaders :=
              [netlifyCookie; generateCrossIdLoginResetCookie env] |})
      (logged (Discover (issuer_url env)) w).
Proof.
  unfold handleCallback. rewrite Hheaders, Hcookie.
  destruct hdr as [|c rest]; [contradiction|].
  unfold bind at 1.
  rewrite (getOpenIDClient_run env lib issuer w Hdiscover), Hclient.
  reflexivity.
Qed.

(** The login cookie is not among the cookies of the request. *)
Lemma handleCallback_login_cookie_missing w :
  cookie_get (cookie_parse hdr) CROSSID_LOGIN_COOKIE_NAME = None ->
  handleCallback env lib (Some ev) w
  = (Throw SyntaxError, logged (Discover (issuer_url env)) w).
Proof.
  intros Hmissing. rewrite handleCallback_guard_passed, Hmissing.
  reflexivity.
Qed.

Variables (login_cookie : jsstring) (parsed : JSON) (nonce state : jsval).
Variable params : CallbackParameters lib.
Variable tokenSet : TokenSet lib.

Hypothesis Hlogin_cookie :
  cookie_get (cookie_parse hdr) CROSSID_LOGIN_COOKIE_NAME
  = Some login_cookie.
Hypothesis Hparsed : JSON_parse login_cookie = Return parsed.
Hypothesis Hnonce : Get parsed (js "nonce") = Return nonce.
Hypothesis Hstate : Get parsed (js "state") = Return state.
Hypothesis Hparams :
  callbackParams lib client
    {| method := js "POST"; req_body := body ev; url := host hs |}
  = Return params.
Hypothesis Hverified :
  callback lib client (callback_uri env) params
    {| check_nonce := nonce; check_state := state |}
  = Return tokenSet.

(** Verification succeeded: the claims are read and signed next. *)
Lemma handleCallback_verified w :
  handleCallback env lib (Some ev) w
  = (tokenData <- lift (claims lib tokenSet) ;;
     netlifyCookie <-
       generateNetlifyCookieFromCrossIdToken env lib tokenData ;;
     decodedState <- lift (decodeState lib state) ;;
     route <- lift (Get decodedState (js "route")) ;;
     ret {| statusCode := 302;
            response_headers :=
              {| Location := route;
                 Cache_Control := js "no-cache";
                 Set_Cookie := None |};
            multiValueHeaders :=
              [netlifyCookie; generateCrossIdLoginResetCookie env] |})
      (after_callback env w).
Proof.
  rewrite handleCallback_guard_passed, Hlogin_cookie. cbn [ToString].
  rewrite Hparsed. unfold lift at 1. unfold bind at 1.
  rewrite Hnonce. unfold lift at 1. unfold bind at 1.
  rewrite Hstate. unfold lift at 1. unfold bind at 1.
  rewrite Hparams. unfold lift at 1. unfold bind at 1.
  unfold record_call. unfold bind at 1.
  rewrite Hverified. reflexivity.
Qed.

Lemma handleCallback_no_claims e w :
  claims lib tokenSet = Throw e ->
  handleCallback env lib (Some ev) w = (Throw e, after_callback env w).
Proof.
  intros Hcl. rewrite handleCallback_verified, Hcl. reflexivity.
Qed.

Variables (tokenData : Claims).
Hypothesis Hclaims : claims lib tokenSet = Return tokenData.

Lemma handleCallback_unsigned e w :
  JWT_sign lib (payload_of tokenData (clock w)) (TOKEN_SECRET env)
    {| algorithm := js "HS256"; header_typ := js "JWT" |}
  = Throw e ->
  handleCallback env lib (Some ev) w = (Throw e, after_callback env w).
Proof.
  intros Hs. rewrite handleCallback_verified, Hclaims.
  unfold lift at 1. unfold bind at 1.
  unfold bind at 1.
  rewrite (generateNetlifyCookieFromCrossIdToken_unsigned
             env lib tokenData (after_callback env w) e Hs).
  reflexivity.
Qed.

(** The token is signed: what is left is to read the state. *)
Lemma handleCallback_signed token w :
  JWT_sign lib (payload_of tokenData (clock w)) (TOKEN_SECRET env)
    {| algorithm := js "HS256"; header_typ := js "JWT" |}
  = Return token ->
  handleCallback env lib (Some ev) w
  = (decodedState <- lift (decodeState lib state) ;;
     route <- lift (Get decodedState (js "route")) ;;
     ret (callback_answer env token route))
      (after_callback env w).
Proof.
  intros Hs. rewrite handleCallback_verified, Hclaims.
  unfold lift at 1. unfold bind at 1.
  rewrite (bind_Return _ _ _ _ _
             (generateNetlifyCookieFromCrossIdToken_signed
                env lib tokenData (after_callback env w) token Hs)).
  reflexivity.
Qed.

Lemma handleCallback_success token decoded route w :
  JWT_sign lib (payload_of tokenData (clock w)) (TOKEN_SECRET env)
    {| algorithm := js "HS256"; header_typ := js "JWT" |}
  = Return token ->
  decodeState lib state = Return decoded ->
  Get decoded (js "route") = Return route ->
  handleCallback env lib (Some ev) w
  = (Return (callback_answer env token route), after_callback env w).
Proof.
  intros Hs Hd Hr. rewrite (handleCallback_signed token w Hs).
  unfold lift, bind, ret. now rewrite Hd, Hr.
Qed.

Lemma handleCallback_state_unreadable token e w :
  JWT_sign lib (payload_of tokenData (clock w)) (TOKEN_SECRET env)
    {| algorithm := js "HS256"; header_typ := js "JWT" |}
  = Return token ->
  decodeState lib state = Throw e ->
  handleCallback env lib (Some ev) w = (Throw e, after_callback env w).
Proof.
  intros Hs Hd. rewrite (handleCallback_signed token w Hs).
  unfold lift, bind. now rewrite Hd.
Qed.

End Callback.

(** Whatever response the callback handler gives carries the session
    cookie and the reset cookie. *)
Lemma handleCallback_inv env lib event w resp w' :
  handleCallback env lib event w = (Return resp, w') ->
  exists route token, resp = callback_answer env token route.
Proof.
  destruct event as [ev|]; [|discriminate].
  destruct (headers ev) as [hs|] eqn:Hh;
    [|unfold handleCallback; rewrite Hh; discriminate].
  destruct (cookie hs) as [[|c hdr]|] eqn:Hc;
    try (unfold handleCallback; rewrite Hh, Hc; discriminate).
  unfold handleCallback. rewrite Hh, Hc.
  intros H.
  apply bind_inv in H. destruct H as (client & w0 & _ & H).
  apply bind_inv in H. destruct H as (parsed & w1 & _ & H).
  apply bind_inv in H. destruct H as (nonce & w2 & _ & H).
  apply bind_inv in H. destruct H as (state & w3 & _ & H).
  apply bind_inv in H. destruct H as (params & w4 & _ & H).
  apply bind_inv in H. destruct H as (u & w5 & _ & H).
  apply bind_inv in H. destruct H as (tokenSet & w6 & _ & H).
  apply bind_inv in H. destruct H as (tokenData & w7 & _ & H).
  apply bind_inv in H. destruct H as (netlifyCookie & w8 & Hn & H).
  apply bind_inv in H. destruct H as (decoded & w9 & _ & H).
  apply bind_inv in H. destruct H as (route & w10 & _ & H).
  unfold ret in H. injection H as <- _.
  apply generateNetlifyCookieFromCrossIdToken_inv in Hn.
  destruct Hn as (token & _ & -> & _).
  now exists route, token.
Qed.

(** ** The logout handler *)

Lemma handleLogout_returns env w u :
  encodeURIComponent (URL env) = Return u ->
  handleLogout env w
  = (Return
       {| statusCode := 302;
          response_headers :=
            {| Location :=
                 Some (JString
                         (js "https://" ++ CROSSID_DOMAIN env
                            ++ js "/v2/logout" ++ js "?"
                            ++ (js "returnTo=" ++ u) ++ js "&"
                            ++ js "client_id=" ++ CROSSID_CLIENT_ID env));
               Cache_Control := js "no-cache";
               Set_Cookie := Some (generateLogoutCookie env) |};
          multiValueHeaders := [] |},
     w).
Proof.
  intros Hu. unfold handleLogout, generateCrossIdLogoutUrl.
  rewrite Hu. unfold lift, bind, ret.
  rewrite <- !app_assoc. reflexivity.
Qed.

Lemma handleLogout_inv env w resp w' :
  handleLogout env w = (Return resp, w') ->
  Set_Cookie (response_headers resp) = Some (generateLogoutCookie env)
  /\ multiValueHeaders resp = [].
Proof.
  unfold handleLogout, generateCrossIdLogoutUrl.
  destruct (encodeURIComponent (URL env)); unfold lift, bind, ret;
    intros H; [|discriminate].
  injection H as <- _. now split.
Qed.

(** ** The embedding on concrete inputs *)

Example base64_of_text :
  Buffer_toString_base64 (Buffer_from_utf8 (js "hello world"))
  = js "aGVsbG8gd29ybGQ=".
Proof. reflexivity. Qed.

Example base64_unpadded_and_noisy :
  Buffer_toString_utf8 (base64_decode (js "aGVs bG8gd29y!bA")) = js "hello worl".
Proof. reflexivity. Qed.

(** U+20AC, U+1F600 as a pair, and a lone surrogate. *)
Example utf8_of_code_units :
  Buffer_from_utf8 [0x20AC; 0xD83D; 0xDE00; 0xD800]
  = [0xE2; 0x82; 0xAC; 0xF0; 0x9F; 0x98; 0x80; 0xEF; 0xBF; 0xBD].
Proof. reflexivity. Qed.

Example utf8_ill_formed :
  Buffer_toString_utf8 [0x41; 0xE2; 0x82; 0x42; 0xC0; 0x80]
  = [0x41; 0xFFFD; 0x42; 0xFFFD; 0xFFFD].
Proof. reflexivity. Qed.

Example stringify_escapes :
  JSON_stringify (JObject [(js "route", JString [47; 34; 92; 10; 1; 0xD800])])
  = js "{" ++ [34] ++ js "route" ++ [34] ++ js ":" ++ [34]
      ++ js "/" ++ [92; 34; 92; 92] ++ js "\n\u0001\ud800" ++ [34] ++ js "}".
Proof. reflexivity. Qed.

Example parse_nested :
  JSON_parse (js " [1, -2.5e+3, true, null, {}, [[]]] ")
  = Return (JArray [JNumber (js "1"); JNumber (js "-2.5e+3"); JBool true;
                    JNull; JObject []; JArray [JArray []]]).
Proof. reflexivity. Qed.

Example parse_undefined : JSON_parse (ToString None) = Throw SyntaxError.
Proof. reflexivity. Qed.

Example parse_trailing_comma : JSON_parse (js "[1,]") = Throw SyntaxError.
Proof. reflexivity. Qed.

Example encodeURIComponent_url :
  encodeURIComponent (js "https://app.example/a b")
  = Return (js "https%3A%2F%2Fapp.example%2Fa%20b").
Proof. reflexivity. Qed.

Example encodeURIComponent_lone_surrogate :
  encodeURIComponent [0xDC00] = Throw URIError.
Proof. reflexivity. Qed.

Example decodeURIComponent_euro :
  decodeURIComponent (js "%E2%82%AC%20") = Some [0x20AC; 32].
Proof. reflexivity. Qed.

Example cookie_parse_pairs :
  cookie_parse (js "theme=dark;  lang = en ; junk; theme=light")
  = [(js "theme", js "dark"); (js "lang", js "en"); (js "theme", js "light")].
Proof. reflexivity. Qed.

(** A pair named after a property every object inherits is not kept. *)
Example cookie_parse_inherited_name :
  cookie_parse (js "toString=1; theme=dark; __proto__=2; constructor=3")
  = [(js "theme", js "dark")].
Proof. reflexivity. Qed.

Example cookie_get_first :
  cookie_get (cookie_parse (js "theme=dark; theme=light")) (js "theme")
  = Some (js "dark").
Proof. reflexivity. Qed.

Example nonce_is_43_characters :
  exists n w, generators_nonce example_world = (Return n, w)
              /\ List.length n = 43%nat /\ drawn w = 32%nat.
Proof. eexists _, _. split; [reflexivity|]. split; reflexivity. Qed.

(** The client cannot make an authorization URL: the login fails after
    discovery and after both nonces were drawn. *)
Example login_without_authorization_endpoint :
  handleLogin example_env provider_without_endpoint (Some login_event)
    example_world
  = (Throw TypeError,
     consume 32 (consume 32 (logged (Discover (issuer_url example_env))
                               example_world))).
Proof. vm_compute. reflexivity. Qed.

(** The secret is empty: the callback is verified, the signer refuses,
    and there is no response. *)
Example callback_without_secret :
  handleCallback env_without_secret accepting_provider
    (Some (callback_event default_state)) example_world
  = (Throw TypeError, after_callback env_without_secret example_world).
Proof. vm_compute. reflexivity. Qed.

(** A login, and the callback of a browser that returns the login cookie:
    the redirect goes to the page the login came from. *)
Example login_then_callback :
  exists login w1 c answer w2,
    handleLogin example_env accepting_provider (Some login_event) example_world
    = (Return login, w1)
    /\ Set_Cookie (response_headers login) = Some c
    /\ handleCallback example_env accepting_provider
         (Some {| headers :=
                    Some {| referer := None;
                            cookie := Some (cookie_header (cookie_name c)
                                              (cookie_value c));
                            host := Some (js "app.example") |};
                  body := Some (js "id_token=x.y.z") |})
         w1
       = (Return answer, w2)
    /\ Location (response_headers answer)
       = Some (JString (js "https://app.example/dashboard"))
    /\ calls w2 = [Discover (issuer_url example_env);
                   Discover (issuer_url example_env);
                   Callback (callback_uri example_env)].
Proof.
  eexists _, _, _, _, _.
  split; [vm_compute; reflexivity|].
  split; [reflexivity|].
  split; [vm_compute; reflexivity|].
  split; reflexivity.
Qed.

(* ================================================================= *)
(** * Part III: the claims *)
(* ================================================================= *)

(** C1.  For every route string [r], the state that
    [generateEncodedStateString] makes of it, read the way
    [handleCallback] reads a state (base64, then UTF-8, then JSON), is an
    object whose [route] is [r], or ["/"] when [r] is empty. *)
Theorem encoded_state_roundtrip (lib : Collaborators) (r : jsstring)
        (w : World) :
  valid_string r ->
  exists state w' decoded,
    generateEncodedStateString (Some r) w = (Return state, w')
    /\ decodeState lib (Some (JString state)) = Return decoded
    /\ Get decoded (js "route")
       = Return (Some (JString match r with
                               | [] => js "/"
                               | _ :: _ => r
                               end)).
Proof.
  intros Hr.
  destruct (generateEncodedStateString_returns (Some r) w) as [n [Hn Hs]].
  eexists _, _, _. split; [exact Hs|].
  rewrite decodeState_encoded;
    [ | apply or_default_valid; [intros ? [= <-]; exact Hr | apply js_valid]
      | exact Hn ].
  split; [reflexivity|]. destruct r; reflexivity.
Qed.

Lemma encoded_state_roundtrip_witness :
  valid_string (js "/dashboard")
  /\ exists state w' decoded,
      generateEncodedStateString (Some (js "/dashboard")) example_world
      = (Return state, w')
      /\ decodeState accepting_provider (Some (JString state)) = Return decoded
      /\ Get decoded (js "route") = Return (Some (JString (js "/dashboard"))).
Proof.
  assert (H : valid_string (js "/dashboard"))
    by (apply valid_string_check; vm_compute; reflexivity).
  split; [exact H|].
  exact (encoded_state_roundtrip accepting_provider (js "/dashboard")
           example_world H).
Defined.

(** C2.  The payload that [generateNetlifyJWT] hands to the signer has
    [roles] equal to [groups], [aud] and [sub] as they came,
    [updated_at] equal to [iat], [iat] equal to the clock divided by 1000
    and rounded down, and [exp - iat] equal to [14 * 24 * 3600].  What
    [generateNetlifyJWT] gives is what the signer makes of this payload:
    the token, or the signer's error. *)
Theorem netlify_token_payload (env : Env) (lib : Collaborators)
        (tokenData : Claims) (w : World) :
  exists payload,
    generateNetlifyJWT env lib tokenData w
    = (JWT_sign lib payload (TOKEN_SECRET env)
         {| algorithm := js "HS256"; header_typ := js "JWT" |},
       w)
    /\ roles (authorization (app_metadata payload)) = groups tokenData
    /\ token_aud payload = aud tokenData
    /\ token_sub payload = sub tokenData
    /\ updated_at payload = iat payload
    /\ iat payload = clock w / 1000
    /\ exp payload - iat payload = 14 * 24 * 3600.
Proof.
  eexists. split; [apply generateNetlifyJWT_run|].
  cbn [roles authorization app_metadata token_aud token_sub updated_at iat exp].
  repeat split. unfold NETLIFY_JWT_EXPIRATION_SECONDS. lia.
Qed.

(** C3, at the input where the code departs from it.  A request that has
    a [Cookie] header without the login cookie passes the guard; the
    handler calls discovery, makes its client and then fails in
    [JSON.parse], with a [SyntaxError] and not with the error of the
    guard. *)
Theorem callback_without_login_cookie (env : Env) (lib : Collaborators)
        (ev : Event) (hs : Headers) (hdr : jsstring) (issuer : Issuer lib)
        (client : Client lib) (w : World) :
  headers ev = Some hs ->
  cookie hs = Some hdr ->
  hdr <> [] ->
  cookie_get (cookie_parse hdr) CROSSID_LOGIN_COOKIE_NAME = None ->
  Issuer_discover lib (issuer_url env) = Return issuer ->
  Issuer_Client lib issuer (metadata env) = Return client ->
  handleCallback env lib (Some ev) w
  = (Throw SyntaxError, logged (Discover (issuer_url env)) w)
  /\ fst (handleCallback env lib (Some ev) w)
     <> Throw (Error "Invalid request").
Proof.
  intros Hh Hc Hne Hmiss Hd Hcl.
  rewrite (handleCallback_login_cookie_missing
             env lib ev hs hdr issuer client Hh Hc Hne Hd Hcl w Hmiss).
  split; [reflexivity | discriminate].
Qed.

Lemma callback_without_login_cookie_witness :
  cookie_get (cookie_parse (js "theme=dark; lang=en"))
             CROSSID_LOGIN_COOKIE_NAME = None
  /\ handleCallback example_env accepting_provider
       (Some event_without_login_cookie) example_world
     = (Throw SyntaxError,
        logged (Discover (issuer_url example_env)) example_world)
  /\ fst (handleCallback example_env accepting_provider
            (Some event_without_login_cookie) example_world)
     <> Throw (Error "Invalid request").
Proof.
  assert (Hmissing : cookie_get (cookie_parse (js "theme=dark; lang=en"))
                                CROSSID_LOGIN_COOKIE_NAME = None)
    by (vm_compute; reflexivity).
  split; [exact Hmissing|].
  apply (callback_without_login_cookie example_env accepting_provider
           event_without_login_cookie
           {| referer := None;
              cookie := Some (js "theme=dark; lang=en");
              host := Some (js "app.example") |}
           (js "theme=dark; lang=en") (issuer_url example_env)
           example_client).
  - reflexivity.
  - reflexivity.
  - discriminate.
  - exact Hmissing.
  - reflexivity.
  - reflexivity.
Defined.

(** C4, as the code has it.  The login cookie of every successful login
    carries [Max-Age=1800000]: [LOGIN_COOKIE_MAX_AGE] counts milliseconds
    and the attribute counts seconds, so the cookie lives for 30000
    minutes and not for 30. *)
Theorem login_cookie_max_age (env : Env) (lib : Collaborators)
        (event : option Event) (w w' : World) (resp : Response) :
  handleLogin env lib event w = (Return resp, w') ->
  exists c,
    Set_Cookie (response_headers resp) = Some c
    /\ Max_Age c = Some 1800000
    /\ Max_Age c <> Some (30 * 60).
Proof.
  intros H. apply handleLogin_inv in H.
  destruct H as (ev & hs & issuer & client & nonce & n2 & url
                 & _ & _ & _ & _ & _ & _ & _ & H).
  cbv zeta in H. destruct H as (_ & -> & _).
  eexists. split; [reflexivity|]. split; [reflexivity | discriminate].
Qed.

Lemma login_cookie_max_age_witness :
  exists resp w' c,
    handleLogin example_env accepting_provider (Some login_event) example_world
    = (Return resp, w')
    /\ Set_Cookie (response_headers resp) = Some c
    /\ Max_Age c = Some 1800000
    /\ Max_Age c <> Some (30 * 60).
Proof.
  destruct (handleLogin example_env accepting_provider (Some login_event)
              example_world) as [[resp|e] w'] eqn:Hrun;
    [|vm_compute in Hrun; discriminate Hrun].
  destruct (login_cookie_max_age example_env accepting_provider
              (Some login_event) example_world w' resp Hrun)
    as [c Hc].
  exists resp, w', c. split; [reflexivity | exact Hc].
Defined.

(** C5, as stated, fails.  A callback whose state reads as an object with
    an empty [route], or with no [route] at all, is redirected to that
    empty or undefined location, not to ["/"]. *)
Lemma callback_keeps_empty_route :
  (decodeState accepting_provider (Some (JString state_with_empty_route))
   = Return (JObject [(js "route", JString []);
                      (js "nonce", JString (js "n-2"))])
   /\ exists resp w',
       handleCallback example_env accepting_provider
         (Some (callback_event state_with_empty_route)) example_world
       = (Return resp, w')
       /\ Location (response_headers resp) = Some (JString [])
       /\ Location (response_headers resp) <> Some (JString (js "/")))
  /\ (decodeState accepting_provider (Some (JString state_without_route))
      = Return (JObject [(js "nonce", JString (js "n-2"))])
      /\ exists resp w',
          handleCallback example_env accepting_provider
            (Some (callback_event state_without_route)) example_world
          = (Return resp, w')
          /\ Location (response_headers resp) = undefined
          /\ Location (response_headers resp) <> Some (JString (js "/"))).
Proof.
  split; (split; [vm_compute; reflexivity|]);
    eexists _, _; (split; [vm_compute; reflexivity|]);
    split; [reflexivity | discriminate | reflexivity | discriminate].
Qed.

(** C5, amended.  The default is applied when the state is made: a state
    that [generateEncodedStateString] makes of an empty or absent route
    carries ["/"], and a callback that holds this state in its login
    cookie is redirected to ["/"], once the client is made, the provider
    has verified the callback, the claims are read and the token is
    signed. *)
Theorem default_route_reaches_callback
        (env : Env) (lib : Collaborators) (ev : Event) (hs : Headers)
        (hdr : jsstring) (issuer : Issuer lib) (client : Client lib)
        (login_cookie : jsstring)
        (parsed : JSON) (nonce : jsval) (params : CallbackParameters lib)
        (tokenSet : TokenSet lib) (tokenData : Claims) (token : jsstring)
        (route : option jsstring)
        (state : jsstring) (w0 w1 w : World) :
  route = None \/ route = Some [] ->
  generateEncodedStateString route w0 = (Return state, w1) ->
  headers ev = Some hs ->
  cookie hs = Some hdr ->
  hdr <> [] ->
  Issuer_discover lib (issuer_url env) = Return issuer ->
  Issuer_Client lib issuer (metadata env) = Return client ->
  cookie_get (cookie_parse hdr) CROSSID_LOGIN_COOKIE_NAME = Some login_cookie ->
  JSON_parse login_cookie = Return parsed ->
  Get parsed (js "nonce") = Return nonce ->
  Get parsed (js "state") = Return (Some (JString state)) ->
  callbackParams lib client
    {| method := js "POST"; req_body := body ev; url := host hs |}
  = Return params ->
  callback lib client (callback_uri env) params
    {| check_nonce := nonce; check_state := Some (JString state) |}
  = Return tokenSet ->
  claims lib tokenSet = Return tokenData ->
  JWT_sign lib (payload_of tokenData (clock w)) (TOKEN_SECRET env)
    {| algorithm := js "HS256"; header_typ := js "JWT" |}
  = Return token ->
  exists resp w',
    handleCallback env lib (Some ev) w = (Return resp, w')
    /\ statusCode resp = 302
    /\ Location (response_headers resp) = Some (JString (js "/")).
Proof.
  intros Hroute Hstate Hh Hc Hne Hd Hcl Hlc Hp Hn Hs Hcp Hcb Hclaims Hsign.
  destruct (generateEncodedStateString_returns route w0) as [n [Han Hgen]].
  rewrite Hgen in Hstate. injection Hstate as Hstate _.
  assert (Hdef : or_default route (js "/") = js "/")
    by (destruct Hroute as [-> | ->]; reflexivity).
  rewrite Hdef in Hstate.
  assert (Hdec : decodeState lib (Some (JString state))
                 = Return (JObject [(js "route", JString (js "/"));
                                    (js "nonce", JString n)]))
    by (rewrite <- Hstate; apply decodeState_encoded;
        [apply js_valid | exact Han]).
  pose proof (handleCallback_success env lib ev hs hdr issuer client
                Hh Hc Hne Hd Hcl
                login_cookie parsed nonce (Some (JString state)) params
                tokenSet Hlc Hp Hn Hs Hcp Hcb tokenData Hclaims
                token _ (Some (JString (js "/"))) w Hsign Hdec eq_refl)
    as Hrun.
  eexists _, _. split; [exact Hrun|]. split; reflexivity.
Qed.

Lemma default_route_reaches_callback_witness :
  generateEncodedStateString None example_world
  = (Return default_state, consume 32 example_world)
  /\ exists resp w',
      handleCallback example_env accepting_provider
        (Some (callback_event default_state)) example_world
      = (Return resp, w')
      /\ statusCode resp = 302
      /\ Location (response_headers resp) = Some (JString (js "/")).
Proof.
  assert (Hgen : generateEncodedStateString None example_world
                 = (Return default_state, consume 32 example_world))
    by (vm_compute; reflexivity).
  split; [exact Hgen|].
  eapply (default_route_reaches_callback example_env accepting_provider
            (callback_event default_state) _ _ (issuer_url example_env)
            example_client _ _ _ _ _ example_claims
            (js "header.payload.signature")
            None default_state example_world _ example_world).
  - left. reflexivity.
  - exact Hgen.
  - reflexivity.
  - reflexivity.
  - vm_compute. discriminate.
  - reflexivity.
  - reflexivity.
  - vm_compute. reflexivity.
  - vm_compute. reflexivity.
  - vm_compute. reflexivity.
  - vm_compute. reflexivity.
  - vm_compute. reflexivity.
  - reflexivity.
  - reflexivity.
  - reflexivity.
Defined.

(** C6.  A login request that is absent, or that has no headers, fails
    with [Error('Malformed event')] and leaves the world as it was: no
    discovery call was made, nothing was drawn, there is no response. *)
Theorem login_rejects_malformed_event (env : Env) (lib : Collaborators)
        (event : option Event) (w : World) :
  event = None \/ (exists ev, event = Some ev /\ headers ev = None) ->
  handleLogin env lib event w = (Throw (Error "Malformed event"), w).
Proof. apply handleLogin_malformed. Qed.

Lemma login_rejects_malformed_event_witness :
  (exists ev, Some event_without_headers = Some ev /\ headers ev = None)
  /\ handleLogin example_env accepting_provider (Some event_without_headers)
       example_world
     = (Throw (Error "Malformed event"), example_world).
Proof.
  assert (H : exists ev, Some event_without_headers = Some ev
                         /\ headers ev = None)
    by (exists event_without_headers; split; reflexivity).
  split; [exact H|].
  exact (login_rejects_malformed_event example_env accepting_provider
           (Some event_without_headers) example_world (or_intror H)).
Defined.

(** C7.  In the response of a successful login, the [Location] is the
    authorization URL that the client, made for the metadata of the
    configuration, built for a nonce and a state, and the value of the
    login cookie is JSON text whose [nonce] and [state] are those same
    two strings. *)
Theorem login_cookie_matches_authorization_url
        (env : Env) (lib : Collaborators) (event : option Event)
        (w w' : World) (resp : Response) :
  handleLogin env lib event w = (Return resp, w') ->
  exists issuer client nonce state url c parsed,
    Issuer_discover lib (issuer_url env) = Return issuer
    /\ Issuer_Client lib issuer (metadata env) = Return client
    /\ authorizationUrl lib client
         {| scope := js "openid email profile";
            response_mode := js "form_post";
            auth_nonce := nonce;
            auth_state := state |}
       = Return url
    /\ statusCode resp = 302
    /\ Location (response_headers resp) = Some (JString url)
    /\ Set_Cookie (response_headers resp) = Some c
    /\ cookie_name c = CROSSID_LOGIN_COOKIE_NAME
    /\ JSON_parse (cookie_value c) = Return parsed
    /\ Get parsed (js "nonce") = Return (Some (JString nonce))
    /\ Get parsed (js "state") = Return (Some (JString state)).
Proof.
  intros H. apply handleLogin_inv in H.
  destruct H as (ev & hs & issuer & client & nonce & n2 & url
                 & _ & _ & Hd & Hcl & Hn & _ & _ & H).
  cbv zeta in H. destruct H as (Hu & -> & _).
  eexists issuer, client, nonce, _, url, _, _.
  split; [exact Hd|]. split; [exact Hcl|]. split; [exact Hu|].
  split; [reflexivity|]. split; [reflexivity|]. split; [reflexivity|].
  split; [reflexivity|].
  cbn [generateCrossIdLoginCookie cookie_serialize cookie_value].
  split;
    [ apply JSON_roundtrip_object2;
      [ apply js_valid
      | now apply ascii_valid
      | apply js_valid
      | apply ascii_valid, base64_encode_ascii, base64_alphabet_ascii ]
    | split; reflexivity ].
Qed.

Lemma login_cookie_matches_authorization_url_witness :
  exists resp w' issuer client nonce state url c parsed,
    handleLogin example_env accepting_provider (Some login_event) example_world
    = (Return resp, w')
    /\ Issuer_discover accepting_provider (issuer_url example_env)
       = Return issuer
    /\ Issuer_Client accepting_provider issuer (metadata example_env)
       = Return client
    /\ authorizationUrl accepting_provider client
         {| scope := js "openid email profile";
            response_mode := js "form_post";
            auth_nonce := nonce;
            auth_state := state |}
       = Return url
    /\ statusCode resp = 302
    /\ Location (response_headers resp) = Some (JString url)
    /\ Set_Cookie (response_headers resp) = Some c
    /\ cookie_name c = CROSSID_LOGIN_COOKIE_NAME
    /\ JSON_parse (cookie_value c) = Return parsed
    /\ Get parsed (js "nonce") = Return (Some (JString nonce))
    /\ Get parsed (js "state") = Return (Some (JString state)).
Proof.
  destruct (handleLogin example_env accepting_provider (Some login_event)
              example_world) as [[resp|e] w'] eqn:Hrun;
    [|vm_compute in Hrun; discriminate Hrun].
  destruct (login_cookie_matches_authorization_url
              example_env accepting_provider (Some login_event)
              example_world w' resp Hrun)
    as (issuer & client & nonce & state & url & c & parsed & H).
  exists resp, w', issuer, client, nonce, state, url, c, parsed.
  split; [reflexivity | exact H].
Defined.

(** C8, as stated, fails.  Verification succeeds for this callback, and
    still there is no response: the state in its login cookie is no
    base64 of a JSON text, and the handler fails when it reads it. *)
Lemma verified_callback_without_response :
  callback accepting_provider example_client
    (callback_uri example_env) (js "id_token=x.y.z")
    {| check_nonce := Some (JString (js "n-1"));
       check_state := Some (JString undecodable_state) |}
  = Return example_claims
  /\ handleCallback example_env accepting_provider
       (Some (callback_event undecodable_state)) example_world
     = (Throw SyntaxError, after_callback example_env example_world)
  /\ ~ exists resp w',
         handleCallback example_env accepting_provider
           (Some (callback_event undecodable_state)) example_world
         = (Return resp, w').
Proof.
  assert (Hrun : handleCallback example_env accepting_provider
                   (Some (callback_event undecodable_state)) example_world
                 = (Throw SyntaxError, after_callback example_env example_world))
    by (vm_compute; reflexivity).
  split; [reflexivity|]. split; [exact Hrun|].
  intros (resp & w' & H). rewrite Hrun in H. discriminate H.
Qed.

(** C8, amended.  When verification succeeds, the claims of the token
    set are read, the signer returns a token and the state of the login
    cookie reads as a JSON value that is not [null], the response is a 302
    to the [route] of that value, with [Cache-Control: no-cache] and two
    [Set-Cookie] entries: the session cookie (the signed token, path
    ["/"], max-age the session lifetime, not HttpOnly) and the login
    cookie emptied, with max-age 0. *)
Theorem verified_callback_response
        (env : Env) (lib : Collaborators) (ev : Event) (hs : Headers)
        (hdr : jsstring) (issuer : Issuer lib) (client : Client lib)
        (login_cookie : jsstring)
        (parsed : JSON) (nonce state : jsval)
        (params : CallbackParameters lib) (tokenSet : TokenSet lib)
        (tokenData : Claims) (token : jsstring)
        (decoded : JSON) (route : jsval) (w : World) :
  headers ev = Some hs ->
  cookie hs = Some hdr ->
  hdr <> [] ->
  Issuer_discover lib (issuer_url env) = Return issuer ->
  Issuer_Client lib issuer (metadata env) = Return client ->
  cookie_get (cookie_parse hdr) CROSSID_LOGIN_COOKIE_NAME = Some login_cookie ->
  JSON_parse login_cookie = Return parsed ->
  Get parsed (js "nonce") = Return nonce ->
  Get parsed (js "state") = Return state ->
  callbackParams lib client
    {| method := js "POST"; req_body := body ev; url := host hs |}
  = Return params ->
  callback lib client (callback_uri env) params
    {| check_nonce := nonce; check_state := state |}
  = Return tokenSet ->
  claims lib tokenSet = Return tokenData ->
  JWT_sign lib (payload_of tokenData (clock w)) (TOKEN_SECRET env)
    {| algorithm := js "HS256"; header_typ := js "JWT" |}
  = Return token ->
  decodeState lib state = Return decoded ->
  Get decoded (js "route") = Return route ->
  exists resp session reset,
    handleCallback env lib (Some ev) w = (Return resp, after_callback env w)
    /\ statusCode resp = 302
    /\ Location (response_headers resp) = route
    /\ Cache_Control (response_headers resp) = js "no-cache"
    /\ set_cookies resp = [session; reset]
    /\ cookie_name session = NETLIFY_COOKIE_NAME
    /\ cookie_value session = token
    /\ Path session = Some (js "/")
    /\ Max_Age session = Some NETLIFY_JWT_EXPIRATION_SECONDS
    /\ HttpOnly session = false
    /\ cookie_name reset = CROSSID_LOGIN_COOKIE_NAME
    /\ cookie_value reset = []
    /\ Max_Age reset = Some 0.
Proof.
  intros Hh Hc Hne Hd Hcl Hlc Hp Hn Hs Hcp Hcb Hclaims Hsign Hdec Hroute.
  pose proof (handleCallback_success env lib ev hs hdr issuer client
                Hh Hc Hne Hd Hcl
                login_cookie parsed nonce state params tokenSet
                Hlc Hp Hn Hs Hcp Hcb tokenData Hclaims
                token decoded route w Hsign Hdec Hroute)
    as Hrun.
  eexists _, _, _. split; [exact Hrun|].
  repeat split.
Qed.

Lemma verified_callback_response_witness :
  exists resp session reset,
    handleCallback example_env accepting_provider
      (Some (callback_event default_state)) example_world
    = (Return resp, after_callback example_env example_world)
    /\ statusCode resp = 302
    /\ Location (response_headers resp) = Some (JString (js "/"))
    /\ Cache_Control (response_headers resp) = js "no-cache"
    /\ set_cookies resp = [session; reset]
    /\ cookie_name session = NETLIFY_COOKIE_NAME
    /\ cookie_value session = js "header.payload.signature"
    /\ Path session = Some (js "/")
    /\ Max_Age session = Some NETLIFY_JWT_EXPIRATION_SECONDS
    /\ HttpOnly session = false
    /\ cookie_name reset = CROSSID_LOGIN_COOKIE_NAME
    /\ cookie_value reset = []
    /\ Max_Age reset = Some 0.
Proof.
  eapply (verified_callback_response example_env accepting_provider
            (callback_event default_state) _ _ (issuer_url example_env)
            example_client _ _ _ _ _ _ example_claims
            (js "header.payload.signature")
            _ (Some (JString (js "/"))) example_world).
  - reflexivity.
  - reflexivity.
  - vm_compute. discriminate.
  - reflexivity.
  - reflexivity.
  - vm_compute. reflexivity.
  - vm_compute. reflexivity.
  - vm_compute. reflexivity.
  - vm_compute. reflexivity.
  - vm_compute. reflexivity.
  - reflexivity.
  - reflexivity.
  - reflexivity.
  - vm_compute. reflexivity.
  - vm_compute. reflexivity.
Defined.

(** C9.  However it is invoked, [handleLogout] answers 302 with the
    logout URL of the provider, which carries the encoded site URL as
    [returnTo] and the client identifier as [client_id], and with one
    [Set-Cookie] that empties the session cookie with max-age 0.  The
    site URL of the configuration has no lone surrogate. *)
Theorem logout_response (env : Env) (event : option Event) (w : World) :
  well_formed (URL env) ->
  exists returnTo resp c,
    encodeURIComponent (URL env) = Return returnTo
    /\ handleLogout_invoked env event w = (Return resp, w)
    /\ statusCode resp = 302
    /\ Location (response_headers resp)
       = Some (JString (js "https://" ++ CROSSID_DOMAIN env
                          ++ js "/v2/logout?returnTo=" ++ returnTo
                          ++ js "&client_id=" ++ CROSSID_CLIENT_ID env))
    /\ Cache_Control (response_headers resp) = js "no-cache"
    /\ set_cookies resp = [c]
    /\ cookie_name c = NETLIFY_COOKIE_NAME
    /\ cookie_value c = []
    /\ Max_Age c = Some 0.
Proof.
  intros Hwf. destruct (encodeURIComponent_total (URL env) Hwf) as [u Hu].
  exists u. eexists _, _. split; [exact Hu|].
  unfold handleLogout_invoked.
  split; [apply (handleLogout_returns env w u Hu)|].
  cbn [statusCode response_headers Location Cache_Control set_cookies
       Set_Cookie multiValueHeaders].
  split; [reflexivity|]. split.
  { rewrite <- ?app_assoc. reflexivity. }
  repeat split.
Qed.

Lemma logout_response_witness :
  well_formed (URL example_env)
  /\ exists returnTo resp c,
      encodeURIComponent (URL example_env) = Return returnTo
      /\ handleLogout_invoked example_env (Some login_event) example_world
         = (Return resp, example_world)
      /\ statusCode resp = 302
      /\ Location (response_headers resp)
         = Some (JString (js "https://" ++ CROSSID_DOMAIN example_env
                            ++ js "/v2/logout?returnTo=" ++ returnTo
                            ++ js "&client_id="
                            ++ CROSSID_CLIENT_ID example_env))
      /\ Cache_Control (response_headers resp) = js "no-cache"
      /\ set_cookies resp = [c]
      /\ cookie_name c = NETLIFY_COOKIE_NAME
      /\ cookie_value c = []
      /\ Max_Age c = Some 0.
Proof.
  assert (H : well_formed (URL example_env))
    by (apply well_formed_check; vm_compute; reflexivity).
  split; [exact H|].
  exact (logout_response example_env (Some login_event) example_world H).
Defined.

(** C10.  Each of the four cookies this program builds (the session
    cookie is built when the signer returns) has path ["/"] and is secure
    exactly when the site does not run locally, and so has every
    [Set-Cookie] of every response of the three handlers. *)
Theorem cookies_scoped_and_secured (env : Env) (lib : Collaborators) :
  (forall nonce state,
      scoped_and_secured env (generateCrossIdLoginCookie env nonce state))
  /\ scoped_and_secured env (generateCrossIdLoginResetCookie env)
  /\ scoped_and_secured env (generateLogoutCookie env)
  /\ (forall tokenData w,
         (forall token,
             JWT_sign lib (payload_of tokenData (clock w)) (TOKEN_SECRET env)
               {| algorithm := js "HS256"; header_typ := js "JWT" |}
             = Return token ->
             exists c,
               generateNetlifyCookieFromCrossIdToken env lib tokenData w
               = (Return c, w)
               /\ scoped_and_secured env c)
         /\ (forall c w',
                generateNetlifyCookieFromCrossIdToken env lib tokenData w
                = (Return c, w') ->
                scoped_and_secured env c))
  /\ (forall event w resp w',
         handleLogin env lib event w = (Return resp, w') ->
         Forall (scoped_and_secured env) (set_cookies resp))
  /\ (forall event w resp w',
         handleCallback env lib event w = (Return resp, w') ->
         Forall (scoped_and_secured env) (set_cookies resp))
  /\ (forall event w resp w',
         handleLogout_invoked env event w = (Return resp, w') ->
         Forall (scoped_and_secured env) (set_cookies resp)).
Proof.
  split; [|split; [|split; [|split; [|split; [|split]]]]].
  - intros nonce state. split; reflexivity.
  - split; reflexivity.
  - split; reflexivity.
  - intros tokenData w. split.
    + intros token Hs. eexists.
      split; [apply (generateNetlifyCookieFromCrossIdToken_signed
                       env lib tokenData w token Hs)|].
      split; reflexivity.
    + intros c w' H.
      apply generateNetlifyCookieFromCrossIdToken_inv in H.
      destruct H as (token & _ & -> & _). split; reflexivity.
  - intros event w resp w' H. apply handleLogin_inv in H.
    destruct H as (ev & hs & issuer & client & nonce & n2 & url
                   & _ & _ & _ & _ & _ & _ & _ & H).
    cbv zeta in H. destruct H as (_ & -> & _).
    repeat constructor.
  - intros event w resp w' H. apply handleCallback_inv in H.
    destruct H as (route & token & ->). repeat constructor.
  - intros event w resp w' H. apply handleLogout_inv in H.
    destruct H as [Hc Hm]. unfold set_cookies. rewrite Hc, Hm.
    repeat constructor.
Qed.

(* ================================================================= *)
(** * Part IV: further properties of the handlers *)
(* ================================================================= *)

(** ** What the login handler does, step by step *)

Lemma generators_nonce_run w :
  generators_nonce w = (Return (drawn_nonce w), consume 32 w).
Proof. reflexivity. Qed.

Lemma drawn_nonce_ascii w : ascii_string (drawn_nonce w).
Proof. apply base64_encode_ascii, base64url_alphabet_ascii. Qed.

Lemma issued_state_ascii referer w : ascii_string (issued_state referer w).
Proof. apply base64_encode_ascii, base64_alphabet_ascii. Qed.

Lemma generateEncodedStateString_run route w :
  generateEncodedStateString route (consume 32 w)
  = (Return (issued_state route w), consume 32 (consume 32 w)).
Proof. reflexivity. Qed.

(** Once the client is made, the login draws its two nonces and asks the
    client for the authorization URL. *)
Lemma handleLogin_client_made env lib ev hs issuer client w :
  headers ev = Some hs ->
  Issuer_discover lib (issuer_url env) = Return issuer ->
  Issuer_Client lib issuer (metadata env) = Return client ->
  handleLogin env lib (Some ev) w
  = (match authorizationUrl lib client
             {| scope := js "openid email profile";
                response_mode := js "form_post";
                auth_nonce := drawn_nonce w;
                auth_state := issued_state (referer hs) w |} with
     | Return url =>
         Return
           {| statusCode := 302;
              response_headers :=
                {| Location := Some (JString url);
                   Cache_Control := js "no-cache";
                   Set_Cookie :=
                     Some (generateCrossIdLoginCookie env (drawn_nonce w)
                             (issued_state (referer hs) w)) |};
              multiValueHeaders := [] |}
     | Throw e => Throw e
     end,
     consume 32 (consume 32 (logged (Discover (issuer_url env)) w))).
Proof.
  intros Hh Hd Hc. unfold handleLogin. rewrite Hh.
  unfold bind at 1.
  rewrite (getOpenIDClient_run env lib issuer w Hd), Hc.
  set (w1 := logged (Discover (issuer_url env)) w).
  rewrite (bind_Return _ _ _ _ _ (generators_nonce_run w1)).
  rewrite (bind_Return _ _ _ _ _
             (generateEncodedStateString_run (referer hs) w1)).
  unfold bind, lift, ret.
  change (drawn_nonce w1) with (drawn_nonce w).
  change (issued_state (referer hs) w1) with (issued_state (referer hs) w).
  destruct (authorizationUrl lib client _); reflexivity.
Qed.

Lemma handleLogin_discovered env lib ev hs issuer client url w :
  headers ev = Some hs ->
  Issuer_discover lib (issuer_url env) = Return issuer ->
  Issuer_Client lib issuer (metadata env) = Return client ->
  authorizationUrl lib client
    {| scope := js "openid email profile";
       response_mode := js "form_post";
       auth_nonce := drawn_nonce w;
       auth_state := issued_state (referer hs) w |}
  = Return url ->
  handleLogin env lib (Some ev) w
  = (Return
       {| statusCode := 302;
          response_headers :=
            {| Location := Some (JString url);
               Cache_Control := js "no-cache";
               Set_Cookie :=
                 Some (generateCrossIdLoginCookie env (drawn_nonce w)
                         (issued_state (referer hs) w)) |};
          multiValueHeaders := [] |},
     consume 32 (consume 32 (logged (Discover (issuer_url env)) w))).
Proof.
  intros Hh Hd Hc Hu.
  rewrite (handleLogin_client_made env lib ev hs issuer client w Hh Hd Hc).
  now rewrite Hu.
Qed.

Lemma handleLogin_undiscovered env lib ev hs e w :
  headers ev = Some hs ->
  Issuer_discover lib (issuer_url env) = Throw e ->
  handleLogin env lib (Some ev) w
  = (Throw e, logged (Discover (issuer_url env)) w).
Proof.
  intros Hh Hd. unfold handleLogin. rewrite Hh.
  unfold bind at 1.
  now rewrite (getOpenIDClient_undiscovered env lib e w Hd).
Qed.

Lemma handleLogin_no_client env lib ev hs issuer e w :
  headers ev = Some hs ->
  Issuer_discover lib (issuer_url env) = Return issuer ->
  Issuer_Client lib issuer (metadata env) = Throw e ->
  handleLogin env lib (Some ev) w
  = (Throw e, logged (Discover (issuer_url env)) w).
Proof.
  intros Hh Hd Hc. unfold handleLogin. rewrite Hh.
  unfold bind at 1.
  now rewrite (getOpenIDClient_run env lib issuer w Hd), Hc.
Qed.

(** ** What the callback handler does, step by step *)

Lemma handleCallback_undiscovered env lib ev hs hdr e w :
  headers ev = Some hs ->
  cookie hs = Some hdr ->
  hdr <> [] ->
  Issuer_discover lib (issuer_url env) = Throw e ->
  handleCallback env lib (Some ev) w
  = (Throw e, logged (Discover (issuer_url env)) w).
Proof.
  intros Hh Hc Hne Hd. unfold handleCallback. rewrite Hh, Hc.
  destruct hdr as [|c rest]; [contradiction|].
  unfold bind at 1.
  now rewrite (getOpenIDClient_undiscovered env lib e w Hd).
Qed.

Lemma handleCallback_no_client env lib ev hs hdr issuer e w :
  headers ev = Some hs ->
  cookie hs = Some hdr ->
  hdr <> [] ->
  Issuer_discover lib (issuer_url env) = Return issuer ->
  Issuer_Client lib issuer (metadata env) = Throw e ->
  handleCallback env lib (Some ev) w
  = (Throw e, logged (Discover (issuer_url env)) w).
Proof.
  intros Hh Hc Hne Hd Hcl. unfold handleCallback. rewrite Hh, Hc.
  destruct hdr as [|c rest]; [contradiction|].
  unfold bind at 1.
  now rewrite (getOpenIDClient_run env lib issuer w Hd), Hcl.
Qed.

Lemma Get_cases v k :
  (v = JNull /\ Get v k = Throw TypeError)
  \/ exists r, Get v k = Return r.
Proof. destruct v; simpl; eauto. Qed.

Lemma handleCallback_run env lib ev hs hdr issuer client w :
  headers ev = Some hs ->
  cookie hs = Some hdr ->
  hdr <> [] ->
  Issuer_discover lib (issuer_url env) = Return issuer ->
  Issuer_Client lib issuer (metadata env) = Return client ->
  callback_run env lib ev hs hdr client w (handleCallback env lib (Some ev) w).
Proof.
  intros Hh Hc Hne Hd Hcl.
  rewrite (handleCallback_guard_passed env lib ev hs hdr issuer client
             Hh Hc Hne Hd Hcl).
  destruct (JSON_parse (ToString (cookie_get (cookie_parse hdr)
                                    CROSSID_LOGIN_COOKIE_NAME)))
    as [parsed|e] eqn:Hp.
  2:{ exact (run_bad_cookie env lib ev hs hdr client w e Hp). }
  unfold lift at 1. unfold bind at 1.
  destruct (Get_cases parsed (js "nonce")) as [[-> Hn]|[nonce Hn]].
  { exact (run_null_cookie env lib ev hs hdr client w Hp). }
  rewrite Hn. unfold lift at 1. unfold bind at 1.
  destruct (Get_cases parsed (js "state")) as [[-> Hs]|[state Hs]];
    [discriminate Hn|].
  rewrite Hs. unfold lift at 1. unfold bind at 1.
  destruct (callbackParams lib client
              {| method := js "POST"; req_body := body ev; url := host hs |})
    as [params|e] eqn:Hcp.
  2:{ exact (run_bad_request env lib ev hs hdr client w parsed nonce state e
               Hp Hn Hs Hcp). }
  unfold lift at 1. unfold bind at 1.
  unfold record_call. unfold bind at 1.
  destruct (callback lib client (callback_uri env) params
              {| check_nonce := nonce; check_state := state |})
    as [tokenSet|e] eqn:Hcb.
  2:{ exact (run_rejected env lib ev hs hdr client w parsed nonce state
               params e Hp Hn Hs Hcp Hcb). }
  unfold lift at 1. unfold bind at 1.
  destruct (claims lib tokenSet) as [tokenData|e] eqn:Hclaims.
  2:{ exact (run_no_claims env lib ev hs hdr client w parsed nonce state
               params tokenSet e Hp Hn Hs Hcp Hcb Hclaims). }
  unfold lift at 1. unfold bind at 1.
  fold (after_callback env w).
  destruct (JWT_sign lib (payload_of tokenData (clock w)) (TOKEN_SECRET env)
              {| algorithm := js "HS256"; header_typ := js "JWT" |})
    as [token|e] eqn:Hsign.
  2:{ unfold bind at 1.
      rewrite (generateNetlifyCookieFromCrossIdToken_unsigned
                 env lib tokenData (after_callback env w) e Hsign).
      exact (run_unsigned env lib ev hs hdr client w parsed nonce state
               params tokenSet tokenData e Hp Hn Hs Hcp Hcb Hclaims Hsign). }
  rewrite (bind_Return _ _ _ _ _
             (generateNetlifyCookieFromCrossIdToken_signed
                env lib tokenData (after_callback env w) token Hsign)).
  destruct (decodeState lib state) as [decoded|e] eqn:Hdec.
  2:{ exact (run_bad_state env lib ev hs hdr client w parsed nonce state
               params tokenSet tokenData token e Hp Hn Hs Hcp Hcb Hclaims
               Hsign (or_introl Hdec)). }
  unfold lift at 1. unfold bind at 1.
  destruct (Get_cases decoded (js "route")) as [[-> Hr]|[route Hr]].
  { exact (run_bad_state env lib ev hs hdr client w parsed nonce state
             params tokenSet tokenData token TypeError Hp Hn Hs Hcp Hcb
             Hclaims Hsign (or_intror (conj Hdec eq_refl))). }
  rewrite Hr.
  exact (run_answer env lib ev hs hdr client w parsed nonce state params
           tokenSet tokenData token decoded route Hp Hn Hs Hcp Hcb Hclaims
           Hsign Hdec Hr).
Qed.

(** ** The login handler *)

(** X1.  When discovery of the provider fails, [handleLogin] fails with
    the error of the discovery: the discovery call is all that happened,
    no nonce was drawn and there is no response. *)
Theorem login_discovery_failure (env : Env) (lib : Collaborators)
        (ev : Event) (hs : Headers) (e : exn) (w : World) :
  headers ev = Some hs ->
  Issuer_discover lib (issuer_url env) = Throw e ->
  handleLogin env lib (Some ev) w
  = (Throw e, logged (Discover (issuer_url env)) w)
  /\ drawn (snd (handleLogin env lib (Some ev) w)) = drawn w.
Proof.
  intros Hh Hd.
  rewrite (handleLogin_undiscovered env lib ev hs e w Hh Hd).
  split; reflexivity.
Qed.

Lemma login_discovery_failure_witness :
  handleLogin example_env unreachable_provider (Some login_event) example_world
  = (Throw (Rejected "getaddrinfo ENOTFOUND"),
     logged (Discover (issuer_url example_env)) example_world)
  /\ drawn (snd (handleLogin example_env unreachable_provider
                   (Some login_event) example_world))
     = drawn example_world.
Proof.
  apply (login_discovery_failure example_env unreachable_provider login_event
           {| referer := Some (js "https://app.example/dashboard");
              cookie := None;
              host := Some (js "app.example") |}).
  - reflexivity.
  - reflexivity.
Defined.

(** X2.  [handleLogin] gives a response exactly when the event has
    headers and the three calls into the provider's library return:
    discovery, the constructor of the client and [authorizationUrl] for
    the nonce and the state of this login.  Its own steps never fail,
    whatever the headers hold.  The response is a 302; one discovery call
    was made and 64 random octets were drawn. *)
Theorem login_returns_iff (env : Env) (lib : Collaborators)
        (event : option Event) (w : World) :
  ((exists resp w', handleLogin env lib event w = (Return resp, w'))
   <-> (exists ev hs issuer client url,
           event = Some ev /\ headers ev = Some hs
           /\ Issuer_discover lib (issuer_url env) = Return issuer
           /\ Issuer_Client lib issuer (metadata env) = Return client
           /\ authorizationUrl lib client
                {| scope := js "openid email profile";
                   response_mode := js "form_post";
                   auth_nonce := drawn_nonce w;
                   auth_state := issued_state (referer hs) w |}
              = Return url))
  /\ (forall resp w',
         handleLogin env lib event w = (Return resp, w') ->
         statusCode resp = 302
         /\ Cache_Control (response_headers resp) = js "no-cache"
         /\ drawn w' = (drawn w + 64)%nat
         /\ calls w' = calls w ++ [Discover (issuer_url env)]
         /\ clock w' = clock w).
Proof.
  assert (Hinv : forall resp w',
             handleLogin env lib event w = (Return resp, w') ->
             exists ev hs issuer client url,
               event = Some ev /\ headers ev = Some hs
               /\ Issuer_discover lib (issuer_url env) = Return issuer
               /\ Issuer_Client lib issuer (metadata env) = Return client
               /\ authorizationUrl lib client
                    {| scope := js "openid email profile";
                       response_mode := js "form_post";
                       auth_nonce := drawn_nonce w;
                       auth_state := issued_state (referer hs) w |}
                  = Return url).
  { intros resp w' H. pose proof H as H0. apply handleLogin_inv in H0.
    destruct H0 as (ev & hs & issuer & client & _ & _ & _
                    & -> & Hh & Hd & Hc & _).
    rewrite (handleLogin_client_made env lib ev hs issuer client w Hh Hd Hc)
      in H.
    destruct (authorizationUrl lib client _) as [url|e] eqn:Hu;
      [|discriminate].
    now exists ev, hs, issuer, client, url. }
  split; [split|].
  - intros (resp & w' & H). exact (Hinv resp w' H).
  - intros (ev & hs & issuer & client & url & -> & Hh & Hd & Hc & Hu).
    eexists _, _.
    apply (handleLogin_discovered env lib ev hs issuer client url w
             Hh Hd Hc Hu).
  - intros resp w' H.
    destruct (Hinv resp w' H)
      as (ev & hs & issuer & client & url & -> & Hh & Hd & Hc & Hu).
    rewrite (handleLogin_discovered env lib ev hs issuer client url w
               Hh Hd Hc Hu) in H.
    injection H as <- <-. cbn. repeat split. lia.
Qed.

(** X3.  When the client gives an authorization URL for the nonce made of
    the next 32 random octets and the state of this login, the login
    redirects to that URL, and the state decodes to the referer (["/"]
    when there is none) and a second nonce, made of the 32 octets after
    those. *)
Theorem login_state_carries_referer (env : Env) (lib : Collaborators)
        (ev : Event) (hs : Headers) (issuer : Issuer lib)
        (client : Client lib) (url : jsstring) (w : World) :
  headers ev = Some hs ->
  (forall r, referer hs = Some r -> valid_string r) ->
  Issuer_discover lib (issuer_url env) = Return issuer ->
  Issuer_Client lib issuer (metadata env) = Return client ->
  authorizationUrl lib client
    {| scope := js "openid email profile";
       response_mode := js "form_post";
       auth_nonce := drawn_nonce w;
       auth_state := issued_state (referer hs) w |}
  = Return url ->
  exists resp w',
    handleLogin env lib (Some ev) w = (Return resp, w')
    /\ Location (response_headers resp) = Some (JString url)
    /\ decodeState lib (Some (JString (issued_state (referer hs) w)))
       = Return (JObject
                   [(js "route", JString (or_default (referer hs) (js "/")));
                    (js "nonce", JString (drawn_nonce (consume 32 w)))]).
Proof.
  intros Hh Hr Hd Hc Hu. eexists _, _.
  split; [apply (handleLogin_discovered env lib ev hs issuer client url w
                   Hh Hd Hc Hu)|].
  split; [reflexivity|].
  apply decodeState_encoded;
    [ apply or_default_valid; [exact Hr | apply js_valid]
    | apply drawn_nonce_ascii ].
Qed.

Lemma login_state_carries_referer_witness :
  exists url resp w',
    authorizationUrl accepting_provider example_client
      {| scope := js "openid email profile";
         response_mode := js "form_post";
         auth_nonce := drawn_nonce example_world;
         auth_state :=
           issued_state (Some (js "https://app.example/dashboard"))
             example_world |}
    = Return url
    /\ handleLogin example_env accepting_provider (Some login_event)
         example_world
       = (Return resp, w')
    /\ Location (response_headers resp) = Some (JString url)
    /\ decodeState accepting_provider
         (Some (JString
                  (issued_state (Some (js "https://app.example/dashboard"))
                     example_world)))
       = Return (JObject
                   [(js "route", JString (js "https://app.example/dashboard"));
                    (js "nonce",
                     JString (drawn_nonce (consume 32 example_world)))]).
Proof.
  assert (Hv : forall r,
             referer {| referer := Some (js "https://app.example/dashboard");
                        cookie := None;
                        host := Some (js "app.example") |} = Some r ->
             valid_string r).
  { intros r [= <-]. apply valid_string_check. vm_compute. reflexivity. }
  exists (fst example_client ++ js "/oauth2/auth?client_id="
            ++ client_id (snd example_client)
            ++ js "&nonce=" ++ drawn_nonce example_world
            ++ js "&state="
            ++ issued_state (Some (js "https://app.example/dashboard"))
                 example_world).
  destruct (login_state_carries_referer example_env accepting_provider
              login_event
              {| referer := Some (js "https://app.example/dashboard");
                 cookie := None;
                 host := Some (js "app.example") |}
              (issuer_url example_env) example_client _ example_world
              eq_refl Hv eq_refl eq_refl eq_refl)
    as (resp & w' & H).
  exists resp, w'. split; [reflexivity | exact H].
Defined.

(** ** The callback handler: the ways it fails *)

(** X4.  A callback with no event, no headers, or no [Cookie] header (an
    empty one included) fails with [Error('Invalid request')] before
    anything else happens: the provider is not contacted. *)
Theorem callback_rejected_at_guard (env : Env) (lib : Collaborators)
        (event : option Event) (w : World) :
  event = None
  \/ (exists ev, event = Some ev /\ headers ev = None)
  \/ (exists ev hs, event = Some ev /\ headers ev = Some hs
                    /\ (cookie hs = None \/ cookie hs = Some [])) ->
  handleCallback env lib event w = (Throw (Error "Invalid request"), w).
Proof. apply handleCallback_invalid. Qed.

Lemma callback_rejected_at_guard_witness :
  (exists ev hs, Some login_event = Some ev /\ headers ev = Some hs
                 /\ (cookie hs = None \/ cookie hs = Some []))
  /\ handleCallback example_env accepting_provider (Some login_event)
       example_world
     = (Throw (Error "Invalid request"), example_world).
Proof.
  assert (H : exists ev hs, Some login_event = Some ev /\ headers ev = Some hs
                            /\ (cookie hs = None \/ cookie hs = Some [])).
  { eexists _, _. split; [reflexivity|]. split; [reflexivity|].
    left. reflexivity. }
  split; [exact H|].
  exact (callback_rejected_at_guard example_env accepting_provider
           (Some login_event) example_world (or_intror (or_intror H))).
Defined.

(** X5.  Discovery comes before the cookies are read: when it fails, a
    callback that passed the guard fails with the error of the discovery,
    whatever its cookies are. *)
Theorem callback_discovery_failure (env : Env) (lib : Collaborators)
        (ev : Event) (hs : Headers) (hdr : jsstring) (e : exn) (w : World) :
  headers ev = Some hs ->
  cookie hs = Some hdr ->
  hdr <> [] ->
  Issuer_discover lib (issuer_url env) = Throw e ->
  handleCallback env lib (Some ev) w
  = (Throw e, logged (Discover (issuer_url env)) w).
Proof. apply handleCallback_undiscovered. Qed.

Lemma callback_discovery_failure_witness :
  handleCallback example_env unreachable_provider
    (Some event_without_login_cookie) example_world
  = (Throw (Rejected "getaddrinfo ENOTFOUND"),
     logged (Discover (issuer_url example_env)) example_world).
Proof.
  apply (callback_discovery_failure example_env unreachable_provider
           event_without_login_cookie
           {| referer := None;
              cookie := Some (js "theme=dark; lang=en");
              host := Some (js "app.example") |}
           (js "theme=dark; lang=en")).
  - reflexivity.
  - reflexivity.
  - discriminate.
  - reflexivity.
Defined.

Section CallbackSteps.

Variable env : Env.
Variable lib : Collaborators.
Variables (ev : Event) (hs : Headers) (hdr : jsstring).
Variable issuer : Issuer lib.
Variable client : Client lib.

Hypothesis Hheaders : headers ev = Some hs.
Hypothesis Hcookie : cookie hs = Some hdr.
Hypothesis Hnonempty : hdr <> [].
Hypothesis Hdiscover : Issuer_discover lib (issuer_url env) = Return issuer.
Hypothesis Hclient : Issuer_Client lib issuer (metadata env) = Return client.

Lemma handleCallback_cookie_unreadable login_cookie e w :
  cookie_get (cookie_parse hdr) CROSSID_LOGIN_COOKIE_NAME = Some login_cookie ->
  JSON_parse login_cookie = Throw e
  \/ (JSON_parse login_cookie = Return JNull /\ e = TypeError) ->
  handleCallback env lib (Some ev) w
  = (Throw e, logged (Discover (issuer_url env)) w).
Proof.
  intros Hlc Hp.
  rewrite (handleCallback_guard_passed env lib ev hs hdr issuer client)
    by assumption.
  rewrite Hlc. cbn [ToString]. destruct Hp as [Hp | [Hp ->]]; rewrite Hp.
  - reflexivity.
  - reflexivity.
Qed.

Lemma handleCallback_params_refused login_cookie parsed nonce state e w :
  cookie_get (cookie_parse hdr) CROSSID_LOGIN_COOKIE_NAME = Some login_cookie ->
  JSON_parse login_cookie = Return parsed ->
  Get parsed (js "nonce") = Return nonce ->
  Get parsed (js "state") = Return state ->
  callbackParams lib client
    {| method := js "POST"; req_body := body ev; url := host hs |}
  = Throw e ->
  handleCallback env lib (Some ev) w
  = (Throw e, logged (Discover (issuer_url env)) w).
Proof.
  intros Hlc Hp Hn Hs Hcp.
  rewrite (handleCallback_guard_passed env lib ev hs hdr issuer client)
    by assumption.
  rewrite Hlc. cbn [ToString].
  rewrite Hp. unfold lift at 1. unfold bind at 1.
  rewrite Hn. unfold lift at 1. unfold bind at 1.
  rewrite Hs. unfold lift at 1. unfold bind at 1.
  rewrite Hcp. reflexivity.
Qed.

Lemma handleCallback_rejected login_cookie parsed nonce state params e w :
  cookie_get (cookie_parse hdr) CROSSID_LOGIN_COOKIE_NAME = Some login_cookie ->
  JSON_parse login_cookie = Return parsed ->
  Get parsed (js "nonce") = Return nonce ->
  Get parsed (js "state") = Return state ->
  callbackParams lib client
    {| method := js "POST"; req_body := body ev; url := host hs |}
  = Return params ->
  callback lib client (callback_uri env) params
    {| check_nonce := nonce; check_state := state |}
  = Throw e ->
  handleCallback env lib (Some ev) w = (Throw e, after_callback env w).
Proof.
  intros Hlc Hp Hn Hs Hcp Hcb.
  rewrite (handleCallback_guard_passed env lib ev hs hdr issuer client)
    by assumption.
  rewrite Hlc. cbn [ToString].
  rewrite Hp. unfold lift at 1. unfold bind at 1.
  rewrite Hn. unfold lift at 1. unfold bind at 1.
  rewrite Hs. unfold lift at 1. unfold bind at 1.
  rewrite Hcp. unfold lift at 1. unfold bind at 1.
  unfold record_call. unfold bind at 1.
  rewrite Hcb. reflexivity.
Qed.

End CallbackSteps.

(** X6.  A login cookie whose value is not JSON text, or is the text
    [null], makes the callback fail, once the client is made, with the
    error of [JSON.parse], or with a [TypeError] for [null]: the body is
    not read and the provider is not asked to verify anything. *)
Theorem callback_unreadable_login_cookie
        (env : Env) (lib : Collaborators) (ev : Event) (hs : Headers)
        (hdr : jsstring) (issuer : Issuer lib) (client : Client lib)
        (login_cookie : jsstring)
        (e : exn) (w : World) :
  headers ev = Some hs ->
  cookie hs = Some hdr ->
  hdr <> [] ->
  Issuer_discover lib (issuer_url env) = Return issuer ->
  Issuer_Client lib issuer (metadata env) = Return client ->
  cookie_get (cookie_parse hdr) CROSSID_LOGIN_COOKIE_NAME = Some login_cookie ->
  JSON_parse login_cookie = Throw e
  \/ (JSON_parse login_cookie = Return JNull /\ e = TypeError) ->
  handleCallback env lib (Some ev) w
  = (Throw e, logged (Discover (issuer_url env)) w).
Proof. intros. eapply handleCallback_cookie_unreadable; eassumption. Qed.

Lemma callback_unreadable_login_cookie_witness :
  JSON_parse (js "null") = Return JNull
  /\ handleCallback example_env accepting_provider
       (Some (callback_event_with (js "null") (Some (js "id_token=x.y.z"))))
       example_world
     = (Throw TypeError,
        logged (Discover (issuer_url example_env)) example_world).
Proof.
  split; [reflexivity|].
  eapply (callback_unreadable_login_cookie example_env accepting_provider
            (callback_event_with (js "null") (Some (js "id_token=x.y.z")))
            _ _ (issuer_url example_env) example_client (js "null")).
  - reflexivity.
  - reflexivity.
  - vm_compute. discriminate.
  - reflexivity.
  - reflexivity.
  - vm_compute. reflexivity.
  - right. split; reflexivity.
Defined.

(** X7.  When the provider client refuses the request (it has no body,
    say), the callback fails with that error and verification is never
    called. *)
Theorem callback_request_refused
        (env : Env) (lib : Collaborators) (ev : Event) (hs : Headers)
        (hdr : jsstring) (issuer : Issuer lib) (client : Client lib)
        (login_cookie : jsstring)
        (parsed : JSON) (nonce state : jsval) (e : exn) (w : World) :
  headers ev = Some hs ->
  cookie hs = Some hdr ->
  hdr <> [] ->
  Issuer_discover lib (issuer_url env) = Return issuer ->
  Issuer_Client lib issuer (metadata env) = Return client ->
  cookie_get (cookie_parse hdr) CROSSID_LOGIN_COOKIE_NAME = Some login_cookie ->
  JSON_parse login_cookie = Return parsed ->
  Get parsed (js "nonce") = Return nonce ->
  Get parsed (js "state") = Return state ->
  callbackParams lib client
    {| method := js "POST"; req_body := body ev; url := host hs |}
  = Throw e ->
  handleCallback env lib (Some ev) w
  = (Throw e, logged (Discover (issuer_url env)) w).
Proof. intros. eapply handleCallback_params_refused; eassumption. Qed.

Lemma callback_request_refused_witness :
  handleCallback example_env accepting_provider
    (Some (callback_event_with
             (JSON_stringify (JObject [(js "nonce", JString (js "n-1"));
                                       (js "state", JString default_state)]))
             None))
    example_world
  = (Throw TypeError, logged (Discover (issuer_url example_env)) example_world).
Proof.
  eapply (callback_request_refused example_env accepting_provider
            (callback_event_with
               (JSON_stringify (JObject [(js "nonce", JString (js "n-1"));
                                         (js "state", JString default_state)]))
               None)
            _ _ (issuer_url example_env) example_client).
  - reflexivity.
  - reflexivity.
  - vm_compute. discriminate.
  - reflexivity.
  - reflexivity.
  - vm_compute. reflexivity.
  - vm_compute. reflexivity.
  - vm_compute. reflexivity.
  - vm_compute. reflexivity.
  - reflexivity.
Defined.

(** X8.  When the provider rejects the callback, the handler fails with
    the provider's error: no token is signed into a response, no cookie
    is set and no redirect is given. *)
Theorem callback_verification_failure
        (env : Env) (lib : Collaborators) (ev : Event) (hs : Headers)
        (hdr : jsstring) (issuer : Issuer lib) (client : Client lib)
        (login_cookie : jsstring)
        (parsed : JSON) (nonce state : jsval)
        (params : CallbackParameters lib) (e : exn) (w : World) :
  headers ev = Some hs ->
  cookie hs = Some hdr ->
  hdr <> [] ->
  Issuer_discover lib (issuer_url env) = Return issuer ->
  Issuer_Client lib issuer (metadata env) = Return client ->
  cookie_get (cookie_parse hdr) CROSSID_LOGIN_COOKIE_NAME = Some login_cookie ->
  JSON_parse login_cookie = Return parsed ->
  Get parsed (js "nonce") = Return nonce ->
  Get parsed (js "state") = Return state ->
  callbackParams lib client
    {| method := js "POST"; req_body := body ev; url := host hs |}
  = Return params ->
  callback lib client (callback_uri env) params
    {| check_nonce := nonce; check_state := state |}
  = Throw e ->
  handleCallback env lib (Some ev) w = (Throw e, after_callback env w).
Proof. intros. eapply handleCallback_rejected; eassumption. Qed.

Lemma callback_verification_failure_witness :
  handleCallback example_env rejecting_provider
    (Some (callback_event default_state)) example_world
  = (Throw (Rejected "state mismatch"),
     after_callback example_env example_world).
Proof.
  eapply (callback_verification_failure example_env rejecting_provider
            (callback_event default_state) _ _ (issuer_url example_env)
            example_client).
  - reflexivity.
  - reflexivity.
  - vm_compute. discriminate.
  - reflexivity.
  - reflexivity.
  - vm_compute. reflexivity.
  - vm_compute. reflexivity.
  - vm_compute. reflexivity.
  - vm_compute. reflexivity.
  - reflexivity.
  - reflexivity.
Defined.

(** X9.  When the JSON of the login cookie has no [state], or one that is
    [null], a boolean or a number, and the provider still accepts the
    callback, the handler reads the claims, signs the token and then
    fails with a [TypeError] when it reads the state: there is no
    response. *)
Theorem callback_state_not_a_string
        (env : Env) (lib : Collaborators) (ev : Event) (hs : Headers)
        (hdr : jsstring) (issuer : Issuer lib) (client : Client lib)
        (login_cookie : jsstring)
        (parsed : JSON) (nonce state : jsval)
        (params : CallbackParameters lib) (tokenSet : TokenSet lib)
        (tokenData : Claims) (token : jsstring) (w : World) :
  headers ev = Some hs ->
  cookie hs = Some hdr ->
  hdr <> [] ->
  Issuer_discover lib (issuer_url env) = Return issuer ->
  Issuer_Client lib issuer (metadata env) = Return client ->
  cookie_get (cookie_parse hdr) CROSSID_LOGIN_COOKIE_NAME = Some login_cookie ->
  JSON_parse login_cookie = Return parsed ->
  Get parsed (js "nonce") = Return nonce ->
  Get parsed (js "state") = Return state ->
  callbackParams lib client
    {| method := js "POST"; req_body := body ev; url := host hs |}
  = Return params ->
  callback lib client (callback_uri env) params
    {| check_nonce := nonce; check_state := state |}
  = Return tokenSet ->
  claims lib tokenSet = Return tokenData ->
  JWT_sign lib (payload_of tokenData (clock w)) (TOKEN_SECRET env)
    {| algorithm := js "HS256"; header_typ := js "JWT" |}
  = Return token ->
  not_a_buffer_source state ->
  handleCallback env lib (Some ev) w = (Throw TypeError, after_callback env w).
Proof.
  intros Hh Hc Hne Hd Hcl Hlc Hp Hn Hs Hcp Hcb Hclaims Hsign Hstate.
  apply (handleCallback_state_unreadable env lib ev hs hdr issuer client
           Hh Hc Hne Hd Hcl
           login_cookie parsed nonce state params tokenSet
           Hlc Hp Hn Hs Hcp Hcb tokenData Hclaims token TypeError w Hsign).
  unfold decodeState.
  destruct state as [[| | | | |]|]; simpl in Hstate; try contradiction;
    reflexivity.
Qed.

Lemma callback_state_not_a_string_witness :
  handleCallback example_env accepting_provider
    (Some (callback_event_with
             (JSON_stringify (JObject [(js "nonce", JString (js "n-1"))]))
             (Some (js "id_token=x.y.z"))))
    example_world
  = (Throw TypeError, after_callback example_env example_world).
Proof.
  eapply (callback_state_not_a_string example_env accepting_provider
            (callback_event_with
               (JSON_stringify (JObject [(js "nonce", JString (js "n-1"))]))
               (Some (js "id_token=x.y.z")))
            _ _ (issuer_url example_env) example_client _ _ _ undefined
            _ _ example_claims (js "header.payload.signature")).
  - reflexivity.
  - reflexivity.
  - vm_compute. discriminate.
  - reflexivity.
  - reflexivity.
  - vm_compute. reflexivity.
  - vm_compute. reflexivity.
  - vm_compute. reflexivity.
  - vm_compute. reflexivity.
  - vm_compute. reflexivity.
  - reflexivity.
  - reflexivity.
  - reflexivity.
  - exact I.
Defined.

(** ** The callback handler: what a response implies *)

Lemma JSON_parse_undefined : JSON_parse (ToString None) = Throw SyntaxError.
Proof. reflexivity. Qed.

Lemma handleCallback_passed_guard env lib event w resp w' :
  handleCallback env lib event w = (Return resp, w') ->
  exists ev hs hdr issuer client,
    event = Some ev /\ headers ev = Some hs /\ cookie hs = Some hdr
    /\ hdr <> [] /\ Issuer_discover lib (issuer_url env) = Return issuer
    /\ Issuer_Client lib issuer (metadata env) = Return client.
Proof.
  intros H. destruct event as [ev|]; [|discriminate].
  destruct (headers ev) as [hs|] eqn:Hh;
    [|unfold handleCallback in H; rewrite Hh in H; discriminate].
  destruct (cookie hs) as [[|c hdr]|] eqn:Hc;
    try (unfold handleCallback in H; rewrite Hh, Hc in H; discriminate).
  destruct (Issuer_discover lib (issuer_url env)) as [issuer|e] eqn:Hd.
  - destruct (Issuer_Client lib issuer (metadata env)) as [client|e] eqn:Hcl.
    + exists ev, hs, (c :: hdr), issuer, client.
      repeat split; auto. discriminate.
    + rewrite (handleCallback_no_client env lib ev hs (c :: hdr) issuer e w
                 Hh Hc) in H by (assumption || discriminate).
      discriminate.
  - rewrite (handleCallback_undiscovered env lib ev hs (c :: hdr) e w Hh Hc)
      in H by (assumption || discriminate).
    discriminate.
Qed.

(** X10.  [handleCallback] gives a response only after the provider has
    verified the callback against the nonce and the state it read from
    the login cookie of the same request.  The response redirects to the
    route read from that state; its first cookie is the session cookie,
    holding the token that the signer made, with the secret of the
    configuration, of the claims this verification returned, with their
    groups as roles; its second cookie is the reset cookie, which empties
    the login cookie. *)
Theorem session_only_after_verification
        (env : Env) (lib : Collaborators) (event : option Event)
        (w w' : World) (resp : Response) :
  handleCallback env lib event w = (Return resp, w') ->
  exists ev hs hdr issuer client login_cookie parsed nonce state params
         tokenSet tokenData token decoded session reset,
    event = Some ev /\ headers ev = Some hs /\ cookie hs = Some hdr
    /\ Issuer_discover lib (issuer_url env) = Return issuer
    /\ Issuer_Client lib issuer (metadata env) = Return client
    /\ cookie_get (cookie_parse hdr) CROSSID_LOGIN_COOKIE_NAME
       = Some login_cookie
    /\ JSON_parse login_cookie = Return parsed
    /\ Get parsed (js "nonce") = Return nonce
    /\ Get parsed (js "state") = Return state
    /\ callbackParams lib client
         {| method := js "POST"; req_body := body ev; url := host hs |}
       = Return params
    /\ callback lib client (callback_uri env) params
         {| check_nonce := nonce; check_state := state |}
       = Return tokenSet
    /\ claims lib tokenSet = Return tokenData
    /\ JWT_sign lib (payload_of tokenData (clock w)) (TOKEN_SECRET env)
         {| algorithm := js "HS256"; header_typ := js "JWT" |}
       = Return token
    /\ roles (authorization (app_metadata (payload_of tokenData (clock w))))
       = groups tokenData
    /\ decodeState lib state = Return decoded
    /\ Get decoded (js "route") = Return (Location (response_headers resp))
    /\ statusCode resp = 302
    /\ set_cookies resp = [session; reset]
    /\ session = {| cookie_name := NETLIFY_COOKIE_NAME;
                    cookie_value := token;
                    Max_Age := Some NETLIFY_JWT_EXPIRATION_SECONDS;
                    Path := Some (js "/");
                    HttpOnly := false;
                    Secure := negb (isRunningLocally env) |}
    /\ reset = generateCrossIdLoginResetCookie env
    /\ cookie_name reset = CROSSID_LOGIN_COOKIE_NAME
    /\ cookie_value reset = []
    /\ Max_Age reset = Some 0
    /\ w' = after_callback env w.
Proof.
  intros H.
  destruct (handleCallback_passed_guard env lib event w resp w' H)
    as (ev & hs & hdr & issuer & client & -> & Hh & Hc & Hne & Hd & Hcl).
  pose proof (handleCallback_run env lib ev hs hdr issuer client w
                Hh Hc Hne Hd Hcl) as R.
  rewrite H in R.
  inversion R as [ | | | | | |
                   | parsed nonce state params tokenSet tokenData token
                       decoded route
                       Hp Hn Hs Hcp Hcb Hclaims Hsign Hdec Hroute Heq ].
  subst resp w'. clear R H.
  destruct (cookie_get (cookie_parse hdr) CROSSID_LOGIN_COOKIE_NAME)
    as [login_cookie|] eqn:Hlc;
    [|rewrite JSON_parse_undefined in Hp; discriminate].
  cbn [ToString] in Hp.
  exists ev, hs, hdr, issuer, client, login_cookie, parsed, nonce, state,
    params, tokenSet, tokenData, token, decoded.
  eexists _, _.
  split; [reflexivity|]. split; [exact Hh|]. split; [exact Hc|].
  split; [exact Hd|]. split; [exact Hcl|]. split; [exact Hlc|].
  split; [exact Hp|]. split; [exact Hn|]. split; [exact Hs|].
  split; [exact Hcp|]. split; [exact Hcb|]. split; [exact Hclaims|].
  split; [exact Hsign|]. split; [reflexivity|]. split; [exact Hdec|].
  split; [exact Hroute|]. split; [reflexivity|]. split; [reflexivity|].
  split; [reflexivity|]. split; [reflexivity|]. split; [reflexivity|].
  split; [reflexivity|]. split; reflexivity.
Qed.

Lemma session_only_after_verification_witness :
  exists resp w' token session reset,
    handleCallback example_env accepting_provider
      (Some (callback_event default_state)) example_world
    = (Return resp, w')
    /\ JWT_sign accepting_provider
         (payload_of example_claims (clock example_world))
         (TOKEN_SECRET example_env)
         {| algorithm := js "HS256"; header_typ := js "JWT" |}
       = Return token
    /\ set_cookies resp = [session; reset]
    /\ cookie_value session = token
    /\ reset = generateCrossIdLoginResetCookie example_env.
Proof.
  destruct (handleCallback example_env accepting_provider
              (Some (callback_event default_state)) example_world)
    as [[resp|e] w'] eqn:Hrun;
    [|vm_compute in Hrun; discriminate Hrun].
  destruct (session_only_after_verification example_env accepting_provider
              (Some (callback_event default_state)) example_world w' resp Hrun)
    as (ev & hs & hdr & issuer & client & login_cookie & parsed & nonce
        & state & params & tokenSet & tokenData & token & decoded
        & session & reset & _ & _ & _ & _ & _ & _ & _ & _ & _ & _ & Hcb
        & Hclaims & Hsign & _ & _ & _ & _ & Hset & Hsession & Hreset & _).
  injection Hcb as <-. injection Hclaims as <-.
  exists resp, w', token, session, reset.
  split; [reflexivity|]. split; [exact Hsign|]. split; [exact Hset|].
  split; [now rewrite Hsession | exact Hreset].
Defined.

(** X11.  Whatever [handleCallback] is given and however it ends, it
    draws no random octet and leaves the clock alone; it calls discovery
    at most once and verification at most once, in this order, and when
    it gives a response it has called both. *)
Theorem callback_footprint (env : Env) (lib : Collaborators)
        (event : option Event) (w : World) :
  let result := handleCallback env lib event w in
  drawn (snd result) = drawn w
  /\ clock (snd result) = clock w
  /\ (calls (snd result) = calls w
      \/ calls (snd result) = calls w ++ [Discover (issuer_url env)]
      \/ calls (snd result)
         = calls w ++ [Discover (issuer_url env); Callback (callback_uri env)])
  /\ (forall resp,
         fst result = Return resp ->
         calls (snd result)
         = calls w ++ [Discover (issuer_url env); Callback (callback_uri env)]).
Proof.
  assert (Hafter : calls (after_callback env w)
                   = calls w ++ [Discover (issuer_url env);
                                 Callback (callback_uri env)])
    by (cbn; now rewrite <- app_assoc).
  cbv zeta.
  destruct event as [ev|];
    [|cbn; repeat split; auto; discriminate].
  destruct (headers ev) as [hs|] eqn:Hh;
    [|unfold handleCallback; rewrite Hh; cbn; repeat split; auto;
      discriminate].
  destruct (cookie hs) as [[|c hdr]|] eqn:Hc;
    try (unfold handleCallback; rewrite Hh, Hc; cbn; repeat split; auto;
         discriminate).
  destruct (Issuer_discover lib (issuer_url env)) as [issuer|e] eqn:Hd.
  2:{ rewrite (handleCallback_undiscovered env lib ev hs (c :: hdr) e w Hh Hc)
        by (assumption || discriminate).
      cbn. repeat split; auto. discriminate. }
  destruct (Issuer_Client lib issuer (metadata env)) as [client|e] eqn:Hcl.
  2:{ rewrite (handleCallback_no_client env lib ev hs (c :: hdr) issuer e w
                 Hh Hc) by (assumption || discriminate).
      cbn. repeat split; auto. discriminate. }
  assert (Hne : c :: hdr <> []) by discriminate.
  pose proof (handleCallback_run env lib ev hs (c :: hdr) issuer client w
                Hh Hc Hne Hd Hcl) as R.
  destruct (handleCallback env lib (Some ev) w) as [o w1].
  inversion R; subst; cbn [fst snd];
    try (cbn [logged drawn clock calls];
         repeat split; auto; discriminate);
    try (rewrite Hafter; cbn [after_callback logged drawn clock];
         repeat split; auto; discriminate).
Qed.

(** ** Login and callback together *)

Lemma login_cookie_value_parses env nonce state :
  ascii_string nonce -> ascii_string state ->
  JSON_parse (cookie_value (generateCrossIdLoginCookie env nonce state))
  = Return (JObject [(js "nonce", JString nonce);
                     (js "state", JString state)]).
Proof.
  intros Hn Hs.
  cbn [generateCrossIdLoginCookie cookie_serialize cookie_value].
  apply JSON_roundtrip_object2;
    [ apply js_valid | now apply ascii_valid
    | apply js_valid | now apply ascii_valid ].
Qed.

(** X12.  A login in world [w], followed, in any world [w2], by a
    callback that brings back the value of the login cookie.  When the
    provider's library does its part (the client gives an authorization
    URL, the provider accepts the callback for the nonce and the state
    that the login put in that URL, the claims are read and the token is
    signed), the callback redirects to the referer of the login, or to
    ["/"] when the login had none. *)
Theorem login_flow_returns_to_referer
        (env : Env) (lib : Collaborators) (ev : Event) (hs : Headers)
        (issuer : Issuer lib) (client : Client lib) (url : jsstring)
        (ev2 : Event) (hs2 : Headers) (hdr : jsstring)
        (params : CallbackParameters lib) (tokenSet : TokenSet lib)
        (tokenData : Claims) (token : jsstring) (w w2 : World) :
  headers ev = Some hs ->
  (forall r, referer hs = Some r -> valid_string r) ->
  Issuer_discover lib (issuer_url env) = Return issuer ->
  Issuer_Client lib issuer (metadata env) = Return client ->
  authorizationUrl lib client
    {| scope := js "openid email profile";
       response_mode := js "form_post";
       auth_nonce := drawn_nonce w;
       auth_state := issued_state (referer hs) w |}
  = Return url ->
  headers ev2 = Some hs2 ->
  cookie hs2 = Some hdr ->
  hdr <> [] ->
  cookie_get (cookie_parse hdr) CROSSID_LOGIN_COOKIE_NAME
  = Some (cookie_value
            (generateCrossIdLoginCookie env (drawn_nonce w)
               (issued_state (referer hs) w))) ->
  callbackParams lib client
    {| method := js "POST"; req_body := body ev2; url := host hs2 |}
  = Return params ->
  callback lib client (callback_uri env) params
    {| check_nonce := Some (JString (drawn_nonce w));
       check_state := Some (JString (issued_state (referer hs) w)) |}
  = Return tokenSet ->
  claims lib tokenSet = Return tokenData ->
  JWT_sign lib (payload_of tokenData (clock w2)) (TOKEN_SECRET env)
    {| algorithm := js "HS256"; header_typ := js "JWT" |}
  = Return token ->
  exists login w1 answer,
    handleLogin env lib (Some ev) w = (Return login, w1)
    /\ Location (response_headers login) = Some (JString url)
    /\ Set_Cookie (response_headers login)
       = Some (generateCrossIdLoginCookie env (drawn_nonce w)
                 (issued_state (referer hs) w))
    /\ handleCallback env lib (Some ev2) w2
       = (Return answer, after_callback env w2)
    /\ statusCode answer = 302
    /\ Location (response_headers answer)
       = Some (JString (or_default (referer hs) (js "/"))).
Proof.
  intros Hh Hr Hd Hcl Hu Hh2 Hc2 Hne Hlc Hcp Hcb Hclaims Hsign.
  eexists _, _, _.
  split; [apply (handleLogin_discovered env lib ev hs issuer client url w
                   Hh Hd Hcl Hu)|].
  split; [reflexivity|]. split; [reflexivity|].
  assert (Hp := login_cookie_value_parses env (drawn_nonce w)
                  (issued_state (referer hs) w)
                  (drawn_nonce_ascii w) (issued_state_ascii (referer hs) w)).
  assert (Hdec : decodeState lib (Some (JString (issued_state (referer hs) w)))
                 = Return (JObject
                             [(js "route",
                               JString (or_default (referer hs) (js "/")));
                              (js "nonce",
                               JString (drawn_nonce (consume 32 w)))]))
    by (apply decodeState_encoded;
        [ apply or_default_valid; [exact Hr | apply js_valid]
        | apply drawn_nonce_ascii ]).
  set (parsed := JObject [(js "nonce", JString (drawn_nonce w));
                          (js "state",
                           JString (issued_state (referer hs) w))]) in Hp.
  assert (Hgn : Get parsed (js "nonce")
                = Return (Some (JString (drawn_nonce w)))) by reflexivity.
  assert (Hgs : Get parsed (js "state")
                = Return (Some (JString (issued_state (referer hs) w))))
    by reflexivity.
  set (decoded := JObject
                    [(js "route", JString (or_default (referer hs) (js "/")));
                     (js "nonce", JString (drawn_nonce (consume 32 w)))])
    in Hdec.
  assert (Hgr : Get decoded (js "route")
                = Return (Some (JString (or_default (referer hs) (js "/")))))
    by reflexivity.
  split;
    [ exact (handleCallback_success env lib ev2 hs2 hdr issuer client
               Hh2 Hc2 Hne Hd Hcl
               _ parsed _ _ params tokenSet Hlc Hp Hgn Hgs Hcp Hcb
               tokenData Hclaims token decoded _ w2 Hsign Hdec Hgr) | ].
  split; reflexivity.
Qed.

Lemma login_flow_returns_to_referer_witness :
  exists url,
    authorizationUrl accepting_provider example_client
      {| scope := js "openid email profile";
         response_mode := js "form_post";
         auth_nonce := drawn_nonce example_world;
         auth_state :=
           issued_state (Some (js "https://app.example/dashboard"))
             example_world |}
    = Return url
    /\ exists login w1 answer,
        handleLogin example_env accepting_provider (Some login_event)
          example_world
        = (Return login, w1)
        /\ Location (response_headers login) = Some (JString url)
        /\ Set_Cookie (response_headers login)
           = Some (generateCrossIdLoginCookie example_env
                     (drawn_nonce example_world)
                     (issued_state
                        (Some (js "https://app.example/dashboard"))
                        example_world))
        /\ handleCallback example_env accepting_provider
             (Some (returning_event example_login)) later_world
           = (Return answer, after_callback example_env later_world)
        /\ statusCode answer = 302
        /\ Location (response_headers answer)
           = Some (JString (js "https://app.example/dashboard")).
Proof.
  assert (Hv : forall r,
             referer {| referer := Some (js "https://app.example/dashboard");
                        cookie := None;
                        host := Some (js "app.example") |} = Some r ->
             valid_string r).
  { intros r [= <-]. apply valid_string_check. vm_compute. reflexivity. }
  exists (fst example_client ++ js "/oauth2/auth?client_id="
            ++ client_id (snd example_client)
            ++ js "&nonce=" ++ drawn_nonce example_world
            ++ js "&state="
            ++ issued_state (Some (js "https://app.example/dashboard"))
                 example_world).
  split; [reflexivity|].
  eapply (login_flow_returns_to_referer example_env accepting_provider
            login_event
            {| referer := Some (js "https://app.example/dashboard");
               cookie := None;
               host := Some (js "app.example") |}
            (issuer_url example_env) example_client _
            (returning_event example_login)
            _ _ _ _ example_claims (js "header.payload.signature")
            example_world later_world).
  - reflexivity.
  - exact Hv.
  - reflexivity.
  - reflexivity.
  - reflexivity.
  - vm_compute. reflexivity.
  - reflexivity.
  - vm_compute. discriminate.
  - vm_compute. reflexivity.
  - vm_compute. reflexivity.
  - reflexivity.
  - reflexivity.
  - reflexivity.
Defined.

(** ** The cookies *)

(** X13.  The cookie that ends a login attempt replaces the login cookie:
    it has its name, path, [Secure] and [HttpOnly] flags, an empty value
    and max-age 0.  The logout cookie replaces the session cookie in the
    same way, except that it is [HttpOnly] and the session cookie is
    not; the session cookie is built whenever the signer returns a
    token. *)
Theorem clearing_cookies_match (env : Env) (lib : Collaborators) :
  (forall nonce state,
      let login := generateCrossIdLoginCookie env nonce state in
      let reset := generateCrossIdLoginResetCookie env in
      cookie_name reset = cookie_name login
      /\ Path reset = Path login
      /\ Secure reset = Secure login
      /\ HttpOnly reset = HttpOnly login
      /\ HttpOnly login = true
      /\ cookie_value reset = []
      /\ Max_Age reset = Some 0)
  /\ (forall tokenData w token,
         JWT_sign lib (payload_of tokenData (clock w)) (TOKEN_SECRET env)
           {| algorithm := js "HS256"; header_typ := js "JWT" |}
         = Return token ->
         exists session,
           generateNetlifyCookieFromCrossIdToken env lib tokenData w
           = (Return session, w)
           /\ cookie_value session = token
           /\ cookie_name (generateLogoutCookie env) = cookie_name session
           /\ Path (generateLogoutCookie env) = Path session
           /\ Secure (generateLogoutCookie env) = Secure session
           /\ HttpOnly session = false)
  /\ (forall tokenData w session w',
         generateNetlifyCookieFromCrossIdToken env lib tokenData w
         = (Return session, w') ->
         cookie_name (generateLogoutCookie env) = cookie_name session
         /\ Path (generateLogoutCookie env) = Path session
         /\ Secure (generateLogoutCookie env) = Secure session
         /\ HttpOnly session = false)
  /\ HttpOnly (generateLogoutCookie env) = true
  /\ cookie_value (generateLogoutCookie env) = []
  /\ Max_Age (generateLogoutCookie env) = Some 0.
Proof.
  split; [|split; [|split]].
  - intros nonce state. cbv zeta. repeat split.
  - intros tokenData w token Hs. eexists.
    split; [apply (generateNetlifyCookieFromCrossIdToken_signed
                     env lib tokenData w token Hs)|].
    repeat split.
  - intros tokenData w session w' H.
    apply generateNetlifyCookieFromCrossIdToken_inv in H.
    destruct H as (token & _ & -> & _). repeat split.
  - repeat split.
Qed.

(** X14.  The max-age of the session cookie is the lifetime of the token
    in it: [exp - iat] of the signed payload, 14 days in seconds; the
    issue time is the clock in whole seconds.  The cookie is built exactly
    when the signer returns a token for this payload, and the signer's
    error is the builder's. *)
Theorem session_cookie_lifetime (env : Env) (lib : Collaborators)
        (tokenData : Claims) (w : World) :
  exists payload,
    exp payload - iat payload = 1209600
    /\ iat payload * 1000 <= clock w < iat payload * 1000 + 1000
    /\ (forall token,
           JWT_sign lib payload (TOKEN_SECRET env)
             {| algorithm := js "HS256"; header_typ := js "JWT" |}
           = Return token ->
           exists session,
             generateNetlifyCookieFromCrossIdToken env lib tokenData w
             = (Return session, w)
             /\ cookie_value session = token
             /\ Max_Age session = Some (exp payload - iat payload))
    /\ (forall e,
           JWT_sign lib payload (TOKEN_SECRET env)
             {| algorithm := js "HS256"; header_typ := js "JWT" |}
           = Throw e ->
           generateNetlifyCookieFromCrossIdToken env lib tokenData w
           = (Throw e, w)).
Proof.
  exists (payload_of tokenData (clock w)).
  cbn [payload_of exp iat]. unfold NETLIFY_JWT_EXPIRATION_SECONDS.
  split; [lia|]. split; [dm|]. split.
  - intros token Hs. eexists.
    split; [apply (generateNetlifyCookieFromCrossIdToken_signed
                     env lib tokenData w token Hs)|].
    cbn [cookie_value Max_Age]. split; [reflexivity|].
    unfold NETLIFY_JWT_EXPIRATION_SECONDS. f_equal. lia.
  - intros e Hs.
    apply (generateNetlifyCookieFromCrossIdToken_unsigned
             env lib tokenData w e Hs).
Qed.

Lemma isRunningLocally_iff env :
  isRunningLocally env = true <-> NETLIFY_DEV env = Some (js "true").
Proof.
  unfold isRunningLocally. destruct (NETLIFY_DEV env) as [v|].
  - rewrite str_eqb_eq. split; [intros ->; reflexivity | intros [= ->]; reflexivity].
  - split; discriminate.
Qed.

(** X15.  A cookie of this program lacks the [Secure] flag exactly when
    the variable [NETLIFY_DEV] is the string [true], letter for letter:
    any other value, [TRUE] or [1] say, and an unset variable leave every
    cookie secure. *)
Theorem secure_unless_NETLIFY_DEV_true (env : Env) (lib : Collaborators) :
  (forall nonce state,
      Secure (generateCrossIdLoginCookie env nonce state) = false
      <-> NETLIFY_DEV env = Some (js "true"))
  /\ (Secure (generateCrossIdLoginResetCookie env) = false
      <-> NETLIFY_DEV env = Some (js "true"))
  /\ (Secure (generateLogoutCookie env) = false
      <-> NETLIFY_DEV env = Some (js "true"))
  /\ (forall tokenData w session w',
         generateNetlifyCookieFromCrossIdToken env lib tokenData w
         = (Return session, w') ->
         (Secure session = false <-> NETLIFY_DEV env = Some (js "true"))).
Proof.
  assert (H : negb (isRunningLocally env) = false
              <-> NETLIFY_DEV env = Some (js "true"))
    by (rewrite negb_false_iff; apply isRunningLocally_iff).
  split; [|split; [|split]].
  - intros nonce state. exact H.
  - exact H.
  - exact H.
  - intros tokenData w session w' Hs.
    apply generateNetlifyCookieFromCrossIdToken_inv in Hs.
    destruct Hs as (token & _ & -> & _). exact H.
Qed.

(** ** When the provider's library fails *)

(** X19.  When the client cannot give an authorization URL, [handleLogin]
    fails with the client's error, after discovery and after both nonces
    were drawn: there is no response and no cookie. *)
Theorem login_authorization_url_failure
        (env : Env) (lib : Collaborators) (ev : Event) (hs : Headers)
        (issuer : Issuer lib) (client : Client lib) (e : exn) (w : World) :
  headers ev = Some hs ->
  Issuer_discover lib (issuer_url env) = Return issuer ->
  Issuer_Client lib issuer (metadata env) = Return client ->
  authorizationUrl lib client
    {| scope := js "openid email profile";
       response_mode := js "form_post";
       auth_nonce := drawn_nonce w;
       auth_state := issued_state (referer hs) w |}
  = Throw e ->
  handleLogin env lib (Some ev) w
  = (Throw e, consume 32 (consume 32 (logged (Discover (issuer_url env)) w))).
Proof.
  intros Hh Hd Hc Hu.
  rewrite (handleLogin_client_made env lib ev hs issuer client w Hh Hd Hc).
  now rewrite Hu.
Qed.

Lemma login_authorization_url_failure_witness :
  handleLogin example_env provider_without_endpoint (Some login_event)
    example_world
  = (Throw TypeError,
     consume 32 (consume 32 (logged (Discover (issuer_url example_env))
                               example_world))).
Proof.
  apply (login_authorization_url_failure example_env provider_without_endpoint
           login_event
           {| referer := Some (js "https://app.example/dashboard");
              cookie := None;
              host := Some (js "app.example") |}
           (issuer_url example_env) example_client).
  - reflexivity.
  - reflexivity.
  - reflexivity.
  - reflexivity.
Defined.

(** X20.  When the callback is verified and then the claims cannot be
    read, or the signer refuses (an empty secret, say), [handleCallback]
    fails with that error after both provider calls, whatever the state
    holds: the session is not started and there is no response. *)
Theorem callback_signing_failure
        (env : Env) (lib : Collaborators) (ev : Event) (hs : Headers)
        (hdr : jsstring) (issuer : Issuer lib) (client : Client lib)
        (login_cookie : jsstring)
        (parsed : JSON) (nonce state : jsval)
        (params : CallbackParameters lib) (tokenSet : TokenSet lib)
        (e : exn) (w : World) :
  headers ev = Some hs ->
  cookie hs = Some hdr ->
  hdr <> [] ->
  Issuer_discover lib (issuer_url env) = Return issuer ->
  Issuer_Client lib issuer (metadata env) = Return client ->
  cookie_get (cookie_parse hdr) CROSSID_LOGIN_COOKIE_NAME = Some login_cookie ->
  JSON_parse login_cookie = Return parsed ->
  Get parsed (js "nonce") = Return nonce ->
  Get parsed (js "state") = Return state ->
  callbackParams lib client
    {| method := js "POST"; req_body := body ev; url := host hs |}
  = Return params ->
  callback lib client (callback_uri env) params
    {| check_nonce := nonce; check_state := state |}
  = Return tokenSet ->
  claims lib tokenSet = Throw e
  \/ (exists tokenData,
         claims lib tokenSet = Return tokenData
         /\ JWT_sign lib (payload_of tokenData (clock w)) (TOKEN_SECRET env)
              {| algorithm := js "HS256"; header_typ := js "JWT" |}
            = Throw e) ->
  handleCallback env lib (Some ev) w = (Throw e, after_callback env w).
Proof.
  intros Hh Hc Hne Hd Hcl Hlc Hp Hn Hs Hcp Hcb [Hclaims|[tokenData [Hclaims Hsign]]].
  - exact (handleCallback_no_claims env lib ev hs hdr issuer client
             Hh Hc Hne Hd Hcl login_cookie parsed nonce state params tokenSet
             Hlc Hp Hn Hs Hcp Hcb e w Hclaims).
  - exact (handleCallback_unsigned env lib ev hs hdr issuer client
             Hh Hc Hne Hd Hcl login_cookie parsed nonce state params tokenSet
             Hlc Hp Hn Hs Hcp Hcb tokenData Hclaims e w Hsign).
Qed.

Lemma callback_signing_failure_witness :
  handleCallback env_without_secret accepting_provider
    (Some (callback_event default_state)) example_world
  = (Throw TypeError, after_callback env_without_secret example_world).
Proof.
  eapply (callback_signing_failure env_without_secret accepting_provider
            (callback_event default_state) _ _ (issuer_url example_env)
            example_client).
  - reflexivity.
  - reflexivity.
  - vm_compute. discriminate.
  - reflexivity.
  - reflexivity.
  - vm_compute. reflexivity.
  - vm_compute. reflexivity.
  - vm_compute. reflexivity.
  - vm_compute. reflexivity.
  - vm_compute. reflexivity.
  - reflexivity.
  - right. exists example_claims. split; reflexivity.
Defined.

(** X21.  When discovery returns and the constructor of the client
    refuses the metadata (an empty client identifier, say), both handlers
    fail with the constructor's error right after the discovery call: the
    login draws no nonce, the callback reads no cookie. *)
Theorem client_constructor_failure
        (env : Env) (lib : Collaborators) (issuer : Issuer lib) (e : exn)
        (w : World) :
  Issuer_discover lib (issuer_url env) = Return issuer ->
  Issuer_Client lib issuer (metadata env) = Throw e ->
  (forall ev hs,
      headers ev = Some hs ->
      handleLogin env lib (Some ev) w
      = (Throw e, logged (Discover (issuer_url env)) w))
  /\ (forall ev hs hdr,
         headers ev = Some hs ->
         cookie hs = Some hdr ->
         hdr <> [] ->
         handleCallback env lib (Some ev) w
         = (Throw e, logged (Discover (issuer_url env)) w)).
Proof.
  intros Hd Hc. split.
  - intros ev hs Hh.
    exact (handleLogin_no_client env lib ev hs issuer e w Hh Hd Hc).
  - intros ev hs hdr Hh Hck Hne.
    exact (handleCallback_no_client env lib ev hs hdr issuer e w
             Hh Hck Hne Hd Hc).
Qed.

Lemma client_constructor_failure_witness :
  handleLogin env_without_client_id accepting_provider (Some login_event)
    example_world
  = (Throw TypeError,
     logged (Discover (issuer_url env_without_client_id)) example_world)
  /\ handleCallback env_without_client_id accepting_provider
       (Some (callback_event default_state)) example_world
     = (Throw TypeError,
        logged (Discover (issuer_url env_without_client_id)) example_world).
Proof.
  destruct (client_constructor_failure env_without_client_id
              accepting_provider (issuer_url env_without_client_id) TypeError
              example_world eq_refl eq_refl) as [Hlogin Hcallback].
  split.
  - apply (Hlogin login_event
             {| referer := Some (js "https://app.example/dashboard");
                cookie := None;
                host := Some (js "app.example") |}).
    reflexivity.
  - eapply (Hcallback (callback_event default_state)).
    + reflexivity.
    + reflexivity.
    + vm_compute. discriminate.
Defined.

(** ** encodeURIComponent and decodeURIComponent *)

Lemma in_range_true lo hi b : lo <= b <= hi -> in_range lo hi b = true.
Proof. intros H. destruct (in_range_spec lo hi b); [reflexivity|contradiction]. Qed.

Lemma unreserved_ascii c : uri_unreserved c = true -> 0 <= c < 128.
Proof.
  unfold uri_unreserved, is_alnum, in_range. intros H.
  repeat (apply orb_true_iff in H; destruct H as [H|H]);
    try (apply andb_true_iff in H; lia); lia.
Qed.

Lemma unreserved_not_surrogate c :
  uri_unreserved c = true -> is_surrogate c = false.
Proof.
  intros H%unreserved_ascii. unfold is_surrogate.
  apply andb_false_iff. left. apply Z.leb_gt. lia.
Qed.

Lemma unhex_hex_upper d : 0 <= d < 16 -> unhex (hex_upper d) = Some d.
Proof.
  intros Hd. unfold hex_upper, unhex.
  destruct (Z.ltb_spec d 10).
  - replace ((48 <=? 48 + d) && (48 + d <=? 57)) with true
      by (symmetry; apply andb_true_iff; split; apply Z.leb_le; lia).
    f_equal. lia.
  - replace ((48 <=? 55 + d) && (55 + d <=? 57)) with false
      by (symmetry; apply andb_false_iff; right; apply Z.leb_gt; lia).
    replace ((97 <=? 55 + d) && (55 + d <=? 102)) with false
      by (symmetry; apply andb_false_iff; left; apply Z.leb_gt; lia).
    replace ((65 <=? 55 + d) && (55 + d <=? 70)) with true
      by (symmetry; apply andb_true_iff; split; apply Z.leb_le; lia).
    f_equal. lia.
Qed.

Lemma hex_upper_unreserved d : 0 <= d < 16 -> uri_unreserved (hex_upper d) = true.
Proof.
  intros Hd. unfold uri_unreserved, is_alnum, hex_upper.
  destruct (Z.ltb_spec d 10).
  - rewrite (in_range_true 48 57) by lia. reflexivity.
  - rewrite (in_range_true 65 90) by lia. now rewrite orb_true_r.
Qed.

Lemma encode_code_points_escape cps :
  Forall (fun cp => is_surrogate cp = false) cps ->
  encode_code_points cps = Return (flat_map escape_code_point cps).
Proof.
  induction 1 as [|cp cps Hcp _ IH]; [reflexivity|].
  cbn [encode_code_points flat_map]. rewrite IH, Hcp.
  unfold escape_code_point. destruct (uri_unreserved cp); reflexivity.
Qed.

Lemma encode_code_points_lone_surrogate cps :
  ~ Forall (fun cp => is_surrogate cp = false) cps ->
  encode_code_points cps = Throw URIError.
Proof.
  induction cps as [|cp cps IH]; intros Hn.
  - exfalso. apply Hn. constructor.
  - cbn [encode_code_points].
    destruct (uri_unreserved cp) eqn:Hu.
    + rewrite IH; [reflexivity|].
      intros Hf. apply Hn. constructor;
        [now apply unreserved_not_surrogate | exact Hf].
    + destruct (is_surrogate cp) eqn:Hs; [reflexivity|].
      rewrite IH; [reflexivity|].
      intros Hf. apply Hn. now constructor.
Qed.

Lemma uri_items_percent b rest :
  octet b ->
  uri_items (percent b ++ rest) = cons_item (Oct b) (uri_items rest).
Proof.
  unfold octet. intros Hb. unfold percent. cbn [app uri_items].
  change (37 =? 37) with true. cbv iota.
  rewrite !unhex_hex_upper by dm.
  do 2 f_equal. dm.
Qed.

Lemma uri_items_octets bs rest tail :
  valid_bytes bs ->
  uri_items rest = Some tail ->
  uri_items (flat_map percent bs ++ rest) = Some (map Oct bs ++ tail).
Proof.
  intros Hv Hr. induction Hv as [|b bs Hb _ IH]; [exact Hr|].
  cbn [flat_map map]. rewrite <- !app_assoc.
  rewrite uri_items_percent by assumption. now rewrite IH.
Qed.

Lemma uri_items_escape cps :
  Forall code_point cps ->
  uri_items (flat_map escape_code_point cps)
  = Some (flat_map items_of_code_point cps).
Proof.
  induction 1 as [|cp cps Hcp _ IH]; [reflexivity|].
  cbn [flat_map].
  set (R := flat_map escape_code_point cps) in *.
  set (I := flat_map items_of_code_point cps) in *.
  unfold escape_code_point, items_of_code_point.
  destruct (uri_unreserved cp) eqn:Hu.
  - cbn [app uri_items].
    destruct (Z.eqb_spec cp 37) as [->|_]; [discriminate Hu|].
    now rewrite IH.
  - apply uri_items_octets; [now apply utf8_cp_octets | exact IH].
Qed.

Lemma assemble_1 b0 rest :
  b0 < 0x80 ->
  uri_assemble (Oct b0 :: rest) = app_some [b0] (uri_assemble rest).
Proof. intros H. cbn [uri_assemble]. head_test. reflexivity. Qed.

Lemma assemble_2 b0 b1 rest :
  0xC2 <= b0 <= 0xDF -> 0x80 <= b1 <= 0xBF ->
  uri_assemble (Oct b0 :: Oct b1 :: rest)
  = app_some [(b0 - 0xC0) * 64 + (b1 - 0x80)] (uri_assemble rest).
Proof.
  intros H0 H1. cbn [uri_assemble]. do 3 head_test. reflexivity.
Qed.

Lemma assemble_3 b0 b1 b2 rest :
  0xE0 <= b0 <= 0xEF -> 0x80 <= b1 <= 0xBF -> 0x80 <= b2 <= 0xBF ->
  (b0 = 0xE0 -> 0xA0 <= b1) -> (b0 = 0xED -> b1 <= 0x9F) ->
  uri_assemble (Oct b0 :: Oct b1 :: Oct b2 :: rest)
  = app_some [(b0 - 0xE0) * 4096 + (b1 - 0x80) * 64 + (b2 - 0x80)]
             (uri_assemble rest).
Proof.
  intros H0 H1 H2 Hlo Hhi. cbn [uri_assemble].
  do 3 head_test.
  destruct (Z.eqb_spec b0 0xE0) as [E0|E0];
    destruct (Z.eqb_spec b0 0xED) as [ED|ED];
    try (specialize (Hlo E0)); try (specialize (Hhi ED)); try lia;
    rewrite !in_range_true by lia; reflexivity.
Qed.

Lemma assemble_4 b0 b1 b2 b3 rest :
  0xF0 <= b0 <= 0xF4 -> 0x80 <= b1 <= 0xBF -> 0x80 <= b2 <= 0xBF ->
  0x80 <= b3 <= 0xBF ->
  (b0 = 0xF0 -> 0x90 <= b1) -> (b0 = 0xF4 -> b1 <= 0x8F) ->
  uri_assemble (Oct b0 :: Oct b1 :: Oct b2 :: Oct b3 :: rest)
  = app_some (utf16_cp ((b0 - 0xF0) * 262144 + (b1 - 0x80) * 4096
                        + (b2 - 0x80) * 64 + (b3 - 0x80)))
             (uri_assemble rest).
Proof.
  intros H0 H1 H2 H3 Hlo Hhi. cbn [uri_assemble].
  do 4 head_test.
  destruct (Z.eqb_spec b0 0xF0) as [F0|F0];
    destruct (Z.eqb_spec b0 0xF4) as [F4|F4];
    try (specialize (Hlo F0)); try (specialize (Hhi F4)); try lia;
    rewrite !in_range_true by lia; reflexivity.
Qed.

Lemma assemble_code_point cp rest :
  code_point cp -> is_surrogate cp = false ->
  uri_assemble (items_of_code_point cp ++ rest)
  = app_some (utf16_cp cp) (uri_assemble rest).
Proof.
  unfold code_point. intros Hr Hs. unfold items_of_code_point.
  destruct (uri_unreserved cp) eqn:Hu.
  { apply unreserved_ascii in Hu.
    rewrite utf16_cp_unit by (unfold code_unit; lia). reflexivity. }
  apply is_surrogate_false in Hs. unfold utf8_cp.
  destruct (Z.ltb_spec cp 0x80) as [H1|H1].
  { rewrite utf16_cp_unit by (unfold code_unit; lia).
    cbn [map app]. now rewrite assemble_1. }
  destruct (Z.ltb_spec cp 0x800) as [H2|H2].
  { rewrite utf16_cp_unit by (unfold code_unit; lia).
    cbn [map app]. rewrite assemble_2 by dm. do 2 f_equal. dm. }
  destruct (Z.ltb_spec cp 0x10000) as [H3|H3].
  { rewrite utf16_cp_unit by (unfold code_unit; lia).
    cbn [map app]. rewrite assemble_3 by dm. do 2 f_equal. dm. }
  cbn [map app]. rewrite assemble_4 by dm. do 2 f_equal. dm.
Qed.

Lemma assemble_code_points cps :
  Forall code_point cps ->
  Forall (fun cp => is_surrogate cp = false) cps ->
  uri_assemble (flat_map items_of_code_point cps)
  = Some (CodePointsToString cps).
Proof.
  induction cps as [|cp cps IH]; intros Hr Hs; [reflexivity|].
  inversion_clear Hr as [|? ? Hcp Hr']. inversion_clear Hs as [|? ? Hns Hs'].
  cbn [flat_map CodePointsToString].
  rewrite assemble_code_point by assumption.
  now rewrite (IH Hr' Hs').
Qed.

(** An escaped string reads back as the string. *)
Lemma decode_encodeURIComponent s :
  valid_string s -> well_formed s ->
  exists u, encodeURIComponent s = Return u
            /\ decodeURIComponent u = Some s.
Proof.
  intros Hv Hw. unfold encodeURIComponent.
  rewrite (encode_code_points_escape _ Hw).
  eexists. split; [reflexivity|].
  unfold decodeURIComponent.
  rewrite uri_items_escape by now apply StringToCodePoints_range.
  rewrite assemble_code_points;
    [ | now apply StringToCodePoints_range | exact Hw ].
  now rewrite CodePointsToString_StringToCodePoints.
Qed.

Lemma percent_safe b : octet b -> Forall uri_safe (percent b).
Proof.
  unfold octet. intros Hb. unfold percent.
  apply Forall_cons; [right; reflexivity|].
  apply Forall_cons; [left; apply hex_upper_unreserved; dm|].
  apply Forall_cons; [left; apply hex_upper_unreserved; dm|].
  apply Forall_nil.
Qed.

Lemma escape_code_point_safe cp :
  code_point cp -> Forall uri_safe (escape_code_point cp).
Proof.
  intros Hcp. unfold escape_code_point.
  destruct (uri_unreserved cp) eqn:Hu;
    [apply Forall_cons; [now left | apply Forall_nil]|].
  pose proof (utf8_cp_octets cp Hcp) as Ho. unfold valid_bytes in Ho.
  induction Ho as [|b bs Hb _ IH]; [constructor|].
  cbn [flat_map]. apply Forall_app. split; [now apply percent_safe | exact IH].
Qed.

Lemma encodeURIComponent_safe s u :
  valid_string s ->
  encodeURIComponent s = Return u -> Forall uri_safe u.
Proof.
  intros Hv Hu. unfold encodeURIComponent in Hu.
  assert (Hw : Forall (fun cp => is_surrogate cp = false)
                      (StringToCodePoints s)).
  { destruct (Forall_dec (fun cp => is_surrogate cp = false)
                (fun cp => bool_dec (is_surrogate cp) false)
                (StringToCodePoints s)) as [H|H]; [exact H|].
    rewrite (encode_code_points_lone_surrogate _ H) in Hu. discriminate. }
  rewrite (encode_code_points_escape _ Hw) in Hu. injection Hu as <-.
  apply StringToCodePoints_range in Hv.
  induction Hv as [|cp cps Hcp _ IH]; [constructor|].
  inversion_clear Hw as [|? ? _ Hw'].
  cbn [flat_map]. apply Forall_app. split;
    [now apply escape_code_point_safe | now apply IH].
Qed.

Lemma uri_safe_no_delimiter c :
  uri_safe c -> c <> 38 /\ c <> 61 /\ c <> 63 /\ c <> 35 /\ c <> 32.
Proof.
  intros [H| ->]; [|repeat split; discriminate].
  repeat split; intros ->; discriminate H.
Qed.

(** ** The logout handler *)

(** X16.  In the logout URL the site URL is escaped: the value of
    [returnTo] unescapes to the site URL and holds no [&], [=], [?], [#]
    or space, so that it cannot end the parameter or add another one. *)
Theorem logout_return_to_is_escaped (env : Env) :
  valid_string (URL env) ->
  well_formed (URL env) ->
  exists returnTo,
    generateCrossIdLogoutUrl env
    = Return (js "https://" ++ CROSSID_DOMAIN env
                ++ js "/v2/logout?returnTo=" ++ returnTo
                ++ js "&client_id=" ++ CROSSID_CLIENT_ID env)
    /\ decodeURIComponent returnTo = Some (URL env)
    /\ Forall (fun c => c <> 38 /\ c <> 61 /\ c <> 63 /\ c <> 35 /\ c <> 32)
              returnTo.
Proof.
  intros Hv Hw.
  destruct (decode_encodeURIComponent (URL env) Hv Hw) as [u [Hu Hdec]].
  exists u. split; [|split; [exact Hdec|]].
  - unfold generateCrossIdLogoutUrl. rewrite Hu.
    rewrite <- ?app_assoc. reflexivity.
  - pose proof (encodeURIComponent_safe (URL env) u Hv Hu) as Hs.
    eapply Forall_impl; [|exact Hs]. apply uri_safe_no_delimiter.
Qed.

Lemma logout_return_to_is_escaped_witness :
  valid_string (URL example_env)
  /\ well_formed (URL example_env)
  /\ exists returnTo,
      generateCrossIdLogoutUrl example_env
      = Return (js "https://" ++ CROSSID_DOMAIN example_env
                  ++ js "/v2/logout?returnTo=" ++ returnTo
                  ++ js "&client_id=" ++ CROSSID_CLIENT_ID example_env)
      /\ decodeURIComponent returnTo = Some (URL example_env)
      /\ Forall (fun c => c <> 38 /\ c <> 61 /\ c <> 63 /\ c <> 35 /\ c <> 32)
                returnTo.
Proof.
  assert (Hv : valid_string (URL example_env))
    by (apply valid_string_check; vm_compute; reflexivity).
  assert (Hw : well_formed (URL example_env))
    by (apply well_formed_check; vm_compute; reflexivity).
  split; [exact Hv|]. split; [exact Hw|].
  exact (logout_return_to_is_escaped example_env Hv Hw).
Defined.

(** X17.  [handleLogout] fails in one way only: with a [URIError], when
    the site URL of the configuration has a lone surrogate.  Whether it
    fails or not, it contacts no provider and draws nothing. *)
Theorem logout_fails_only_on_lone_surrogate (env : Env) (w : World) :
  (well_formed (URL env)
   <-> exists resp, handleLogout env w = (Return resp, w))
  /\ (~ well_formed (URL env)
      <-> handleLogout env w = (Throw URIError, w))
  /\ snd (handleLogout env w) = w.
Proof.
  unfold handleLogout, generateCrossIdLogoutUrl, encodeURIComponent.
  destruct (Forall_dec (fun cp => is_surrogate cp = false)
              (fun cp => bool_dec (is_surrogate cp) false)
              (StringToCodePoints (URL env))) as [H|H].
  - rewrite (encode_code_points_escape _ H). unfold lift, bind, ret.
    split; [|split].
    + split; [intros _; eexists; reflexivity | intros _; exact H].
    + split; [intros Hn; contradiction | discriminate].
    + reflexivity.
  - rewrite (encode_code_points_lone_surrogate _ H). unfold lift, bind.
    split; [|split].
    + split; [intros Hw; contradiction | intros [resp Hr]; discriminate].
    + split; [reflexivity | intros _; exact H].
    + reflexivity.
Qed.

(** ** The encoded state *)

Lemma b64_char_in_alphabet (alphabet : jsstring) i :
  List.length alphabet = 64%nat -> In (b64_char alphabet i) alphabet.
Proof.
  intros Hl. unfold b64_char. apply nth_In. rewrite Hl.
  assert (0 <= i mod 64 < 64) by dm. lia.
Qed.

Lemma base64_encode_padded (alphabet : jsstring) :
  List.length alphabet = 64%nat ->
  forall bs,
    Forall (fun c => In c alphabet \/ c = 61) (base64_encode alphabet true bs)
    /\ exists k, List.length (base64_encode alphabet true bs) = (4 * k)%nat
                 /\ (bs <> [] -> (0 < k)%nat).
Proof.
  intros Hl.
  induction bs as [| a | a b | a b c t [IHf [k [IHl _]]]] using list_ind3.
  - split; [constructor|]. exists 0%nat. split; [reflexivity|congruence].
  - split.
    + cbn [base64_encode app].
      repeat (apply Forall_cons; [left; now apply b64_char_in_alphabet|]).
      repeat (apply Forall_cons; [right; reflexivity|]). constructor.
    + exists 1%nat. split; [reflexivity | lia].
  - split.
    + cbn [base64_encode app].
      repeat (apply Forall_cons; [left; now apply b64_char_in_alphabet|]).
      repeat (apply Forall_cons; [right; reflexivity|]). constructor.
    + exists 1%nat. split; [reflexivity | lia].
  - split.
    + cbn [base64_encode app].
      repeat (apply Forall_cons; [left; now apply b64_char_in_alphabet|]).
      exact IHf.
    + exists (S k). split; [|lia].
      cbn [base64_encode app List.length]. rewrite IHl. lia.
Qed.

Lemma Buffer_from_utf8_nonempty s : s <> [] -> Buffer_from_utf8 s <> [].
Proof.
  destruct s as [|c t]; [congruence|]. intros _.
  unfold Buffer_from_utf8.
  assert (Hne : forall cp, utf8_cp cp <> []).
  { intros cp. unfold utf8_cp.
    destruct (cp <? 0x80); [discriminate|].
    destruct (cp <? 0x800); [discriminate|].
    destruct (cp <? 0x10000); discriminate. }
  destruct (StringToCodePoints (c :: t)) as [|cp cps] eqn:E.
  - simpl in E. destruct (is_high c); [|discriminate].
    destruct t as [|d t']; [discriminate|].
    destruct (is_low d); discriminate.
  - cbn [flat_map]. intros H. apply app_eq_nil in H. destruct H as [H _].
    exact (Hne _ H).
Qed.

(** X18.  Whatever the route, the state that
    [generateEncodedStateString] returns is padded base64 of the standard
    alphabet: it is not empty, its length is a multiple of 4 and each of
    its characters is a letter, a digit, [+], [/] or [=]. *)
Theorem encoded_state_is_padded_base64 (route : option jsstring) (w : World) :
  exists state k,
    generateEncodedStateString route w = (Return state, consume 32 w)
    /\ Forall (fun c => In c base64_alphabet \/ c = 61) state
    /\ List.length state = (4 * k)%nat
    /\ (0 < k)%nat.
Proof.
  destruct (generateEncodedStateString_returns route w) as [n [_ Hs]].
  set (text := JSON_stringify
                 (JObject [(js "route", JString (or_default route (js "/")));
                           (js "nonce", JString n)])) in Hs.
  destruct (base64_encode_padded base64_alphabet eq_refl
              (Buffer_from_utf8 text)) as [Hf [k [Hl Hk]]].
  exists (Buffer_toString_base64 (Buffer_from_utf8 text)), k.
  split; [exact Hs|]. split; [exact Hf|]. split; [exact Hl|].
  apply Hk. apply Buffer_from_utf8_nonempty. discriminate.
Qed.
